(** * nbrowser: the virtual path tree

    A shallow embedding of [paths.py], [archive_paths.py] and the parts of
    [nbrowser.py] (the [Terminal] context) that the path classes call back
    into.  Python objects live in a store and are referred to by identity;
    methods are functions in a state-and-exception monad. *)

From Stdlib Require Import String Ascii List Bool Arith Lia.
From Stdlib Require Strings.Byte.
From stdpp Require Import base option list strings.

Import ListNotations.
Local Open Scope string_scope.
Local Open Scope list_scope.


(* ================================================================== *)
(** * Strings and [os.path] (POSIX flavour) *)
(* ================================================================== *)

Module OsPath.

(** [s.rfind(c) + 1]: the index just after the last [c], [0] when absent. *)
Fixpoint rfind1 (c : ascii) (s : string) : nat :=
  match s with
  | EmptyString => 0
  | String a r =>
      match rfind1 c r with
      | 0 => if Ascii.eqb a c then 1 else 0
      | S k => S (S k)
      end
  end.

(** [s[i:]] and [s[:i]]. *)
Fixpoint str_drop (i : nat) (s : string) : string :=
  match i, s with
  | 0, _ => s
  | S _, EmptyString => EmptyString
  | S k, String _ r => str_drop k r
  end.

Fixpoint str_take (i : nat) (s : string) : string :=
  match i, s with
  | 0, _ => EmptyString
  | S _, EmptyString => EmptyString
  | S k, String a r => String a (str_take k r)
  end.

(** [s.startswith(c)] and [s.endswith(c)] for a one-character [c]. *)
Definition startswith (c : ascii) (s : string) : bool :=
  match s with
  | String a _ => Ascii.eqb a c
  | EmptyString => false
  end.

Fixpoint endswith (c : ascii) (s : string) : bool :=
  match s with
  | EmptyString => false
  | String a EmptyString => Ascii.eqb a c
  | String _ r => endswith c r
  end.

(** [all(ch == c for ch in s)]: [s == c * len(s)]. *)
Fixpoint all_char (c : ascii) (s : string) : bool :=
  match s with
  | EmptyString => true
  | String a r => Ascii.eqb a c && all_char c r
  end.

(** [s.rstrip(c)]. *)
Fixpoint rstrip (c : ascii) (s : string) : string :=
  match s with
  | EmptyString => EmptyString
  | String a r =>
      match rstrip c r with
      | EmptyString => if Ascii.eqb a c then EmptyString else String a EmptyString
      | r' => String a r'
      end
  end.

(** [s.split(c)]. *)
Fixpoint split (c : ascii) (s : string) : list string :=
  match s with
  | EmptyString => [EmptyString]
  | String a r =>
      if Ascii.eqb a c then EmptyString :: split c r
      else match split c r with
           | [] => [String a EmptyString]
           | w :: ws => String a w :: ws
           end
  end.

(** [c.join(l)]. *)
Fixpoint str_join (c : string) (l : list string) : string :=
  match l with
  | [] => EmptyString
  | [x] => x
  | x :: r => x +:+ c +:+ str_join c r
  end.

Definition sep : ascii := "/"%char.

(** [posixpath.basename]. *)
Definition basename (p : string) : string :=
  let i := rfind1 sep p in
  str_drop i p.

(** [posixpath.dirname]. *)
Definition dirname (p : string) : string :=
  let i := rfind1 sep p in
  let head := str_take i p in
  if negb (head =? "") && negb (all_char sep head)
  then rstrip sep head
  else head.

(** [posixpath.join(a, b)]. *)
Definition join (a b : string) : string :=
  if startswith sep b then b
  else if (a =? "") || endswith sep a then a +:+ b
  else a +:+ "/" +:+ b.

(** The loop body of [posixpath.normpath] over the split components. *)
Fixpoint normpath_comps (initial_slashes : nat) (comps new_comps : list string)
  : list string :=
  match comps with
  | [] => new_comps
  | comp :: rest =>
      if (comp =? "") || (comp =? ".") then
        normpath_comps initial_slashes rest new_comps
      else if negb (comp =? "..")
              || ((initial_slashes =? 0)%nat && match new_comps with [] => true | _ => false end)
              || match last new_comps with Some l => l =? ".." | None => false end
      then normpath_comps initial_slashes rest (new_comps ++ [comp])
      else normpath_comps initial_slashes rest (removelast new_comps)
  end.

Fixpoint str_repeat (c : ascii) (n : nat) : string :=
  match n with
  | 0 => EmptyString
  | S k => String c (str_repeat c k)
  end.

(** [posixpath.normpath]. *)
Definition normpath (path : string) : string :=
  if path =? "" then "."
  else
    let initial_slashes :=
      if startswith sep path then
        if startswith sep (str_drop 1 path) && negb (startswith sep (str_drop 2 path))
        then 2 else 1
      else 0 in
    let comps := normpath_comps initial_slashes (split sep path) [] in
    let path' := str_repeat sep initial_slashes +:+ str_join "/" comps in
    if path' =? "" then "." else path'.

(** [posixpath.abspath], in a process whose working directory is [cwd]. *)
Definition abspath (cwd path : string) : string :=
  normpath (if startswith sep path then path else join cwd path).

(** [posixpath.splitext]: the scan over the leading dots of the last
    component, started at [filenameIndex]. *)
Fixpoint splitext_scan (p : string) (filenameIndex dotIndex : nat) (n : nat)
  : string * string :=
  match n with
  | 0 => (p, "")
  | S n' =>
      if (filenameIndex <? dotIndex)%nat then
        if negb (str_take 1 (str_drop filenameIndex p) =? ".")
        then (str_take dotIndex p, str_drop dotIndex p)
        else splitext_scan p (S filenameIndex) dotIndex n'
      else (p, "")
  end.

Definition splitext (p : string) : string * string :=
  let sepIndex1 := rfind1 sep p in
  let dotIndex1 := rfind1 "."%char p in
  if (sepIndex1 <? dotIndex1)%nat
  then splitext_scan p sepIndex1 (dotIndex1 - 1) (String.length p)
  else (p, "").

Fixpoint common_prefix_len (a b : list string) : nat :=
  match a, b with
  | x :: a', y :: b' => if x =? y then S (common_prefix_len a' b') else 0
  | _, _ => 0
  end.

Definition nonempty_comps (p : string) : list string :=
  List.filter (fun x => negb (x =? "")) (split sep p).

(** [posixpath.relpath(path, start)]; [None] is the [ValueError] on an
    empty [path]. *)
Definition relpath (cwd path start : string) : option string :=
  if path =? "" then None
  else
    let start_list := nonempty_comps (abspath cwd start) in
    let path_list := nonempty_comps (abspath cwd path) in
    let i := common_prefix_len start_list path_list in
    let rel_list := repeat ".." (length start_list - i) ++ drop i path_list in
    match rel_list with
    | [] => Some "."
    | x :: r => Some (fold_left join r x)
    end.

(** [pathlib.Path(p).as_posix()]: empty and [.] components are dropped,
    the root is kept. *)
Definition as_posix (p : string) : string :=
  let comps := List.filter (fun x => negb ((x =? "") || (x =? "."))) (split sep p) in
  let root :=
    if startswith sep p then
      if startswith sep (str_drop 1 p) && negb (startswith sep (str_drop 2 p))
      then "//" else "/"
    else "" in
  let r := root +:+ str_join "/" comps in
  if r =? "" then "." else r.

End OsPath.

Import OsPath.

(* ================================================================== *)
(** * Python values: classes, dicts, objects *)
(* ================================================================== *)

(** Identity of a [Path] object, and of a [dict] holding children. *)
Definition loc := nat.
Definition dref := nat.

Definition bytes := list Byte.byte.

(** The classes of [paths.py], [archive_paths.py] and [basic_file_paths.py]. *)
Inductive Class :=
  | Path | DirPath | FilePath | TextFile | BinaryFile | VirtualDirPath
  | ArchivePath | Py7zrArchivePath
  | ImageFile | GenericFile | TermuxGenericFile.

Definition Class_eqb (a b : Class) : bool :=
  match a, b with
  | Path, Path | DirPath, DirPath | FilePath, FilePath | TextFile, TextFile
  | BinaryFile, BinaryFile | VirtualDirPath, VirtualDirPath
  | ArchivePath, ArchivePath | Py7zrArchivePath, Py7zrArchivePath
  | ImageFile, ImageFile | GenericFile, GenericFile
  | TermuxGenericFile, TermuxGenericFile => true
  | _, _ => false
  end.

(** [isinstance(x, C)] along the inheritance chains
    [Path > DirPath > VirtualDirPath > ArchivePath > Py7zrArchivePath] and
    [Path > FilePath > TextFile | BinaryFile | ImageFile | ...]. *)
Definition isinstance_Py7zrArchivePath (c : Class) : bool :=
  match c with Py7zrArchivePath => true | _ => false end.
Definition isinstance_ArchivePath (c : Class) : bool :=
  match c with ArchivePath | Py7zrArchivePath => true | _ => false end.
Definition isinstance_VirtualDirPath (c : Class) : bool :=
  match c with VirtualDirPath | ArchivePath | Py7zrArchivePath => true | _ => false end.
Definition isinstance_DirPath (c : Class) : bool :=
  match c with
  | DirPath | VirtualDirPath | ArchivePath | Py7zrArchivePath => true
  | _ => false
  end.
Definition isinstance_FilePath (c : Class) : bool :=
  match c with
  | FilePath | TextFile | BinaryFile | ImageFile | GenericFile | TermuxGenericFile => true
  | _ => false
  end.

(** A Python [dict] with [str] keys: keys are unique and keep their
    insertion order. *)
Module Dict.
Section Dict.
Context {V : Type}.
Definition t := list (string * V).

Fixpoint get (k : string) (d : t) : option V :=
  match d with
  | [] => None
  | (k', v) :: r => if k =? k' then Some v else get k r
  end.

Definition mem (k : string) (d : t) : bool :=
  match get k d with Some _ => true | None => false end.

(** [d[k] = v] *)
Fixpoint set (k : string) (v : V) (d : t) : t :=
  match d with
  | [] => [(k, v)]
  | (k', v') :: r => if k =? k' then (k, v) :: r else (k', v') :: set k v r
  end.

(** [del d[k]]; [None] is the [KeyError]. *)
Fixpoint del (k : string) (d : t) : option t :=
  match d with
  | [] => None
  | (k', v') :: r =>
      if k =? k' then Some r
      else match del k r with
           | Some r' => Some ((k', v') :: r')
           | None => None
           end
  end.

Definition keys (d : t) : list string := map fst d.
Definition values (d : t) : list V := map snd d.
End Dict.
Arguments t : clear implicits.
End Dict.

(** An entry of [archive_file.header.files_info.files]: the two keys the
    browser reads.  [folder] is [None] for an entry without a data stream,
    which is how a directory is stored. *)
Record FileInfo := mkFileInfo {
  filename : string;
  folder : option nat;
}.

(** An opened [py7zr.SevenZipFile]: its file list, and the bytes
    [read([p])[p].read()] yields for each internal path [p]. *)
Record SevenZipFile := mkSevenZipFile {
  files : list FileInfo;
  contents : Dict.t bytes;
}.

(** What [v_open] hands back. *)
Inductive vfile :=
  | TempPath (p : string)     (* the name of a temporary file *)
  | BytesIO (b : bytes)
  | StringIO (text : string)
  | NoFile.                   (* [None], from the boilerplate [v_open] *)

(** An instance of one of the classes: its attributes.  Attributes that a
    class does not define keep the value given by [blank]. *)
Record PathObj := mkPathObj {
  class : Class;
  name : string;
  parent : option loc;
  backend : string;
  path_type : string;
  path : option string;
  context : bool;               (* [self.context] is the shared [[terminal]] list *)
  children : option dref;       (* [DirPath] and below *)
  is_anchor : bool;             (* [ArchivePath] and below *)
  anchor : option string;
  child_data : Dict.t bytes;
  archive_file : option SevenZipFile;   (* [Py7zrArchivePath] *)
}.

Definition blank (c : Class) : PathObj :=
  mkPathObj c "" None "" "" None false None false None [] None.

Definition with_name (v : string) (o : PathObj) : PathObj :=
  mkPathObj (class o) v (parent o) (backend o) (path_type o) (path o) (context o)
            (children o) (is_anchor o) (anchor o) (child_data o) (archive_file o).
Definition with_parent (v : option loc) (o : PathObj) : PathObj :=
  mkPathObj (class o) (name o) v (backend o) (path_type o) (path o) (context o)
            (children o) (is_anchor o) (anchor o) (child_data o) (archive_file o).
Definition with_backend (v : string) (o : PathObj) : PathObj :=
  mkPathObj (class o) (name o) (parent o) v (path_type o) (path o) (context o)
            (children o) (is_anchor o) (anchor o) (child_data o) (archive_file o).
Definition with_path_type (v : string) (o : PathObj) : PathObj :=
  mkPathObj (class o) (name o) (parent o) (backend o) v (path o) (context o)
            (children o) (is_anchor o) (anchor o) (child_data o) (archive_file o).
Definition with_path (v : option string) (o : PathObj) : PathObj :=
  mkPathObj (class o) (name o) (parent o) (backend o) (path_type o) v (context o)
            (children o) (is_anchor o) (anchor o) (child_data o) (archive_file o).
Definition with_context (v : bool) (o : PathObj) : PathObj :=
  mkPathObj (class o) (name o) (parent o) (backend o) (path_type o) (path o) v
            (children o) (is_anchor o) (anchor o) (child_data o) (archive_file o).
Definition with_children (v : option dref) (o : PathObj) : PathObj :=
  mkPathObj (class o) (name o) (parent o) (backend o) (path_type o) (path o) (context o)
            v (is_anchor o) (anchor o) (child_data o) (archive_file o).
Definition with_is_anchor (v : bool) (o : PathObj) : PathObj :=
  mkPathObj (class o) (name o) (parent o) (backend o) (path_type o) (path o) (context o)
            (children o) v (anchor o) (child_data o) (archive_file o).
Definition with_anchor (v : option string) (o : PathObj) : PathObj :=
  mkPathObj (class o) (name o) (parent o) (backend o) (path_type o) (path o) (context o)
            (children o) (is_anchor o) v (child_data o) (archive_file o).
Definition with_child_data (v : Dict.t bytes) (o : PathObj) : PathObj :=
  mkPathObj (class o) (name o) (parent o) (backend o) (path_type o) (path o) (context o)
            (children o) (is_anchor o) (anchor o) v (archive_file o).
Definition with_archive_file (v : option SevenZipFile) (o : PathObj) : PathObj :=
  mkPathObj (class o) (name o) (parent o) (backend o) (path_type o) (path o) (context o)
            (children o) (is_anchor o) (anchor o) (child_data o) v.

(* ================================================================== *)
(** * The world outside, the terminal, the store *)
(* ================================================================== *)

(** What [py7zr.SevenZipFile(file, ...)] is given, and how it ends. *)
Inductive source :=
  | FromPath (p : string)
  | FromStream (f : vfile).

Inductive open_result :=
  | Opened (h : SevenZipFile)
  | PasswordRequired            (* [py7zr.exceptions.PasswordRequired] *)
  | LZMAError                   (* [lzma.LZMAError]: the password was wrong *)
  | ArchiveError (msg : string) (* [py7zr.exceptions.ArchiveError] *).

(** The collaborators of the path tree: the working directory of the
    process, the archive decoder and the text codec. *)
Record World := mkWorld {
  cwd : string;
  SevenZipFile_open : source -> option string -> open_result;
  utf8_decode : bytes -> option string;
  mkstemp_name : nat -> string -> string;  (* the n-th temporary name, by suffix *)
}.

(** [Terminal]: the maps from a type tag to its class and extensions, the
    current directory and the temporary files queued for cleanup. *)
Record Terminal := mkTerminal {
  file_map : Dict.t (Class * list string);
  dir_map : Dict.t (Class * list string);
  current : loc;
  tempfiles : list string;
}.

(** What the user sees. *)
Inductive event :=
  | Printed (msg : string)                 (* [Terminal.error] *)
  | Prompted (prompt : string)             (* [Terminal.password] *)
  | Warned (category msg : string).        (* [warnings.warn] *)

Record state := mkState {
  world : World;
  heap : list PathObj;
  dicts : list (Dict.t loc);
  term : Terminal;
  stdin : list string;          (* what the user will type at the prompts *)
  stdout : list event;          (* most recent last *)
  tmpfs : Dict.t bytes;         (* the files made by [tempfile.mkstemp] *)
}.

Definition with_heap (v : list PathObj) (s : state) : state :=
  mkState (world s) v (dicts s) (term s) (stdin s) (stdout s) (tmpfs s).
Definition with_dicts (v : list (Dict.t loc)) (s : state) : state :=
  mkState (world s) (heap s) v (term s) (stdin s) (stdout s) (tmpfs s).
Definition with_term (v : Terminal) (s : state) : state :=
  mkState (world s) (heap s) (dicts s) v (stdin s) (stdout s) (tmpfs s).
Definition with_stdin (v : list string) (s : state) : state :=
  mkState (world s) (heap s) (dicts s) (term s) v (stdout s) (tmpfs s).
Definition with_stdout (v : list event) (s : state) : state :=
  mkState (world s) (heap s) (dicts s) (term s) (stdin s) v (tmpfs s).
Definition with_tmpfs (v : Dict.t bytes) (s : state) : state :=
  mkState (world s) (heap s) (dicts s) (term s) (stdin s) (stdout s) v.

(* ================================================================== *)
(** * Computations: state and exceptions *)
(* ================================================================== *)

Inductive exn :=
  | AttributeError
  | KeyError (key : string)
  | TypeError
  | IndexError
  | ValueError
  | EOFError
  | UnicodeDecodeError
  | RecursionError
  | PasswordRequiredExc         (* an uncaught [py7zr.exceptions.PasswordRequired] *)
  | LZMAErrorExc.               (* an uncaught [lzma.LZMAError] *)

Inductive result (A : Type) :=
  | Ok (a : A) (s : state)
  | Raise (e : exn) (s : state).
Arguments Ok {A} a s.
Arguments Raise {A} e s.

Definition M (A : Type) : Type := state -> result A.

Definition ret {A} (a : A) : M A := fun s => Ok a s.
Definition raise {A} (e : exn) : M A := fun s => Raise e s.
Definition bind {A B} (m : M A) (k : A -> M B) : M B :=
  fun s => match m s with
           | Ok a s' => k a s'
           | Raise e s' => Raise e s'
           end.
Definition gets {A} (f : state -> A) : M A := fun s => Ok (f s) s.
Definition modify (f : state -> state) : M unit := fun s => Ok tt (f s).

Declare Scope py_scope.
Delimit Scope py_scope with py.
Notation "x <- c ;; k" := (bind c (fun x => k))
  (at level 100, c at next level, right associativity) : py_scope.
Notation "c ;;; k" := (bind c (fun _ => k))
  (at level 100, right associativity) : py_scope.
Local Open Scope py_scope.

(** The state a computation ends in, whether it returned or raised. *)
Definition final {A} (r : result A) : state :=
  match r with Ok _ s => s | Raise _ s => s end.

(** [for x in l: body(x)] *)
Fixpoint for_each {A} (l : list A) (body : A -> M unit) : M unit :=
  match l with
  | [] => ret tt
  | x :: r => body x ;;; for_each r body
  end.

(** Reading and writing the attributes of the object at [l]. *)
Definition deref (l : loc) : M PathObj :=
  fun s => match heap s !! l with
           | Some o => Ok o s
           | None => Raise AttributeError s
           end.

Definition update (l : loc) (f : PathObj -> PathObj) : M unit :=
  o <- deref l ;;
  modify (fun s => with_heap (<[l := f o]> (heap s)) s).

(** Calling a method on what may be [None]. *)
Definition not_None {A} (x : option A) : M A :=
  match x with
  | Some a => ret a
  | None => raise AttributeError
  end.

(** A new instance, before [__init__] runs. *)
Definition new (c : Class) : M loc :=
  fun s => Ok (length (heap s)) (with_heap (heap s ++ [blank c]) s).

(** A new [dict]. *)
Definition new_dict (d : Dict.t loc) : M dref :=
  fun s => Ok (length (dicts s)) (with_dicts (dicts s ++ [d]) s).

Definition read_dict (r : dref) : M (Dict.t loc) :=
  fun s => match dicts s !! r with
           | Some d => Ok d s
           | None => Raise AttributeError s
           end.

Definition write_dict (r : dref) (d : Dict.t loc) : M unit :=
  modify (fun s => with_dicts (<[r := d]> (dicts s)) s).

(** [self.children], an [AttributeError] where the class has none. *)
Definition get_children_ref (self : loc) : M dref :=
  o <- deref self ;; not_None (children o).

Definition warn (category msg : string) : M unit :=
  modify (fun s => with_stdout (stdout s ++ [Warned category msg]) s).

(* ================================================================== *)
(** * [paths.py]: [Path] and [DirPath] *)
(* ================================================================== *)

(** Python gives up on a call chain deeper than [sys.getrecursionlimit()]. *)
Definition recursion_limit : nat := 1000.

Definition set_name (self : loc) (new_name : string) : M unit :=
  update self (with_name new_name).

Definition set_parent (self : loc) (new_parent : option loc) : M unit :=
  update self (with_parent new_parent).

(** [set_type] is overridden to do nothing in the fixed-type file classes. *)
Definition set_type (self : loc) (new_type : string) : M unit :=
  o <- deref self ;;
  match class o with
  | TextFile | BinaryFile | ImageFile => ret tt
  | _ => update self (with_path_type new_type)
  end.

Definition get_name (self : loc) : M string :=
  o <- deref self ;; ret (name o).

Definition get_parent (self : loc) : M (option loc) :=
  o <- deref self ;; ret (parent o).

Definition get_backend (self : loc) : M string :=
  o <- deref self ;; ret (backend o).

Definition get_type (self : loc) : M string :=
  o <- deref self ;; ret (path_type o).

(** [get_context] returns the terminal, [None] when the node has none. *)
Definition get_context (self : loc) : M bool :=
  o <- deref self ;; ret (context o).

Definition get_children (self : loc) : M dref :=
  get_children_ref self.

(** [DirPath.__getitem__] *)
Definition __getitem__ (self : loc) (key : string) : M (option loc) :=
  if key =? "." then ret (Some self)
  else if key =? ".." then get_parent self
  else
    r <- get_children_ref self ;;
    d <- read_dict r ;;
    match Dict.get key d with
    | Some v => ret (Some v)
    | None => raise (KeyError key)
    end.

(** [list(self.values())[0]]: the mapping's first key, looked up through
    [__getitem__]. *)
Definition first_value (self : loc) : M (option loc) :=
  r <- get_children_ref self ;;
  d <- read_dict r ;;
  match Dict.keys d with
  | [] => raise IndexError
  | k :: _ => __getitem__ self k
  end.

(** [Path.get_path]; [get_path] is the method as dispatched on the parent. *)
Definition Path_get_path (get_path : loc -> M string) (self : loc) : M string :=
  o <- deref self ;;
  match path o with
  | Some p => ret p
  | None =>
      match parent o with
      | None =>
          if backend o =? "fs" then
            w <- gets world ;; ret (abspath (cwd w) (name o))
          else
            warn "UnexpectedSituationWarning"
                 "get_path() was called on a non-filesystem backed Path with no parent" ;;;
            ret (name o)
      | Some p =>
          pp <- get_path p ;; ret (join pp (name o))
      end
  end.

(** [DirPath.get_path] *)
Definition DirPath_get_path (get_path : loc -> M string) (self : loc) : M string :=
  o <- deref self ;;
  match path o with
  | Some p => ret p
  | None =>
      match parent o with
      | None =>
          r <- not_None (children o) ;;
          d <- read_dict r ;;
          match d with
          | [] => w <- gets world ;; ret (abspath (cwd w) (name o))
          | _ :: _ =>
              v <- first_value self ;;
              c <- not_None v ;;
              cp <- get_path c ;;
              ret (dirname cp)
          end
      | Some p =>
          pp <- get_path p ;; ret (join pp (name o))
      end
  end.

(** [x.get_path()], dispatched on the class of [x]. *)
Fixpoint get_path_rec (fuel : nat) (self : loc) : M string :=
  match fuel with
  | 0 => raise RecursionError
  | S fuel' =>
      o <- deref self ;;
      if isinstance_DirPath (class o)
      then DirPath_get_path (get_path_rec fuel') self
      else Path_get_path (get_path_rec fuel') self
  end.

Definition get_path : loc -> M string := get_path_rec recursion_limit.

(** [Path.set_context] and [DirPath.set_context]; the argument is [true]
    for the terminal's list and [false] for [None]. *)
Definition Path_set_context (self : loc) (ctx : bool) : M unit :=
  o <- deref self ;;
  if negb ctx && negb (context o) then
    match parent o with
    | Some p => po <- deref p ;; update self (with_context (context po))
    | None => ret tt
    end
  else if negb (context o) then update self (with_context ctx)
  else if ctx then ret tt
  else raise TypeError.

Definition DirPath_set_context (self : loc) (ctx : bool) : M unit :=
  o <- deref self ;;
  if negb ctx && negb (context o) then
    match parent o with
    | Some p => po <- deref p ;; update self (with_context (context po))
    | None =>
        r <- not_None (children o) ;;
        d <- read_dict r ;;
        match d with
        | [] => ret tt
        | _ :: _ =>
            v <- first_value self ;;
            c <- not_None v ;;
            co <- deref c ;;
            update self (with_context (context co))
        end
    end
  else if negb (context o) then update self (with_context ctx)
  else if ctx then ret tt
  else raise TypeError.

Definition set_context (self : loc) (ctx : bool) : M unit :=
  o <- deref self ;;
  if isinstance_DirPath (class o)
  then DirPath_set_context self ctx
  else Path_set_context self ctx.

(** [Path.__init__] *)
Definition Path_init (self : loc) (name0 : string) (parent0 : option loc)
    (backend0 path_type0 : string) (context0 : bool) : M unit :=
  update self (with_name (basename name0)) ;;;
  update self (with_parent parent0) ;;;
  update self (with_backend backend0) ;;;
  update self (with_path_type path_type0) ;;;
  w <- gets world ;;
  update self (fun o =>
    with_path (if name o =? name0 then None else Some (abspath (cwd w) name0)) o) ;;;
  p <- get_path self ;;
  update self (with_path (Some p)) ;;;
  update self (with_context context0) ;;;
  set_context self context0.

(** The [children] argument of [DirPath.__init__]. *)
Inductive children_arg :=
  | ChildrenNone
  | ChildrenList (items : list loc)
  | ChildrenDict (d : dref)
  | ChildrenPath (child : loc).

(** [DirPath.__init__] *)
Definition DirPath_init (self : loc) (name0 : string) (parent0 : option loc)
    (backend0 path_type0 : string) (children0 : children_arg) (context0 : bool)
  : M unit :=
  match children0 with
  | ChildrenNone =>
      r <- new_dict [] ;; update self (with_children (Some r))
  | ChildrenList items =>
      r <- new_dict [] ;;
      update self (with_children (Some r)) ;;;
      for_each items (fun item =>
        n <- get_name item ;;
        d <- read_dict r ;;
        write_dict r (Dict.set n item d))
  | ChildrenDict r =>
      update self (with_children (Some r))
  | ChildrenPath child =>
      n <- get_name child ;;
      r <- new_dict [(n, child)] ;;
      update self (with_children (Some r))
  end ;;;
  Path_init self name0 parent0 backend0 path_type0 context0 ;;;
  o <- deref self ;;
  r <- not_None (children o) ;;
  d <- read_dict r ;;
  if (name o =? "..") && negb (match d with [] => true | _ => false end) then
    p <- get_path self ;;
    update self (with_name (basename p))
  else ret tt.

(** [Path.absorb]: note the right-hand side of the [backend] line. *)
Definition Path_absorb (self other : loc) : M unit :=
  n <- get_name other ;;
  update self (with_name n) ;;;
  p <- get_parent other ;;
  update self (with_parent p) ;;;
  b <- get_path other ;;
  update self (with_backend b) ;;;
  t <- get_type other ;;
  update self (with_path_type t).

(** [DirPath.absorb] *)
Definition DirPath_absorb (self other : loc) : M unit :=
  Path_absorb self other ;;;
  c <- get_children other ;;
  update self (with_children (Some c)).

(** [DirPath.__setitem__] *)
Definition __setitem__ (self : loc) (key : string) (value : loc) : M unit :=
  if key =? "." then DirPath_absorb self value
  else if key =? ".." then set_parent self (Some value)
  else
    r <- get_children_ref self ;;
    d <- read_dict r ;;
    write_dict r (Dict.set key value d).

(** [DirPath.__delitem__] *)
Definition __delitem__ (self : loc) (key : string) : M unit :=
  r <- get_children_ref self ;;
  d <- read_dict r ;;
  match Dict.del key d with
  | Some d' => write_dict r d'
  | None => raise (KeyError key)
  end.

(** [DirPath.__iter__], as the list of keys it yields. *)
Definition __iter__ (self : loc) : M (list string) :=
  r <- get_children_ref self ;;
  d <- read_dict r ;;
  ret (Dict.keys d).

(** [DirPath.__len__] *)
Definition __len__ (self : loc) : M nat :=
  r <- get_children_ref self ;;
  d <- read_dict r ;;
  ret (length d).

(** [DirPath.__contains__] *)
Definition __contains__ (self : loc) (item : string) : M bool :=
  r <- get_children_ref self ;;
  d <- read_dict r ;;
  ret (Dict.mem item d).

(** [DirPath.all]: a copy of the children with [.] and [..] added. *)
Definition all (self : loc) : M (Dict.t (option loc)) :=
  r <- get_children_ref self ;;
  d <- read_dict r ;;
  p <- get_parent self ;;
  ret (Dict.set ".." p
         (Dict.set "." (Some self) (map (fun kv => (fst kv, Some (snd kv))) d))).

(** [VirtualDirPath.__init__] *)
Definition VirtualDirPath_init (self : loc) (name0 : string) (parent0 : option loc)
    (backend0 path_type0 : string) : M unit :=
  r <- new_dict [] ;;
  update self (with_children (Some r)) ;;;
  Path_init self name0 parent0 backend0 path_type0 false.

(* ================================================================== *)
(** * [nbrowser.py]: what the nodes ask of their [Terminal] *)
(* ================================================================== *)

(** Calling a method of [self.get_context()]: an [AttributeError] on a node
    that has no context. *)
Definition with_terminal (self : loc) : M unit :=
  c <- get_context self ;;
  if c then ret tt else raise AttributeError.

(** [Terminal.error] *)
Definition error (message : string) : M unit :=
  modify (fun s => with_stdout (stdout s ++ [Printed message]) s).

(** [Terminal.password]: shows the prompt and reads one line. *)
Definition password (prompt : string) : M string :=
  modify (fun s => with_stdout (stdout s ++ [Prompted prompt]) s) ;;;
  input <- gets stdin ;;
  match input with
  | [] => raise EOFError
  | line :: rest => modify (with_stdin rest) ;;; ret line
  end.

(** [Terminal.add_tempfile] *)
Definition add_tempfile (file : string) : M unit :=
  modify (fun s =>
    with_term (mkTerminal (file_map (term s)) (dir_map (term s)) (current (term s))
                          (tempfiles (term s) ++ [file])) s).

(** [Terminal.get_path_type]: the last type of the map that lists the
    extension wins. *)
Definition get_path_type (path0 : string) (is_dir : bool)
    (default_type default_dir_type : string) : M string :=
  t <- gets term ;;
  let mapping := if is_dir then dir_map t else file_map t in
  let ext := snd (splitext path0) in
  ret (fold_left
         (fun path_type cand =>
            if existsb (String.eqb ext) (snd (snd cand)) then fst cand else path_type)
         mapping
         (if is_dir then default_dir_type else default_type)).

(* ================================================================== *)
(** * [archive_paths.py] *)
(* ================================================================== *)

(** [ArchivePath.get_is_anchor] *)
Definition get_is_anchor (self : loc) : M bool :=
  o <- deref self ;;
  if isinstance_ArchivePath (class o) then ret (is_anchor o)
  else raise AttributeError.

(** [ArchivePath.set_is_anchor], [ArchivePath.set_anchor] *)
Definition set_is_anchor (self : loc) (v : bool) : M unit :=
  update self (with_is_anchor v).

Definition set_anchor (self : loc) (v : string) : M unit :=
  update self (with_anchor (Some v)).

(** [ArchivePath.get_anchor] *)
Fixpoint get_anchor_rec (fuel : nat) (self : loc) : M string :=
  match fuel with
  | 0 => raise RecursionError
  | S fuel' =>
      o <- deref self ;;
      if negb (isinstance_ArchivePath (class o)) then raise AttributeError
      else
        match anchor o with
        | Some a => ret a
        | None =>
            a <- get_is_anchor self ;;
            if a then get_path self
            else
              p <- get_parent self ;;
              p' <- not_None p ;;
              get_anchor_rec fuel' p'
        end
  end.

Definition get_anchor : loc -> M string := get_anchor_rec recursion_limit.

(** [archive_file.read([p])[p].read()]; a [KeyError] when [p] is no entry. *)
Definition SevenZipFile_read (h : SevenZipFile) (p : string) : M bytes :=
  match Dict.get p (contents h) with
  | Some b => ret b
  | None => raise (KeyError p)
  end.

(** [Py7zrArchivePath.v_open] *)
Definition Py7zrArchivePath_v_open (self : loc) (path0 : string) (temp text : bool)
  : M vfile :=
  o <- deref self ;;
  (if negb (Dict.mem path0 (child_data o)) then
     sp <- get_path self ;;
     a <- get_anchor self ;;
     w <- gets world ;;
     rel <- match relpath (cwd w) (join sp path0) a with
            | Some r => ret r
            | None => raise ValueError
            end ;;
     let extract_path := as_posix rel in
     h <- not_None (archive_file o) ;;
     data <- SevenZipFile_read h extract_path ;;
     update self (fun o' => with_child_data (Dict.set path0 data (child_data o')) o')
     (* [self.archive_file.reset()]: the handle of the model keeps no cursor *)
   else ret tt) ;;;
  o <- deref self ;;
  data <- match Dict.get path0 (child_data o) with
          | Some d => ret d
          | None => raise (KeyError path0)
          end ;;
  if temp then
    w <- gets world ;;
    fs <- gets tmpfs ;;
    let file := mkstemp_name w (length fs) (snd (splitext path0)) in
    modify (with_tmpfs (Dict.set file [] fs)) ;;;
    with_terminal self ;;;
    add_tempfile file ;;;
    modify (fun s => with_tmpfs (Dict.set file data (tmpfs s)) s) ;;;
    ret (TempPath file)
  else if text then
    w <- gets world ;;
    match utf8_decode w data with
    | Some t => ret (StringIO t)
    | None => raise UnicodeDecodeError
    end
  else ret (BytesIO data).

(** [x.v_open(...)], dispatched on the class of [x]: the boilerplate of
    [VirtualDirPath] returns [None]. *)
Definition v_open (self : loc) (path0 : string) (temp text : bool) : M vfile :=
  o <- deref self ;;
  if isinstance_Py7zrArchivePath (class o) then Py7zrArchivePath_v_open self path0 temp text
  else if isinstance_VirtualDirPath (class o) then ret NoFile
  else raise AttributeError.

(** The [for i in range(3)] loop of [get_archive_file], [n] rounds left. *)
Fixpoint password_rounds (n : nat) (self : loc) (file : source)
  : M (option SevenZipFile) :=
  match n with
  | 0 => ret None
  | S n' =>
      with_terminal self ;;;
      nm <- get_name self ;;
      pw <- password (nm +:+ " requires a password: ") ;;
      w <- gets world ;;
      match SevenZipFile_open w file (Some pw) with
      | Opened h => ret (Some h)
      | LZMAError =>
          with_terminal self ;;;
          error "Incorrect password." ;;;
          password_rounds n' self file
      | PasswordRequired => raise PasswordRequiredExc
      | ArchiveError msg =>
          with_terminal self ;;;
          error ("Decompression error: " +:+ msg) ;;;
          ret None
      end
  end.

(** [Py7zrArchivePath.get_archive_file]; [None] is Python's [None]. *)
Fixpoint get_archive_file_rec (fuel : nat) (self : loc) : M (option SevenZipFile) :=
  match fuel with
  | 0 => raise RecursionError
  | S fuel' =>
      o <- deref self ;;
      if negb (isinstance_Py7zrArchivePath (class o)) then raise AttributeError
      else
        match archive_file o with
        | Some h => ret (Some h)
        | None =>
            a <- get_is_anchor self ;;
            if negb a then
              p <- not_None (parent o) ;;
              get_archive_file_rec fuel' p
            else
              p <- get_parent self ;;
              p' <- not_None p ;;
              b <- get_backend p' ;;
              file <- (if b =? "fs" then
                         sp <- get_path self ;; ret (FromPath sp)
                       else
                         nm <- get_name self ;;
                         f <- v_open p' nm false false ;; ret (FromStream f)) ;;
              w <- gets world ;;
              match SevenZipFile_open w file None with
              | Opened h => ret (Some h)
              | PasswordRequired => password_rounds 3 self file
              | LZMAError => raise LZMAErrorExc
              | ArchiveError msg =>
                  with_terminal self ;;;
                  error ("Decompression error: " +:+ msg) ;;;
                  ret None
              end
        end
  end.

Definition get_archive_file : loc -> M (option SevenZipFile) :=
  get_archive_file_rec recursion_limit.

(** [ArchivePath.__init__] *)
Definition ArchivePath_init (self : loc) (name0 : string) (parent0 : option loc)
    (path_type0 : string) (is_anchor0 : bool) : M unit :=
  VirtualDirPath_init self name0 parent0 "py7zr" path_type0 ;;;
  update self (with_is_anchor is_anchor0) ;;;
  (if is_anchor0 then
     p <- get_path self ;; update self (with_anchor (Some p))
   else update self (with_anchor None)) ;;;
  a <- get_anchor self ;;
  update self (with_anchor (Some a)) ;;;
  update self (with_child_data []).

(** [Py7zrArchivePath.__init__] *)
Definition Py7zrArchivePath_init (self : loc) (name0 : string) (parent0 : option loc)
    (path_type0 : string) (is_anchor0 : bool) : M unit :=
  ArchivePath_init self name0 parent0 path_type0 is_anchor0 ;;;
  update self (with_archive_file None).

(* ================================================================== *)
(** * Instantiating a class from the terminal's maps *)
(* ================================================================== *)

(** The keyword arguments [Terminal.add_path] passes to a class:
    [parent] and [children] are [None] when the call does not pass them,
    [is_anchor] comes from [init_kwargs]. *)
Record kwargs := mkKwargs {
  kw_name : string;
  kw_parent : option loc;
  kw_backend : string;
  kw_path_type : string;
  kw_children : option loc;
  kw_is_anchor : option bool;
}.

(** [cls(name=..., ...)]: a [TypeError] where the class's [__init__] does
    not take a keyword that is passed, or misses a required one. *)
Definition construct (c : Class) (kw : kwargs) : M loc :=
  let no_children := match kw_children kw with None => true | Some _ => false end in
  let no_is_anchor := match kw_is_anchor kw with None => true | Some _ => false end in
  let has_parent := match kw_parent kw with None => false | Some _ => true end in
  match c with
  | DirPath =>
      if no_is_anchor then
        self <- new c ;;
        DirPath_init self (kw_name kw) (kw_parent kw) (kw_backend kw) (kw_path_type kw)
          (match kw_children kw with
           | Some ch => ChildrenPath ch
           | None => ChildrenNone
           end) false ;;;
        ret self
      else raise TypeError
  | Path | FilePath | GenericFile | TermuxGenericFile =>
      if no_is_anchor && no_children then
        self <- new c ;;
        Path_init self (kw_name kw) (kw_parent kw) (kw_backend kw) (kw_path_type kw) false ;;;
        ret self
      else raise TypeError
  | TextFile =>
      if no_is_anchor && no_children then
        self <- new c ;;
        Path_init self (kw_name kw) (kw_parent kw) (kw_backend kw) "text" false ;;;
        ret self
      else raise TypeError
  | BinaryFile =>
      if no_is_anchor && no_children then
        self <- new c ;;
        Path_init self (kw_name kw) (kw_parent kw) (kw_backend kw) "binary" false ;;;
        ret self
      else raise TypeError
  | ImageFile =>
      if no_is_anchor && no_children then
        self <- new c ;;
        Path_init self (kw_name kw) (kw_parent kw) (kw_backend kw) "image" false ;;;
        ret self
      else raise TypeError
  | VirtualDirPath =>
      if no_is_anchor && no_children && has_parent then
        self <- new c ;;
        VirtualDirPath_init self (kw_name kw) (kw_parent kw) (kw_backend kw)
                            (kw_path_type kw) ;;;
        ret self
      else raise TypeError
  | ArchivePath =>
      if no_children && has_parent then
        self <- new c ;;
        ArchivePath_init self (kw_name kw) (kw_parent kw) (kw_path_type kw)
          (match kw_is_anchor kw with Some b => b | None => true end) ;;;
        ret self
      else raise TypeError
  | Py7zrArchivePath =>
      if no_children && has_parent then
        self <- new c ;;
        Py7zrArchivePath_init self (kw_name kw) (kw_parent kw) (kw_path_type kw)
          (match kw_is_anchor kw with Some b => b | None => true end) ;;;
        ret self
      else raise TypeError
  end.

(** [mapping[path_type][0]] *)
Definition mapped_class (mapping : Dict.t (Class * list string)) (path_type0 : string)
  : M Class :=
  match Dict.get path_type0 mapping with
  | Some entry => ret (fst entry)
  | None => raise (KeyError path_type0)
  end.

(** [Terminal.add_path] *)
Definition add_path (name0 : string) (is_dir : bool) (path_type0 : option string)
    (default_type default_dir_type : string) (as_parent : bool) (backend0 : string)
    (dest0 : option loc) (init_kwargs : option bool) : M unit :=
  t <- gets term ;;
  let dest := match dest0 with Some d => d | None => current t end in
  pt <- match path_type0 with
        | Some p => ret p
        | None => get_path_type name0 is_dir default_type default_dir_type
        end ;;
  let mapping := if is_dir then dir_map t else file_map t in
  if as_parent && (backend0 =? "fs") then
    c <- mapped_class mapping pt ;;
    v <- construct c (mkKwargs name0 None backend0 pt (Some dest) init_kwargs) ;;
    __setitem__ dest ".." v
  else if as_parent then
    warn "UnsupportedOperationWarning"
         "Adding parent paths outside of the filesystem is unsupported at this time."
  else if backend0 =? "fs" then
    c <- mapped_class mapping pt ;;
    v <- construct c (mkKwargs name0 (Some dest) backend0 pt None init_kwargs) ;;
    __setitem__ dest (basename name0) v
  else
    c <- mapped_class mapping pt ;;
    v <- construct c (mkKwargs (basename name0) (Some dest) backend0 pt None init_kwargs) ;;
    __setitem__ dest (basename name0) v.

(** [Py7zrArchivePath.filter_children]: the loop, with [to_return] so far. *)
Fixpoint filter_children_loop (self : loc) (files0 : list FileInfo)
    (to_return : Dict.t FileInfo) : M (Dict.t FileInfo) :=
  match files0 with
  | [] => ret to_return
  | file :: rest =>
      sp <- get_path self ;;
      a <- get_anchor self ;;
      if normpath sp =? normpath (dirname (join a (filename file))) then
        r <- get_children_ref self ;;
        d <- read_dict r ;;
        if negb (Dict.mem (basename (filename file)) d)
        then filter_children_loop self rest
               (Dict.set (basename (filename file)) file to_return)
        else filter_children_loop self rest to_return
      else filter_children_loop self rest to_return
  end.

Definition filter_children (self : loc) (files0 : list FileInfo) : M (Dict.t FileInfo) :=
  filter_children_loop self files0 [].

(** The body of the [for item in child_info] loop of [find_children]. *)
Definition register_child (self : loc) (child_info : Dict.t FileInfo) (item : string)
  : M unit :=
  match Dict.get item child_info with
  | None => raise (KeyError item)
  | Some info =>
      match folder info with
      | None =>
          with_terminal self ;;;
          add_path item true (Some "7z") "text" "dir" false "py7zr" (Some self) (Some false)
      | Some _ =>
          with_terminal self ;;;
          add_path item false None "text" "dir" false "py7zr" (Some self) None
      end
  end.

(** [Py7zrArchivePath.find_children] *)
Definition find_children (self : loc) : M unit :=
  o <- deref self ;;
  match archive_file o with
  | None =>
      h <- get_archive_file self ;;
      update self (with_archive_file h)
  | Some _ => ret tt
  end ;;;
  o <- deref self ;;
  match archive_file o with
  | Some h =>
      child_info <- filter_children self (files h) ;;
      for_each (Dict.keys child_info) (register_child self child_info)
  | None => ret tt
  end.

(** [Mapping.get]: [self[key]], with [None] for a [KeyError]. *)
Definition get (self : loc) (key : string) : M (option loc) :=
  fun s => match __getitem__ self key s with
           | Raise (KeyError _) s' => Ok None s'
           | r => r
           end.

Arguments get_path_rec : simpl never.
Arguments get_path : simpl never.
Arguments get_anchor_rec : simpl never.
Arguments get_anchor : simpl never.
Arguments get_archive_file_rec : simpl never.
Arguments get_archive_file : simpl never.

(* ================================================================== *)
(** * A session to run the code on *)
(* ================================================================== *)

(** The maps [nbrowser.py] starts its [Terminal] with: the defaults of
    [Terminal.__init__] updated by [extra_file_types], [extra_dir_types]. *)
Definition main_file_map : Dict.t (Class * list string) :=
  [("text", (TextFile, [".txt"]));
   ("binary", (BinaryFile, [".bin"]));
   ("image", (ImageFile, [".jpg"; ".png"; ".bmp"; ".webp"]));
   ("pdf", (GenericFile, [".pdf"]));
   ("video", (GenericFile, [".mp4"; ".mkv"; ".webm"; ".gif"]));
   ("generic", (GenericFile, []));
   ("7z", (Py7zrArchivePath, [".7z"]))].

Definition main_dir_map : Dict.t (Class * list string) :=
  [("dir", (DirPath, [""]));
   ("7z", (Py7zrArchivePath, [".7z"]))].

Definition main_terminal : Terminal := mkTerminal main_file_map main_dir_map 0 [].

(** A world with one archive on disk, at [where_], guarded by [pw] when
    there is one. *)
Definition disk (where_ : string) (pw : option string) (h : SevenZipFile)
  : source -> option string -> open_result :=
  fun src given =>
    match src with
    | FromPath p =>
        if p =? where_ then
          match pw, given with
          | None, _ => Opened h
          | Some _, None => PasswordRequired
          | Some secret, Some g => if g =? secret then Opened h else LZMAError
          end
        else ArchiveError "not a 7z file"
    | FromStream _ => ArchiveError "not a 7z file"
    end.

Definition ex_world (where_ : string) (pw : option string) (h : SevenZipFile) : World :=
  mkWorld "/" (disk where_ pw h)
          (fun b => Some (string_of_list_byte b))
          (fun n suffix => "/tmp/tmp" +:+ str_repeat "_"%char n +:+ suffix).

(** The session right after the interpreter starts: no object yet. *)
Definition fresh (w : World) (input : list string) : state :=
  mkState w [] [] main_terminal input [] [].

(** [paths.DirPath(name=..., context=[self])], the start node. *)
Definition start_node (name0 : string) : M loc :=
  self <- new DirPath ;;
  DirPath_init self name0 None "fs" "dir" ChildrenNone true ;;;
  ret self.

(** The state a computation ends in when run from [s]. *)
Definition after {A} (m : M A) (s : state) : state := final (m s).

(** The names under which a directory holds children. *)
Definition child_names (s : state) (d : loc) : list string :=
  match heap s !! d with
  | Some o =>
      match children o with
      | Some r => match dicts s !! r with Some dd => Dict.keys dd | None => [] end
      | None => []
      end
  | None => []
  end.

(** The class of the child registered under [k]. *)
Definition child_class (s : state) (d : loc) (k : string) : option Class :=
  o ← heap s !! d;
  r ← children o;
  dd ← dicts s !! r;
  c ← Dict.get k dd;
  co ← heap s !! c;
  Some (class co).

(* ================================================================== *)
(** * Notions used in the statements *)
(* ================================================================== *)

(** Replacing the object at [l]. *)
Definition set_obj (l : loc) (o : PathObj) (s : state) : state :=
  with_heap (<[l := o]> (heap s)) s.

(** A relation between the state before and the state a computation ends
    in, whether it returns or raises. *)
Definition keeps {A} (R : state -> state -> Prop) (m : M A) : Prop :=
  forall s, R s (final (m s)).

(** Nothing but the terminal's output differs. *)
Definition only_stdout (s s' : state) : Prop :=
  s' = with_stdout (stdout s') s.

(** The children dicts are what they were. *)
Definition same_dicts (s s' : state) : Prop := dicts s' = dicts s.

(** No dict of the store has [.] or [..] among its keys. *)
Definition no_reserved_keys (s : state) : Prop :=
  forall r d, dicts s !! r = Some d ->
    Dict.mem "." d = false /\ Dict.mem ".." d = false.

(** A sequence of [D[key] = value] statements, each run whether or not the
    one before raised. *)
Fixpoint run_setitems (ops : list (loc * string * loc)) (s : state) : state :=
  match ops with
  | [] => s
  | (D, key, value) :: rest => run_setitems rest (after (__setitem__ D key value) s)
  end.

(** Every path that is cached stays cached, with the same value. *)
Definition paths_cached (s s' : state) : Prop :=
  forall l o p, heap s !! l = Some o -> path o = Some p ->
    exists o', heap s' !! l = Some o' /\ path o' = Some p.

(** [x.set_name(n)], [x.set_parent(p)], [x.set_type(t)] and
    [D[key] = value], called from outside. *)
Inductive mutation :=
  | SetName (l : loc) (n : string)
  | SetParent (l : loc) (p : option loc)
  | SetType (l : loc) (t : string)
  | SetItem (D : loc) (key : string) (value : loc).

Definition mutate (m : mutation) : M unit :=
  match m with
  | SetName l n => set_name l n
  | SetParent l p => set_parent l p
  | SetType l t => set_type l t
  | SetItem D key value => __setitem__ D key value
  end.

Fixpoint run_mutations (ms : list mutation) (s : state) : state :=
  match ms with
  | [] => s
  | m :: rest => run_mutations rest (after (mutate m) s)
  end.

(** Nothing differs but the output, which got warnings appended. *)
Definition is_warning (e : event) : Prop :=
  match e with Warned _ _ => True | _ => False end.

Definition only_warns (s s' : state) : Prop :=
  exists ws, s' = with_stdout (stdout s ++ ws) s /\ Forall is_warning ws.




(** The state after [v_open] made the temporary file [file] with [data]. *)
Definition with_tempfile (file : string) (data : bytes) (s : state) : state :=
  with_tmpfs (Dict.set file data (Dict.set file [] (tmpfs s)))
    (with_term (mkTerminal (file_map (term s)) (dir_map (term s)) (current (term s))
                           (tempfiles (term s) ++ [file])) s).

(** Whether [filter_children], on a node with path [p] and anchor [a] whose
    children dict is [d], keeps the entry [f]. *)
Definition belongs (p a : string) (d : Dict.t loc) (f : FileInfo) : bool :=
  (normpath p =? normpath (dirname (join a (filename f))))
  && negb (Dict.mem (basename (filename f)) d).

(** One step of the loop of [get_path_type]. *)
Definition pick_type (ext : string) (path_type : string)
    (cand : string * (Class * list string)) : string :=
  if existsb (String.eqb ext) (snd (snd cand)) then fst cand else path_type.

(* ================================================================== *)
(** * States used as examples *)
(* ================================================================== *)

(** A directory whose children dict itself has entries named [.] and [..]. *)
Definition shadowed : state :=
  mkState (ex_world "" None (mkSevenZipFile [] []))
          [mkPathObj DirPath "d" (Some 1) "fs" "dir" (Some "/d") true (Some 0)
                     false None [] None;
           mkPathObj DirPath "" None "fs" "dir" (Some "/") true (Some 1)
                     false None [] None;
           mkPathObj TextFile "x" (Some 0) "fs" "text" (Some "/d/x") true None
                     false None [] None]
          [[(".", 2); ("..", 2)]; [("d", 0)]]
          main_terminal [] [] [].

(** A world whose disk holds no archive. *)
Definition bare_world : World := ex_world "" None (mkSevenZipFile [] []).

(** [D = DirPath('a'); x = DirPath('b'); D['.'] = x] *)
Definition absorb_example : M (loc * loc) :=
  D <- construct DirPath (mkKwargs "a" None "fs" "dir" None None) ;;
  x <- construct DirPath (mkKwargs "b" None "fs" "dir" None None) ;;
  __setitem__ D "." x ;;;
  ret (D, x).

(** A node with no cached path, no parent, no children and the backend
    [py7zr], of class [DirPath] and of class [TextFile]. *)
Definition orphan (c : Class) : state :=
  mkState bare_world
          [mkPathObj c "x" None "py7zr" "dir" None true
                     (if isinstance_DirPath c then Some 0 else None)
                     false None [] None]
          [[]] main_terminal [] [] [].

(** Two directories, the first holding the second under the name [a]. *)
Definition plain : state :=
  mkState bare_world
          [mkPathObj DirPath "" None "fs" "dir" (Some "/") true (Some 0)
                     false None [] None;
           mkPathObj DirPath "a" (Some 0) "fs" "dir" (Some "/a") true (Some 1)
                     false None [] None]
          [[("a", 1)]; []] main_terminal [] [] [].

(** [d0['.'] = d1; d0['..'] = d1; d0['x'] = d1; d1['.'] = d0; d1['..'] = d0] *)
Definition reserved_ops : list (loc * string * loc) :=
  [(0, ".", 1); (0, "..", 1); (0, "x", 1); (1, ".", 0); (1, "..", 0)].

(** A directory [/data] holding the archive [archive.7z], which lists the
    folder [docs] and the file [docs/notes.txt] and is guarded by the
    password [sesame]; the user will type what [input] says. *)
Definition notes_bytes : bytes := list_byte_of_string "hello".

Definition vault_archive : SevenZipFile :=
  mkSevenZipFile [mkFileInfo "docs" None; mkFileInfo "docs/notes.txt" (Some 0)]
                 [("docs/notes.txt", notes_bytes)].

Definition vault (pw : option string) (input : list string) : state :=
  mkState (ex_world "/data/archive.7z" pw vault_archive)
          [mkPathObj DirPath "data" None "fs" "dir" (Some "/data") true (Some 0)
                     false None [] None;
           mkPathObj Py7zrArchivePath "archive.7z" (Some 0) "py7zr" "7z"
                     (Some "/data/archive.7z") true (Some 1)
                     true (Some "/data/archive.7z") [] None]
          [[("archive.7z", 1)]; []] main_terminal input [] [].

(** The same session once the user has entered the (unprotected) archive:
    the anchor holds the handle and lists the folder [docs]. *)
Definition inside_vault : state :=
  mkState (ex_world "/data/archive.7z" None vault_archive)
          [mkPathObj DirPath "data" None "fs" "dir" (Some "/data") true (Some 0)
                     false None [] None;
           mkPathObj Py7zrArchivePath "archive.7z" (Some 0) "py7zr" "7z"
                     (Some "/data/archive.7z") true (Some 1)
                     true (Some "/data/archive.7z") [] (Some vault_archive);
           mkPathObj Py7zrArchivePath "docs" (Some 1) "py7zr" "7z"
                     (Some "/data/archive.7z/docs") true (Some 2)
                     false (Some "/data/archive.7z") [] None]
          [[("archive.7z", 1)]; [("docs", 2)]; []] main_terminal [] [] [].

(* ================================================================== *)
(** * Building a tree *)
(* ================================================================== *)

(** What a program does to build its tree: [cls(name=..., ...)],
    [D[key] = v], [del D[key]], [x.set_name(n)] and [x.set_type(t)]. *)
Inductive build_step :=
  | Create (c : Class) (kw : kwargs)
  | Attach (D : loc) (key : string) (v : loc)
  | Detach (D : loc) (key : string)
  | Rename (l : loc) (n : string)
  | Retype (l : loc) (t : string).

Definition do_step (st : build_step) : M unit :=
  match st with
  | Create c kw => construct c kw ;;; ret tt
  | Attach D key v => __setitem__ D key v
  | Detach D key => __delitem__ D key
  | Rename l n => set_name l n
  | Retype l t => set_type l t
  end.

(** A step that stores under a name, not under [.] or [..]. *)
Definition regular_step (st : build_step) : bool :=
  match st with
  | Attach _ key _ => negb (key =? ".") && negb (key =? "..")
  | _ => true
  end.

(** The nearest node at or above [l] that is an anchor, following at most
    [fuel] parent links through archive nodes. *)
Fixpoint nearest_anchor (fuel : nat) (h : list PathObj) (l : loc) : option loc :=
  match fuel with
  | 0 => None
  | S fuel' =>
      match h !! l with
      | Some o =>
          if negb (isinstance_ArchivePath (class o)) then None
          else if is_anchor o then Some l
          else match parent o with
               | Some p => nearest_anchor fuel' h p
               | None => None
               end
      | None => None
      end
  end.

(** Every archive node has its anchor cached: an anchor its own cached
    path, any other node what its parent, an older archive node, has
    cached. *)
Definition anchored (s : state) : Prop :=
  forall l o, heap s !! l = Some o -> isinstance_ArchivePath (class o) = true ->
    exists a, anchor o = Some a /\
      if is_anchor o then path o = Some a
      else exists pl po, parent o = Some pl /\ pl < l /\ heap s !! pl = Some po /\
             isinstance_ArchivePath (class po) = true /\ anchor po = Some a.

(** The attributes [anchored] reads are what they were. *)
Definition same_anchoring (s s' : state) : Prop :=
  length (heap s') = length (heap s) /\
  forall l o, heap s !! l = Some o ->
    exists o', heap s' !! l = Some o' /\ class o' = class o /\ parent o' = parent o /\
               path o' = path o /\ is_anchor o' = is_anchor o /\ anchor o' = anchor o.

(** A tree built from nothing: a directory, an archive in it, and a folder
    of the archive. *)
Definition small_tree : list build_step :=
  [Create DirPath (mkKwargs "/data" None "fs" "dir" None None);
   Create Py7zrArchivePath (mkKwargs "/data/archive.7z" (Some 0) "fs" "7z" None None);
   Attach 0 "archive.7z" 1;
   Create Py7zrArchivePath (mkKwargs "docs" (Some 1) "py7zr" "7z" None (Some false));
   Attach 1 "docs" 2;
   Rename 2 "papers"].

(** Every dict of the store is still there, with the entries it had. *)
Definition dicts_kept (s s' : state) : Prop :=
  forall r d, dicts s !! r = Some d -> dicts s' !! r = Some d.

(* ================================================================== *)
(** * Reasoning about computations *)
(* ================================================================== *)

Example basename_ex : basename "/data/archive.7z" = "archive.7z". Proof. reflexivity. Qed.
Example basename_plain : basename "b.txt" = "b.txt". Proof. reflexivity. Qed.
Example dirname_ex : dirname "/root/a/c/d.txt" = "/root/a/c". Proof. reflexivity. Qed.
Example dirname_root : dirname "/x" = "/". Proof. reflexivity. Qed.
Example join_ex : join "/root" "a/b.txt" = "/root/a/b.txt". Proof. reflexivity. Qed.
Example join_abs : join "/root" "/etc" = "/etc". Proof. reflexivity. Qed.
Example normpath_ex : normpath "/root//a/./b/../c/" = "/root/a/c". Proof. reflexivity. Qed.
Example normpath_rel : normpath "../x/.." = "..". Proof. reflexivity. Qed.
Example abspath_ex : abspath "/home/u" "docs" = "/home/u/docs". Proof. reflexivity. Qed.
Example splitext_ex : splitext "notes.tar.gz" = ("notes.tar", ".gz"). Proof. reflexivity. Qed.
Example splitext_dot : splitext ".bashrc" = (".bashrc", ""). Proof. reflexivity. Qed.
Example relpath_ex :
  relpath "/" "/data/archive.7z/docs/notes.txt" "/data/archive.7z" = Some "docs/notes.txt".
Proof. reflexivity. Qed.


(** The recursion limit leaves room for at least one call; beyond that
    its value plays no role in the proofs. *)
Lemma recursion_limit_S : exists n, recursion_limit = S n.
Proof. exists 999. reflexivity. Qed.

Lemma recursion_limit_SS : exists n, recursion_limit = S (S n).
Proof. exists 998. reflexivity. Qed.

Opaque recursion_limit.

Lemma bind_Ok_inv {A B} (m : M A) (k : A -> M B) s b s' :
  bind m k s = Ok b s' -> exists a s1, m s = Ok a s1 /\ k a s1 = Ok b s'.
Proof.
  unfold bind. destruct (m s) as [a s1|e s1]; [eauto | discriminate].
Qed.

Lemma bind_Ok {A B} (m : M A) (k : A -> M B) s a s1 :
  m s = Ok a s1 -> bind m k s = k a s1.
Proof. unfold bind. intros ->. reflexivity. Qed.

Lemma bind_Raise {A B} (m : M A) (k : A -> M B) s e s1 :
  m s = Raise e s1 -> bind m k s = Raise e s1.
Proof. unfold bind. intros ->. reflexivity. Qed.

Lemma deref_Ok l o s : heap s !! l = Some o -> deref l s = Ok o s.
Proof. unfold deref. intros ->. reflexivity. Qed.

Lemma deref_inv l o s s' : deref l s = Ok o s' -> heap s !! l = Some o /\ s' = s.
Proof.
  unfold deref. destruct (heap s !! l); [|discriminate].
  intros [= -> ->]. auto.
Qed.

Lemma update_Ok l f o s :
  heap s !! l = Some o -> update l f s = Ok tt (set_obj l (f o) s).
Proof. intros H. unfold update. rewrite (bind_Ok _ _ _ _ _ (deref_Ok _ _ _ H)). reflexivity. Qed.

Lemma update_inv l f u s s' :
  update l f s = Ok u s' -> exists o, heap s !! l = Some o /\ s' = set_obj l (f o) s.
Proof.
  unfold update. intros H. apply bind_Ok_inv in H as (o & s1 & H1 & H).
  apply deref_inv in H1 as [H1 ->]. injection H as _ <-. eauto.
Qed.

Lemma not_None_inv {A} (x : option A) a s s' :
  not_None x s = Ok a s' -> x = Some a /\ s' = s.
Proof. destruct x; simpl; [intros [= -> ->]; auto | discriminate]. Qed.

Lemma read_dict_Ok r d s : dicts s !! r = Some d -> read_dict r s = Ok d s.
Proof. unfold read_dict. intros ->. reflexivity. Qed.

Lemma read_dict_inv r d s s' :
  read_dict r s = Ok d s' -> dicts s !! r = Some d /\ s' = s.
Proof.
  unfold read_dict. destruct (dicts s !! r); [|discriminate].
  intros [= -> ->]. auto.
Qed.

Lemma heap_set_obj_eq l o s :
  l < length (heap s) -> heap (set_obj l o s) !! l = Some o.
Proof. intros H. simpl. by apply list_lookup_insert_eq. Qed.

Lemma heap_set_obj_ne l l' o s :
  l <> l' -> heap (set_obj l o s) !! l' = heap s !! l'.
Proof. intros H. simpl. by apply list_lookup_insert_ne. Qed.

Lemma set_obj_set_obj l o1 o2 s :
  set_obj l o2 (set_obj l o1 s) = set_obj l o2 s.
Proof. unfold set_obj, with_heap. simpl. by rewrite list_insert_insert_eq. Qed.


Section Keeps.
Context (R : state -> state -> Prop) `{!PreOrder R}.

Lemma keeps_ret {A} (a : A) : keeps R (ret a).
Proof. intros s. simpl. reflexivity. Qed.

Lemma keeps_raise {A} e : keeps R (@raise A e).
Proof. intros s. simpl. reflexivity. Qed.

Lemma keeps_gets {A} (f : state -> A) : keeps R (gets f).
Proof. intros s. simpl. reflexivity. Qed.

Lemma keeps_bind {A B} (m : M A) (k : A -> M B) :
  keeps R m -> (forall a, keeps R (k a)) -> keeps R (bind m k).
Proof.
  intros Hm Hk s. unfold bind. specialize (Hm s).
  destruct (m s) as [a s1|e s1]; simpl in *; [|done].
  etrans; [exact Hm | apply Hk].
Qed.

Lemma keeps_modify (f : state -> state) :
  (forall s, R s (f s)) -> keeps R (modify f).
Proof. intros H s. apply H. Qed.

Lemma keeps_deref l : keeps R (deref l).
Proof. intros s. unfold deref. destruct (heap s !! l); simpl; reflexivity. Qed.

Lemma keeps_not_None {A} (x : option A) : keeps R (not_None x).
Proof. destruct x; [apply keeps_ret | apply keeps_raise]. Qed.

Lemma keeps_read_dict r : keeps R (read_dict r).
Proof. intros s. unfold read_dict. destruct (dicts s !! r); simpl; reflexivity. Qed.

Lemma keeps_update l f :
  (forall s o, heap s !! l = Some o -> R s (set_obj l (f o) s)) ->
  keeps R (update l f).
Proof.
  intros H s. unfold update, bind, deref.
  destruct (heap s !! l) eqn:E; simpl; [by apply H | reflexivity].
Qed.

Lemma keeps_for_each {A} (l : list A) (body : A -> M unit) :
  (forall x, keeps R (body x)) -> keeps R (for_each l body).
Proof.
  intros H. induction l as [|x l IH]; simpl.
  - apply keeps_ret.
  - apply keeps_bind; auto.
Qed.
End Keeps.

Lemma keeps_weaken {A} (R R' : state -> state -> Prop) (m : M A) :
  (forall s s', R s s' -> R' s s') -> keeps R m -> keeps R' m.
Proof. intros H Hm s. apply H, Hm. Qed.


#[global] Instance only_stdout_preorder : PreOrder only_stdout.
Proof.
  split.
  - intros [w h d t i o f]. reflexivity.
  - intros [w h d t i o f] [w1 h1 d1 t1 i1 o1 f1] [w2 h2 d2 t2 i2 o2 f2].
    unfold only_stdout, with_stdout; simpl. intros [= -> -> -> -> -> ->] [= -> -> -> -> -> ->].
    reflexivity.
Qed.

Lemma keeps_warn_only_stdout c m : keeps only_stdout (warn c m).
Proof. intros [w h d t i o f]. reflexivity. Qed.

Lemma keeps_getitem_only_stdout self key : keeps only_stdout (__getitem__ self key).
Proof.
  unfold __getitem__, get_parent, get_children_ref.
  destruct (key =? "."); [apply keeps_ret; apply _|].
  destruct (key =? "..").
  - apply keeps_bind; [apply _ | apply keeps_deref; apply _ | intros; apply keeps_ret; apply _].
  - repeat (apply keeps_bind; [apply _ | | intros]);
      try apply keeps_deref; try apply keeps_not_None; try apply keeps_read_dict; try apply _.
    destruct (Dict.get _ _); [apply keeps_ret | apply keeps_raise]; apply _.
Qed.

Lemma keeps_first_value_only_stdout self : keeps only_stdout (first_value self).
Proof.
  unfold first_value, get_children_ref.
  repeat (apply keeps_bind; [apply _ | | intros]);
    try apply keeps_deref; try apply keeps_not_None; try apply keeps_read_dict; try apply _.
  destruct (Dict.keys _); [apply keeps_raise; apply _ | apply keeps_getitem_only_stdout].
Qed.

(** [get_path] may warn, and does nothing else to the state. *)
Lemma keeps_get_path_rec fuel self : keeps only_stdout (get_path_rec fuel self).
Proof.
  revert self. induction fuel as [|fuel IH]; intros self.
  - apply keeps_raise; apply _.
  - unfold get_path_rec; fold get_path_rec.
    apply keeps_bind; [apply _ | apply keeps_deref; apply _ | intros o].
    destruct (isinstance_DirPath (class o)).
    + unfold DirPath_get_path.
      apply keeps_bind; [apply _ | apply keeps_deref; apply _ | intros o'].
      destruct (path o'); [apply keeps_ret; apply _|].
      destruct (parent o').
      * apply keeps_bind; [apply _ | apply IH | intros; apply keeps_ret; apply _].
      * apply keeps_bind; [apply _ | apply keeps_not_None; apply _ | intros r].
        apply keeps_bind; [apply _ | apply keeps_read_dict; apply _ | intros d].
        destruct d.
        -- apply keeps_bind; [apply _ | apply keeps_gets; apply _ | intros; apply keeps_ret; apply _].
        -- apply keeps_bind; [apply _ | apply keeps_first_value_only_stdout | intros v].
           apply keeps_bind; [apply _ | apply keeps_not_None; apply _ | intros c].
           apply keeps_bind; [apply _ | apply IH | intros; apply keeps_ret; apply _].
    + unfold Path_get_path.
      apply keeps_bind; [apply _ | apply keeps_deref; apply _ | intros o'].
      destruct (path o'); [apply keeps_ret; apply _|].
      destruct (parent o').
      * apply keeps_bind; [apply _ | apply IH | intros; apply keeps_ret; apply _].
      * destruct (backend o' =? "fs").
        -- apply keeps_bind; [apply _ | apply keeps_gets; apply _ | intros; apply keeps_ret; apply _].
        -- apply keeps_bind; [apply _ | apply keeps_warn_only_stdout | intros; apply keeps_ret; apply _].
Qed.

(** A cached path is returned as it is. *)
Lemma get_path_rec_cached fuel self o p s :
  heap s !! self = Some o -> path o = Some p ->
  get_path_rec (S fuel) self s = Ok p s.
Proof.
  intros Ho Hp. unfold get_path_rec; fold get_path_rec.
  rewrite (bind_Ok _ _ _ _ _ (deref_Ok _ _ _ Ho)).
  destruct (isinstance_DirPath (class o)); unfold DirPath_get_path, Path_get_path;
    rewrite (bind_Ok _ _ _ _ _ (deref_Ok _ _ _ Ho)), Hp; reflexivity.
Qed.

Lemma get_path_cached self o p s :
  heap s !! self = Some o -> path o = Some p -> get_path self s = Ok p s.
Proof.
  destruct recursion_limit_S as [n Hn]. unfold get_path. rewrite Hn.
  apply get_path_rec_cached.
Qed.

(** A memoized anchor is returned as it is. *)
Lemma get_anchor_rec_cached fuel self o a s :
  heap s !! self = Some o -> isinstance_ArchivePath (class o) = true ->
  anchor o = Some a -> get_anchor_rec (S fuel) self s = Ok a s.
Proof.
  intros Ho Hc Ha. unfold get_anchor_rec; fold get_anchor_rec.
  rewrite (bind_Ok _ _ _ _ _ (deref_Ok _ _ _ Ho)), Hc, Ha. reflexivity.
Qed.

Lemma get_anchor_cached self o a s :
  heap s !! self = Some o -> isinstance_ArchivePath (class o) = true ->
  anchor o = Some a -> get_anchor self s = Ok a s.
Proof.
  destruct recursion_limit_S as [n Hn]. unfold get_anchor. rewrite Hn.
  apply get_anchor_rec_cached.
Qed.

(** The accessors. *)
Lemma get_name_Ok l o s : heap s !! l = Some o -> get_name l s = Ok (name o) s.
Proof. intros H. unfold get_name. by rewrite (bind_Ok _ _ _ _ _ (deref_Ok _ _ _ H)). Qed.

Lemma get_parent_Ok l o s : heap s !! l = Some o -> get_parent l s = Ok (parent o) s.
Proof. intros H. unfold get_parent. by rewrite (bind_Ok _ _ _ _ _ (deref_Ok _ _ _ H)). Qed.

Lemma get_backend_Ok l o s : heap s !! l = Some o -> get_backend l s = Ok (backend o) s.
Proof. intros H. unfold get_backend. by rewrite (bind_Ok _ _ _ _ _ (deref_Ok _ _ _ H)). Qed.

Lemma get_type_Ok l o s : heap s !! l = Some o -> get_type l s = Ok (path_type o) s.
Proof. intros H. unfold get_type. by rewrite (bind_Ok _ _ _ _ _ (deref_Ok _ _ _ H)). Qed.

Lemma get_context_Ok l o s : heap s !! l = Some o -> get_context l s = Ok (context o) s.
Proof. intros H. unfold get_context. by rewrite (bind_Ok _ _ _ _ _ (deref_Ok _ _ _ H)). Qed.

Lemma get_children_ref_Ok l o r s :
  heap s !! l = Some o -> children o = Some r -> get_children_ref l s = Ok r s.
Proof.
  intros H Hr. unfold get_children_ref.
  by rewrite (bind_Ok _ _ _ _ _ (deref_Ok _ _ _ H)), Hr.
Qed.

Lemma get_is_anchor_Ok l o s :
  heap s !! l = Some o -> isinstance_ArchivePath (class o) = true ->
  get_is_anchor l s = Ok (is_anchor o) s.
Proof.
  intros H Hc. unfold get_is_anchor.
  by rewrite (bind_Ok _ _ _ _ _ (deref_Ok _ _ _ H)), Hc.
Qed.

Lemma with_terminal_Ok l o s :
  heap s !! l = Some o -> context o = true -> with_terminal l s = Ok tt s.
Proof.
  intros H Hc. unfold with_terminal.
  by rewrite (bind_Ok _ _ _ _ _ (get_context_Ok _ _ _ H)), Hc.
Qed.

(** Stepping through a computation to show that it keeps a relation: the
    rules are chosen by the shape of the computation. *)
Ltac keeps_tac :=
  repeat (intros;
    lazymatch goal with
    | |- keeps _ (ret _) => apply keeps_ret; apply _
    | |- keeps _ (raise _) => apply keeps_raise; apply _
    | |- keeps _ (gets _) => apply keeps_gets; apply _
    | |- keeps _ (deref _) => apply keeps_deref; apply _
    | |- keeps _ (not_None _) => apply keeps_not_None; apply _
    | |- keeps _ (read_dict _) => apply keeps_read_dict; apply _
    | |- keeps _ (bind _ _) => apply keeps_bind; [apply _ | | ]
    | |- keeps _ (if ?b then _ else _) => destruct b
    | |- keeps _ (match ?x with _ => _ end) => destruct x
    end).

#[global] Instance same_dicts_preorder : PreOrder same_dicts.
Proof. split; unfold same_dicts; [intros s; reflexivity | intros s1 s2 s3; congruence]. Qed.

Lemma only_stdout_same_dicts s s' : only_stdout s s' -> same_dicts s s'.
Proof. unfold only_stdout, same_dicts. intros ->. reflexivity. Qed.

Lemma keeps_update_same_dicts l f : keeps same_dicts (update l f).
Proof. apply keeps_update; [apply _|]. reflexivity. Qed.

Lemma keeps_get_path_same_dicts self : keeps same_dicts (get_path self).
Proof.
  eapply keeps_weaken; [apply only_stdout_same_dicts | exact (keeps_get_path_rec _ self)].
Qed.

Lemma keeps_DirPath_absorb_same_dicts self other :
  keeps same_dicts (DirPath_absorb self other).
Proof.
  unfold DirPath_absorb, Path_absorb, get_children, get_children_ref,
    get_name, get_parent, get_type.
  keeps_tac; intros;
    lazymatch goal with
    | |- keeps _ (update _ _) => apply keeps_update_same_dicts
    | |- keeps _ (get_path _) => apply keeps_get_path_same_dicts
    end.
Qed.

Lemma Dict_get_set_ne {V} (x k : string) (v : V) (d : Dict.t V) :
  x <> k -> Dict.get x (Dict.set k v d) = Dict.get x d.
Proof.
  intros Hne. induction d as [|[k' v'] d IH]; simpl.
  - destruct (String.eqb_spec x k); [done | reflexivity].
  - destruct (String.eqb_spec k k') as [->|Hk]; simpl.
    + destruct (String.eqb_spec x k'); [done | reflexivity].
    + destruct (String.eqb_spec x k'); [reflexivity | exact IH].
Qed.

Lemma Dict_get_set_eq {V} (k : string) (v : V) (d : Dict.t V) :
  Dict.get k (Dict.set k v d) = Some v.
Proof.
  induction d as [|[k' v'] d IH]; simpl.
  - by rewrite String.eqb_refl.
  - destruct (String.eqb_spec k k') as [->|Hk]; simpl.
    + by rewrite String.eqb_refl.
    + destruct (String.eqb_spec k k'); [done | exact IH].
Qed.

Lemma Dict_mem_set_ne {V} (x k : string) (v : V) (d : Dict.t V) :
  x <> k -> Dict.mem x (Dict.set k v d) = Dict.mem x d.
Proof. intros H. unfold Dict.mem. by rewrite Dict_get_set_ne. Qed.

Lemma Dict_mem_keys {V} (x : string) (d : Dict.t V) :
  Dict.mem x d = true <-> In x (Dict.keys d).
Proof.
  unfold Dict.mem. induction d as [|[k' v'] d IH]; simpl.
  - split; [discriminate | tauto].
  - destruct (String.eqb_spec x k') as [->|Hk].
    + split; auto.
    + rewrite IH. split; [auto | intros [E|H]; [congruence | exact H]].
Qed.

Lemma get_children_ref_inv l r s s' :
  get_children_ref l s = Ok r s' ->
  exists o, heap s !! l = Some o /\ children o = Some r /\ s' = s.
Proof.
  unfold get_children_ref. intros H.
  apply bind_Ok_inv in H as (o & s1 & Ho & H).
  apply deref_inv in Ho as [Ho ->].
  apply not_None_inv in H as [H ->]. eauto.
Qed.

(** The children dict of a directory, as [__iter__], [__len__] and
    [__contains__] read it. *)
Lemma children_dict_inv {A} (l : loc) (f : Dict.t loc -> A) (a : A) (s s' : state) :
  (r <- get_children_ref l ;; d <- read_dict r ;; ret (f d)) s = Ok a s' ->
  exists o r d, heap s !! l = Some o /\ children o = Some r /\
    dicts s !! r = Some d /\ a = f d /\ s' = s.
Proof.
  intros H.
  apply bind_Ok_inv in H as (r & s1 & Hr & H).
  apply get_children_ref_inv in Hr as (o & Ho & Hc & ->).
  apply bind_Ok_inv in H as (d & s2 & Hd & H).
  apply read_dict_inv in Hd as [Hd ->].
  injection H as <- <-. eauto 10.
Qed.

(** The mapping methods on a directory with its children dict at hand. *)
Lemma Dict_set_length_new {V} (k : string) (v : V) (d : Dict.t V) :
  Dict.mem k d = false -> length (Dict.set k v d) = S (length d).
Proof.
  unfold Dict.mem. induction d as [|[k' v'] d IH]; simpl; [done|].
  destruct (String.eqb_spec k k'); [done|]. intros H. simpl. by rewrite IH.
Qed.

Lemma Dict_set_length_old {V} (k : string) (v : V) (d : Dict.t V) :
  Dict.mem k d = true -> length (Dict.set k v d) = length d.
Proof.
  unfold Dict.mem. induction d as [|[k' v'] d IH]; simpl; [done|].
  destruct (String.eqb_spec k k'); [done|]. intros H. simpl. by rewrite IH.
Qed.

Lemma setitem_regular (s : state) (D : loc) (o : PathObj) (r : dref) (d : Dict.t loc)
    (key : string) (value : loc) :
  heap s !! D = Some o -> children o = Some r -> dicts s !! r = Some d ->
  key <> "." -> key <> ".." ->
  __setitem__ D key value s
  = Ok tt (with_dicts (<[r := Dict.set key value d]> (dicts s)) s).
Proof.
  intros Ho Hc Hd Hk1 Hk2. unfold __setitem__.
  apply String.eqb_neq in Hk1, Hk2. rewrite Hk1, Hk2.
  rewrite (bind_Ok _ _ _ _ _ (get_children_ref_Ok _ _ _ _ Ho Hc)).
  rewrite (bind_Ok _ _ _ _ _ (read_dict_Ok _ _ _ Hd)).
  reflexivity.
Qed.

Lemma getitem_regular (s : state) (D : loc) (o : PathObj) (r : dref) (d : Dict.t loc)
    (key : string) :
  heap s !! D = Some o -> children o = Some r -> dicts s !! r = Some d ->
  key <> "." -> key <> ".." ->
  __getitem__ D key s
  = match Dict.get key d with
    | Some v => Ok (Some v) s
    | None => Raise (KeyError key) s
    end.
Proof.
  intros Ho Hc Hd Hk1 Hk2. unfold __getitem__.
  apply String.eqb_neq in Hk1, Hk2. rewrite Hk1, Hk2.
  rewrite (bind_Ok _ _ _ _ _ (get_children_ref_Ok _ _ _ _ Ho Hc)).
  rewrite (bind_Ok _ _ _ _ _ (read_dict_Ok _ _ _ Hd)).
  by destruct (Dict.get key d).
Qed.

Lemma children_dict_Ok {A} (l : loc) (f : Dict.t loc -> A) (s : state) o r d :
  heap s !! l = Some o -> children o = Some r -> dicts s !! r = Some d ->
  (r <- get_children_ref l ;; d <- read_dict r ;; ret (f d)) s = Ok (f d) s.
Proof.
  intros Ho Hc Hd.
  rewrite (bind_Ok _ _ _ _ _ (get_children_ref_Ok _ _ _ _ Ho Hc)).
  by rewrite (bind_Ok _ _ _ _ _ (read_dict_Ok _ _ _ Hd)).
Qed.

Lemma Dict_get_del_eq {V} (k : string) (d d' : Dict.t V) :
  NoDup (Dict.keys d) -> Dict.del k d = Some d' -> Dict.get k d' = None.
Proof.
  revert d'. induction d as [|[k' v'] d IH]; intros d' Hnd; [done|].
  change (NoDup (k' :: Dict.keys d)) in Hnd.
  apply NoDup_cons in Hnd as [Hnotin Hnd]. simpl.
  destruct (String.eqb_spec k k') as [->|Hne].
  - intros [= E0]. rewrite <- E0. destruct (Dict.get k' d) eqn:E; [|done].
    exfalso. apply Hnotin. apply list_elem_of_In, Dict_mem_keys.
    unfold Dict.mem. by rewrite E.
  - destruct (Dict.del k d) as [d1|] eqn:E; [|done].
    intros [= <-]. simpl. apply String.eqb_neq in Hne. rewrite Hne. by apply IH.
Qed.

Lemma Dict_get_del_ne {V} (x k : string) (d d' : Dict.t V) :
  x <> k -> Dict.del k d = Some d' -> Dict.get x d' = Dict.get x d.
Proof.
  intros Hx. revert d'. induction d as [|[k' v'] d IH]; intros d'; simpl; [done|].
  destruct (String.eqb_spec k k') as [->|Hne].
  - intros [= <-]. apply String.eqb_neq in Hx. by rewrite Hx.
  - destruct (Dict.del k d) as [d1|] eqn:E; [|done].
    intros [= <-]. simpl. destruct (x =? k'); [done | by apply IH].
Qed.

Lemma Dict_del_length {V} (k : string) (d d' : Dict.t V) :
  Dict.del k d = Some d' -> length d = S (length d').
Proof.
  revert d'. induction d as [|[k' v'] d IH]; intros d'; simpl; [done|].
  destruct (k =? k'); [by intros [= <-]|].
  destruct (Dict.del k d) as [d1|] eqn:E; [|done].
  intros [= <-]. simpl. f_equal. by apply IH.
Qed.

Lemma Dict_del_None {V} (k : string) (d : Dict.t V) :
  Dict.del k d = None <-> Dict.get k d = None.
Proof.
  induction d as [|[k' v'] d IH]; simpl; [done|].
  destruct (k =? k'); [done|].
  destruct (Dict.del k d); [|tauto].
  split; [done|]. intros H. apply IH in H. done.
Qed.

(** [Dict.set] keeps the keys of a dict distinct. *)
Lemma Dict_set_NoDup {V} (k : string) (v : V) (d : Dict.t V) :
  NoDup (Dict.keys d) -> NoDup (Dict.keys (Dict.set k v d)).
Proof.
  induction d as [|[k' v'] d IH].
  - intros _. apply NoDup_singleton.
  - intros Hnd. change (NoDup (k' :: Dict.keys d)) in Hnd.
    apply NoDup_cons in Hnd as [Hnotin Hnd]. simpl.
    destruct (String.eqb_spec k k') as [->|Hne].
    + change (NoDup (k' :: Dict.keys d)). by apply NoDup_cons.
    + change (NoDup (k' :: Dict.keys (Dict.set k v d))).
      apply NoDup_cons. split; [|by apply IH].
      intros Hin. apply Hnotin.
      apply list_elem_of_In, Dict_mem_keys in Hin.
      apply list_elem_of_In, Dict_mem_keys.
      by rewrite Dict_mem_set_ne in Hin.
Qed.

(* ================================================================== *)
(** * The reserved keys of a directory *)
(* ================================================================== *)

(** C8: for every [DirPath] [D], in every state and whatever its children
    dict holds, [D['.']] and [D.get('.')] return [D] itself, and [D['..']]
    and [D.get('..')] return [D]'s parent. *)
Theorem getitem_reserved (s : state) (D : loc) (o : PathObj) :
  heap s !! D = Some o ->
  __getitem__ D "." s = Ok (Some D) s /\
  __getitem__ D ".." s = Ok (parent o) s /\
  get D "." s = Ok (Some D) s /\
  get D ".." s = Ok (parent o) s.
Proof.
  intros Ho. unfold get, __getitem__, get_parent. simpl.
  rewrite (bind_Ok _ _ _ _ _ (deref_Ok _ _ _ Ho)). simpl.
  destruct (parent o); auto.
Qed.

Lemma getitem_reserved_witness :
  __getitem__ 0 "." shadowed = Ok (Some 0) shadowed /\
  __getitem__ 0 ".." shadowed = Ok (Some 1) shadowed /\
  get 0 "." shadowed = Ok (Some 0) shadowed /\
  get 0 ".." shadowed = Ok (Some 1) shadowed.
Proof.
  apply (getitem_reserved shadowed 0
           (mkPathObj DirPath "d" (Some 1) "fs" "dir" (Some "/d") true (Some 0)
                      false None [] None)).
  reflexivity.
Defined.

(* ================================================================== *)
(** * [absorb] and the parentless node *)
(* ================================================================== *)

(** What [Path.absorb] leaves in [self]: the name, parent and type of
    [other], and as backend the path of [other]. *)
Lemma Path_absorb_result (s : state) (self other : loc) (o oo : PathObj) (p : string) :
  self <> other ->
  heap s !! self = Some o -> heap s !! other = Some oo -> path oo = Some p ->
  Path_absorb self other s =
    Ok tt (set_obj self
             (mkPathObj (class o) (name oo) (parent oo) p (path_type oo) (path o)
                        (context o) (children o) (is_anchor o) (anchor o)
                        (child_data o) (archive_file o)) s).
Proof.
  intros Hne Ho Hoo Hp.
  assert (Hlt : self < length (heap s)) by (eapply lookup_lt_Some; eauto).
  unfold Path_absorb.
  assert (Hoo1 : forall x s0, heap s0 = heap s -> heap (set_obj self x s0) !! other = Some oo).
  { intros x s0 E. rewrite heap_set_obj_ne by done. by rewrite E. }
  rewrite (bind_Ok _ _ _ _ _ (get_name_Ok _ _ _ Hoo)).
  rewrite (bind_Ok _ _ _ _ _ (update_Ok _ _ _ _ Ho)).
  rewrite (bind_Ok _ _ _ _ _ (get_parent_Ok _ _ _ (Hoo1 _ _ eq_refl))).
  rewrite (bind_Ok _ _ _ _ _ (update_Ok _ _ _ _ (heap_set_obj_eq _ _ _ Hlt))).
  rewrite set_obj_set_obj.
  rewrite (bind_Ok _ _ _ _ _ (get_path_cached _ _ _ _ (Hoo1 _ _ eq_refl) Hp)).
  rewrite (bind_Ok _ _ _ _ _ (update_Ok _ _ _ _ (heap_set_obj_eq _ _ _ Hlt))).
  rewrite set_obj_set_obj.
  rewrite (bind_Ok _ _ _ _ _ (get_type_Ok _ _ _ (Hoo1 _ _ eq_refl))).
  rewrite (update_Ok _ _ _ _ (heap_set_obj_eq _ _ _ Hlt)).
  rewrite set_obj_set_obj. reflexivity.
Qed.

(** C4, at [D = DirPath('a'); x = DirPath('b'); D['.'] = x]: the name, the
    parent, the type and the children of [D] are those of [x], but
    [D.get_backend()] is ["/b"], the path of [x], where [x.get_backend()]
    is ["fs"]. *)
Theorem absorb_backend_is_path :
  exists D x s,
    absorb_example (fresh bare_world []) = Ok (D, x) s /\
    get_name D s = get_name x s /\
    get_parent D s = get_parent x s /\
    get_type D s = get_type x s /\
    get_children D s = get_children x s /\
    get_backend x s = Ok "fs" s /\
    get_path x s = Ok "/b" s /\
    get_backend D s = Ok "/b" s.
Proof.
  do 3 eexists. split; [vm_compute; reflexivity|].
  repeat split; vm_compute; reflexivity.
Qed.

(** [DirPath.get_path] on a node without cached path, parent and children:
    the absolute form of the name, whatever the backend, and no warning. *)
Lemma DirPath_get_path_root (s : state) (self : loc) (o : PathObj) (r : dref) :
  heap s !! self = Some o -> isinstance_DirPath (class o) = true ->
  path o = None -> parent o = None ->
  children o = Some r -> dicts s !! r = Some [] ->
  get_path self s = Ok (abspath (cwd (world s)) (name o)) s.
Proof.
  intros Ho Hc Hp Hpar Hch Hd.
  destruct recursion_limit_S as [n Hn].
  unfold get_path. rewrite Hn. unfold get_path_rec; fold get_path_rec.
  rewrite (bind_Ok _ _ _ _ _ (deref_Ok _ _ _ Ho)), Hc.
  unfold DirPath_get_path.
  rewrite (bind_Ok _ _ _ _ _ (deref_Ok _ _ _ Ho)), Hp, Hpar, Hch. simpl not_None.
  unfold bind at 1. simpl.
  rewrite (bind_Ok _ _ _ _ _ (read_dict_Ok _ _ _ Hd)). reflexivity.
Qed.

(** [Path.get_path] in the same situation: the bare name, with an
    [UnexpectedSituationWarning]. *)
Lemma Path_get_path_root (s : state) (self : loc) (o : PathObj) :
  heap s !! self = Some o -> isinstance_DirPath (class o) = false ->
  path o = None -> parent o = None -> backend o <> "fs" ->
  get_path self s =
    Ok (name o)
       (with_stdout
          (stdout s ++
           [Warned "UnexpectedSituationWarning"
                   "get_path() was called on a non-filesystem backed Path with no parent"])
          s).
Proof.
  intros Ho Hc Hp Hpar Hb.
  destruct recursion_limit_S as [n Hn].
  unfold get_path. rewrite Hn. unfold get_path_rec; fold get_path_rec.
  rewrite (bind_Ok _ _ _ _ _ (deref_Ok _ _ _ Ho)), Hc.
  unfold Path_get_path.
  rewrite (bind_Ok _ _ _ _ _ (deref_Ok _ _ _ Ho)), Hp, Hpar.
  apply String.eqb_neq in Hb. rewrite Hb. reflexivity.
Qed.

(** C5, at a [DirPath] named [x] with backend [py7zr], no cached path, no
    parent and no children: [get_path()] returns ["/x"] and leaves the
    state, with it the output, as it was; a [TextFile] in the same
    situation gets the bare name and the warning. *)
Theorem get_path_orphan_directory_silent :
  get_path 0 (orphan DirPath) = Ok "/x" (orphan DirPath) /\
  stdout (after (get_path 0) (orphan DirPath)) = [] /\
  get_path 0 (orphan TextFile) =
    Ok "x" (with_stdout
              [Warned "UnexpectedSituationWarning"
                      "get_path() was called on a non-filesystem backed Path with no parent"]
              (orphan TextFile)).
Proof.
  split; [|split].
  - exact (DirPath_get_path_root (orphan DirPath) 0 _ 0 eq_refl eq_refl eq_refl eq_refl
             eq_refl eq_refl).
  - vm_compute. reflexivity.
  - apply (Path_get_path_root (orphan TextFile) 0 _ eq_refl eq_refl eq_refl eq_refl).
    discriminate.
Qed.

(* ================================================================== *)
(** * [__setitem__] and the reserved keys *)
(* ================================================================== *)

(** One [D[key] = value] leaves, in every dict of the store, the keys [.]
    and [..] as present or absent as they were. *)
Lemma setitem_reserved (s : state) (D : loc) (key : string) (value : loc)
    (x : string) (r : dref) :
  x = "." \/ x = ".." ->
  Dict.mem x <$> dicts (after (__setitem__ D key value) s) !! r
  = Dict.mem x <$> dicts s !! r.
Proof.
  intros Hx. unfold after, __setitem__.
  destruct (String.eqb_spec key ".") as [->|Hdot].
  { by rewrite (keeps_DirPath_absorb_same_dicts D value s). }
  destruct (String.eqb_spec key "..") as [->|Hdd].
  { unfold set_parent. by rewrite (keeps_update_same_dicts D _ s). }
  cbv [bind get_children_ref deref not_None read_dict write_dict modify ret raise].
  destruct (heap s !! D) as [o|]; [|done].
  destruct (children o) as [r0|]; [|done].
  destruct (dicts s !! r0) as [d|] eqn:Hd; [|done].
  simpl.
  destruct (decide (r0 = r)) as [->|Hr].
  - rewrite list_lookup_insert_eq by (eapply lookup_lt_Some; eauto).
    rewrite Hd. simpl. f_equal. apply Dict_mem_set_ne.
    destruct Hx as [-> | ->]; congruence.
  - by rewrite list_lookup_insert_ne.
Qed.

Lemma run_setitems_reserved (ops : list (loc * string * loc)) (s : state)
    (x : string) (r : dref) :
  x = "." \/ x = ".." ->
  Dict.mem x <$> dicts (run_setitems ops s) !! r = Dict.mem x <$> dicts s !! r.
Proof.
  intros Hx. revert s. induction ops as [|[[D key] value] ops IH]; intros s; simpl.
  - reflexivity.
  - rewrite IH. by apply setitem_reserved.
Qed.

(** Whatever sequence of [D[key] = value] statements runs, on whatever
    directories, keys and values, each dict keeps [.] and [..] as absent
    or present as before; so on a store where no dict has a reserved key,
    none has one afterwards, and the iteration, the size and the
    containment test of every directory see no [.] and no [..]. *)
Theorem setitem_never_stores_reserved (ops : list (loc * string * loc)) (s : state) :
  no_reserved_keys s ->
  let s' := run_setitems ops s in
  (forall x r, x = "." \/ x = ".." ->
     Dict.mem x <$> dicts s' !! r = Dict.mem x <$> dicts s !! r) /\
  no_reserved_keys s' /\
  forall D : loc,
    (forall ks s'', __iter__ D s' = Ok ks s'' ->
       ~ In "." ks /\ ~ In ".." ks) /\
    (forall n ks s1 s2, __len__ D s' = Ok n s1 -> __iter__ D s' = Ok ks s2 ->
       n = length ks) /\
    (forall x b s'', x = "." \/ x = ".." ->
       __contains__ D x s' = Ok b s'' -> b = false).
Proof.
  intros Hinv s'.
  assert (Hcore : forall x r, x = "." \/ x = ".." ->
            Dict.mem x <$> dicts s' !! r = Dict.mem x <$> dicts s !! r).
  { intros x r Hx. by apply run_setitems_reserved. }
  assert (Hinv' : no_reserved_keys s').
  { intros r d Hd.
    pose proof (Hcore "." r (or_introl eq_refl)) as H1.
    pose proof (Hcore ".." r (or_intror eq_refl)) as H2.
    rewrite Hd in H1, H2. simpl in H1, H2.
    destruct (dicts s !! r) as [d0|] eqn:Hd0; [|discriminate].
    destruct (Hinv r d0 Hd0) as [E1 E2]. simpl in H1, H2.
    split; congruence. }
  split; [exact Hcore|]. split; [exact Hinv'|].
  intros D. split; [|split].
  - intros ks s'' H. apply children_dict_inv in H as (o & r & d & _ & _ & Hd & -> & _).
    destruct (Hinv' r d Hd) as [E1 E2].
    split; intros Hin; apply Dict_mem_keys in Hin; congruence.
  - intros n ks s1 s2 Hn Hks.
    apply children_dict_inv in Hn as (o & r & d & Ho & Hc & Hd & -> & _).
    apply children_dict_inv in Hks as (o' & r' & d' & Ho' & Hc' & Hd' & -> & _).
    assert (d' = d) as -> by congruence.
    unfold Dict.keys. by rewrite length_map.
  - intros x b s'' Hx H.
    apply children_dict_inv in H as (o & r & d & _ & _ & Hd & -> & _).
    destruct (Hinv' r d Hd) as [E1 E2].
    destruct Hx as [-> | ->]; assumption.
Qed.

Lemma setitem_never_stores_reserved_witness :
  no_reserved_keys plain /\ no_reserved_keys (run_setitems reserved_ops plain).
Proof.
  assert (H : no_reserved_keys plain).
  { intros r d Hd. destruct r as [|[|r]]; simpl in Hd.
    - injection Hd as <-. split; reflexivity.
    - injection Hd as <-. split; reflexivity.
    - discriminate. }
  split; [exact H|].
  exact (proj1 (proj2 (setitem_never_stores_reserved reserved_ops plain H))).
Defined.

(* ================================================================== *)
(** * A directory as a mapping *)
(* ================================================================== *)

(** After [D[key] = value] with a key other than [.] and [..], on a
    directory [D]: [D[key]] is [value], [key in D] holds, [key] is among
    the keys [D] iterates over, every other key looks up as it did, and
    [len(D)] grew by one when [key] is new and stayed when it was there. *)
Theorem setitem_then_getitem (s : state) (D : loc) (o : PathObj) (r : dref)
    (d : Dict.t loc) (key : string) (value : loc) :
  heap s !! D = Some o -> children o = Some r -> dicts s !! r = Some d ->
  key <> "." -> key <> ".." ->
  exists s',
    __setitem__ D key value s = Ok tt s' /\
    __getitem__ D key s' = Ok (Some value) s' /\
    __contains__ D key s' = Ok true s' /\
    (exists ks, __iter__ D s' = Ok ks s' /\ In key ks) /\
    (forall k', k' <> key -> k' <> "." -> k' <> ".." ->
       forall v, __getitem__ D k' s = Ok v s <-> __getitem__ D k' s' = Ok v s') /\
    __len__ D s' = Ok (if Dict.mem key d then length d else S (length d)) s'.
Proof.
  intros Ho Hc Hd Hk1 Hk2.
  assert (Hr : r < length (dicts s)) by (eapply lookup_lt_Some; eauto).
  eexists. split; [by eapply setitem_regular|].
  set (s' := with_dicts _ s).
  assert (Ho' : heap s' !! D = Some o) by exact Ho.
  assert (Hd' : dicts s' !! r = Some (Dict.set key value d)).
  { unfold s'. simpl. by apply list_lookup_insert_eq. }
  split; [|split; [|split; [|split]]].
  - rewrite (getitem_regular _ _ _ _ _ _ Ho' Hc Hd' Hk1 Hk2).
    by rewrite Dict_get_set_eq.
  - unfold __contains__. rewrite (children_dict_Ok _ _ _ _ _ _ Ho' Hc Hd').
    unfold Dict.mem. by rewrite Dict_get_set_eq.
  - exists (Dict.keys (Dict.set key value d)). split.
    + unfold __iter__. by rewrite (children_dict_Ok _ _ _ _ _ _ Ho' Hc Hd').
    + apply Dict_mem_keys. unfold Dict.mem. by rewrite Dict_get_set_eq.
  - intros k' Hne Hk1' Hk2' v.
    rewrite (getitem_regular _ _ _ _ _ _ Ho Hc Hd Hk1' Hk2').
    rewrite (getitem_regular _ _ _ _ _ _ Ho' Hc Hd' Hk1' Hk2').
    rewrite Dict_get_set_ne by done.
    destruct (Dict.get k' d); split; intros [= <-]; reflexivity.
  - unfold __len__. rewrite (children_dict_Ok _ _ _ _ _ _ Ho' Hc Hd').
    destruct (Dict.mem key d) eqn:Hm.
    + by rewrite Dict_set_length_old.
    + by rewrite Dict_set_length_new.
Qed.

Lemma setitem_then_getitem_witness :
  exists s',
    __setitem__ 0 "x" 1 plain = Ok tt s' /\
    __getitem__ 0 "x" s' = Ok (Some 1) s' /\
    __contains__ 0 "x" s' = Ok true s' /\
    (exists ks, __iter__ 0 s' = Ok ks s' /\ In "x" ks) /\
    (forall k', k' <> "x" -> k' <> "." -> k' <> ".." ->
       forall v, __getitem__ 0 k' plain = Ok v plain <-> __getitem__ 0 k' s' = Ok v s') /\
    __len__ 0 s' = Ok 2 s'.
Proof.
  exact (setitem_then_getitem plain 0 _ 0 [("a", 1)] "x" 1 eq_refl eq_refl eq_refl
           ltac:(discriminate) ltac:(discriminate)).
Defined.

(** [del D[key]] on a directory [D] whose dict has distinct keys: a key
    that is not among the children (so also [.] and [..]) raises
    [KeyError] and changes nothing; a key that is there is removed, the
    size drops by one and every other key is contained as before. *)
Theorem delitem_removes (s : state) (D : loc) (o : PathObj) (r : dref)
    (d : Dict.t loc) (key : string) :
  heap s !! D = Some o -> children o = Some r -> dicts s !! r = Some d ->
  NoDup (Dict.keys d) ->
  (Dict.mem key d = false -> __delitem__ D key s = Raise (KeyError key) s) /\
  (Dict.mem key d = true ->
     exists s',
       __delitem__ D key s = Ok tt s' /\
       __contains__ D key s' = Ok false s' /\
       S (length (child_names s' D)) = length (child_names s D) /\
       (exists n, __len__ D s' = Ok n s' /\ __len__ D s = Ok (S n) s) /\
       forall k', k' <> key ->
         exists b, __contains__ D k' s = Ok b s /\ __contains__ D k' s' = Ok b s').
Proof.
  intros Ho Hc Hd Hnd.
  assert (Hr : r < length (dicts s)) by (eapply lookup_lt_Some; eauto).
  split.
  - intros Hm. unfold __delitem__.
    rewrite (bind_Ok _ _ _ _ _ (get_children_ref_Ok _ _ _ _ Ho Hc)).
    rewrite (bind_Ok _ _ _ _ _ (read_dict_Ok _ _ _ Hd)).
    assert (E : Dict.del key d = None).
    { apply Dict_del_None. unfold Dict.mem in Hm. by destruct (Dict.get key d). }
    by rewrite E.
  - intros Hm.
    destruct (Dict.del key d) as [d'|] eqn:E.
    2:{ apply Dict_del_None in E. unfold Dict.mem in Hm. by rewrite E in Hm. }
    exists (with_dicts (<[r := d']> (dicts s)) s).
    set (s' := with_dicts _ s).
    assert (Ho' : heap s' !! D = Some o) by exact Ho.
    assert (Hd' : dicts s' !! r = Some d').
    { unfold s'. simpl. by apply list_lookup_insert_eq. }
    split; [|split; [|split; [|split]]].
    + unfold __delitem__.
      rewrite (bind_Ok _ _ _ _ _ (get_children_ref_Ok _ _ _ _ Ho Hc)).
      rewrite (bind_Ok _ _ _ _ _ (read_dict_Ok _ _ _ Hd)).
      by rewrite E.
    + unfold __contains__. rewrite (children_dict_Ok _ _ _ _ _ _ Ho' Hc Hd').
      unfold Dict.mem. by rewrite (Dict_get_del_eq _ _ _ Hnd E).
    + unfold child_names. rewrite Ho', Ho, Hc, Hd', Hd.
      unfold Dict.keys. rewrite !length_map. symmetry. exact (Dict_del_length _ _ _ E).
    + exists (length d'). unfold __len__.
      rewrite (children_dict_Ok _ _ _ _ _ _ Ho' Hc Hd').
      rewrite (children_dict_Ok _ _ _ _ _ _ Ho Hc Hd).
      by rewrite (Dict_del_length _ _ _ E).
    + intros k' Hne. exists (Dict.mem k' d). unfold __contains__.
      rewrite (children_dict_Ok _ _ _ _ _ _ Ho' Hc Hd').
      rewrite (children_dict_Ok _ _ _ _ _ _ Ho Hc Hd).
      split; [done|]. unfold Dict.mem. by rewrite (Dict_get_del_ne _ _ _ _ Hne E).
Qed.

Lemma delitem_removes_witness :
  (Dict.mem "a" [("a", 1)] = false -> __delitem__ 0 "a" plain = Raise (KeyError "a") plain) /\
  (Dict.mem "a" [("a", 1)] = true ->
     exists s',
       __delitem__ 0 "a" plain = Ok tt s' /\
       __contains__ 0 "a" s' = Ok false s' /\
       S (length (child_names s' 0)) = length (child_names plain 0) /\
       (exists n, __len__ 0 s' = Ok n s' /\ __len__ 0 plain = Ok (S n) plain) /\
       forall k', k' <> "a" ->
         exists b, __contains__ 0 k' plain = Ok b plain /\ __contains__ 0 k' s' = Ok b s').
Proof.
  apply (delitem_removes plain 0 _ 0 [("a", 1)] "a" eq_refl eq_refl eq_refl).
  apply NoDup_singleton.
Defined.

(* ================================================================== *)
(** * What [get_path] and [get_anchor] leave alone *)
(* ================================================================== *)

#[global] Instance only_warns_preorder : PreOrder only_warns.
Proof.
  split.
  - intros [w h d t i o f]. exists []. split; [|constructor].
    unfold with_stdout. simpl. by rewrite app_nil_r.
  - intros s1 s2 s3 (ws1 & -> & H1) (ws2 & -> & H2).
    exists (ws1 ++ ws2). split; [|by apply Forall_app].
    destruct s1 as [w h d t i o f]. unfold with_stdout. simpl. by rewrite app_assoc.
Qed.

Lemma keeps_warn_only_warns c m : keeps only_warns (warn c m).
Proof.
  intros [w h d t i o f]. exists [Warned c m]. split; [reflexivity|].
  repeat constructor.
Qed.

Lemma keeps_getitem_only_warns self key : keeps only_warns (__getitem__ self key).
Proof. unfold __getitem__, get_parent, get_children_ref. keeps_tac. Qed.

Lemma keeps_first_value_only_warns self : keeps only_warns (first_value self).
Proof.
  unfold first_value, get_children_ref. keeps_tac. apply keeps_getitem_only_warns.
Qed.

Lemma keeps_get_path_rec_only_warns fuel self : keeps only_warns (get_path_rec fuel self).
Proof.
  revert self. induction fuel as [|fuel IH]; intros self.
  - apply keeps_raise; apply _.
  - unfold get_path_rec; fold get_path_rec. unfold DirPath_get_path, Path_get_path.
    keeps_tac; intros;
      lazymatch goal with
      | |- keeps _ (get_path_rec _ _) => apply IH
      | |- keeps _ (first_value _) => apply keeps_first_value_only_warns
      | |- keeps _ (warn _ _) => apply keeps_warn_only_warns
      end.
Qed.

Lemma keeps_get_anchor_rec_only_warns fuel self :
  keeps only_warns (get_anchor_rec fuel self).
Proof.
  revert self. induction fuel as [|fuel IH]; intros self.
  - apply keeps_raise; apply _.
  - unfold get_anchor_rec; fold get_anchor_rec. unfold get_is_anchor, get_parent.
    keeps_tac; intros;
      lazymatch goal with
      | |- keeps _ (get_anchor_rec _ _) => apply IH
      | |- keeps _ (get_path _) => apply keeps_get_path_rec_only_warns
      end.
Qed.

(** [get_path()] and [get_anchor()] read the tree and never change it:
    whether they return or raise, the objects, the children dicts, the
    terminal, the pending input and the temporary files are what they
    were, and the output has at most gained warnings. *)
Theorem get_path_get_anchor_read_only (s : state) (self : loc) :
  only_warns s (after (get_path self) s) /\
  only_warns s (after (get_anchor self) s).
Proof.
  split.
  - apply keeps_get_path_rec_only_warns.
  - apply keeps_get_anchor_rec_only_warns.
Qed.

(* ================================================================== *)
(** * Opening a password-protected archive *)
(* ================================================================== *)

Section PasswordRounds.
Variables (self : loc) (o : PathObj) (file : source).



End PasswordRounds.





(* ================================================================== *)
(** * Other ways [get_archive_file] ends *)
(* ================================================================== *)

(** A node that holds a handle returns it, and a node that is no anchor
    returns the handle its parent holds: nothing is opened, asked or
    printed. *)
Theorem get_archive_file_reuses_handle (s : state) (self : loc) (o : PathObj)
    (h : SevenZipFile) :
  heap s !! self = Some o -> class o = Py7zrArchivePath ->
  (archive_file o = Some h \/
   (archive_file o = None /\ is_anchor o = false /\
    exists pl po, parent o = Some pl /\ heap s !! pl = Some po /\
      class po = Py7zrArchivePath /\ archive_file po = Some h)) ->
  get_archive_file self s = Ok (Some h) s.
Proof.
  intros Ho Hcls Hcase.
  destruct recursion_limit_SS as [n Hn].
  unfold get_archive_file. rewrite Hn. clear Hn.
  assert (Hown : forall m l ol, heap s !! l = Some ol -> class ol = Py7zrArchivePath ->
            archive_file ol = Some h -> get_archive_file_rec (S m) l s = Ok (Some h) s).
  { intros m l ol Hl Hc Ha. unfold get_archive_file_rec; fold get_archive_file_rec.
    rewrite (bind_Ok _ _ _ _ _ (deref_Ok _ _ _ Hl)). rewrite Hc.
    cbv [isinstance_Py7zrArchivePath negb]. by rewrite Ha. }
  destruct Hcase as [Ha | (Ha & Hanc & pl & po & Hpar & Hpo & Hpc & Hpa)].
  - by eapply Hown.
  - unfold get_archive_file_rec; fold get_archive_file_rec.
    rewrite (bind_Ok _ _ _ _ _ (deref_Ok _ _ _ Ho)). rewrite Hcls.
    cbv [isinstance_Py7zrArchivePath negb]. rewrite Ha.
    assert (Hc : isinstance_ArchivePath (class o) = true) by (by rewrite Hcls).
    rewrite (bind_Ok _ _ _ _ _ (get_is_anchor_Ok _ _ _ Ho Hc)). rewrite Hanc. cbv [negb].
    rewrite Hpar. unfold not_None at 1. unfold bind at 1. unfold ret at 1.
    by eapply Hown.
Qed.

(** Entering the archive of the example session. *)
Example enter_vault : after (find_children 1) (vault None []) = inside_vault.
Proof. vm_compute. reflexivity. Qed.

Lemma get_archive_file_reuses_handle_witness :
  get_archive_file 2 inside_vault = Ok (Some vault_archive) inside_vault.
Proof.
  apply (get_archive_file_reuses_handle inside_vault 2 _ vault_archive eq_refl eq_refl).
  right. repeat split. exists 1. eexists. repeat split.
Defined.

(** An archive that cannot be decoded: [get_archive_file] prints
    [Decompression error:] with the decoder's message and returns [None],
    without asking for anything; [find_children] on the node then returns
    normally, having changed nothing but the output. *)
Theorem decompression_error_reported (s : state) (self pl : loc) (o po : PathObj)
    (p msg : string) :
  heap s !! self = Some o -> class o = Py7zrArchivePath ->
  archive_file o = None -> is_anchor o = true -> context o = true ->
  path o = Some p -> parent o = Some pl -> heap s !! pl = Some po -> backend po = "fs" ->
  SevenZipFile_open (world s) (FromPath p) None = ArchiveError msg ->
  let s' := with_stdout (stdout s ++ [Printed ("Decompression error: " +:+ msg)]) s in
  get_archive_file self s = Ok None s' /\
  find_children self s = Ok tt s'.
Proof.
  intros Ho Hcls Haf Hanc Hctx Hp Hpar Hpo Hb Hopen s'.
  assert (Hget : get_archive_file self s = Ok None s').
  { destruct recursion_limit_S as [n Hn].
    unfold get_archive_file. rewrite Hn.
    unfold get_archive_file_rec; fold get_archive_file_rec.
    rewrite (bind_Ok _ _ _ _ _ (deref_Ok _ _ _ Ho)). rewrite Hcls.
    cbv [isinstance_Py7zrArchivePath negb]. rewrite Haf.
    assert (Hc : isinstance_ArchivePath (class o) = true) by (by rewrite Hcls).
    rewrite (bind_Ok _ _ _ _ _ (get_is_anchor_Ok _ _ _ Ho Hc)). rewrite Hanc. cbv [negb].
    rewrite (bind_Ok _ _ _ _ _ (get_parent_Ok _ _ _ Ho)). rewrite Hpar.
    unfold not_None at 1. unfold bind at 1. unfold ret at 1.
    rewrite (bind_Ok _ _ _ _ _ (get_backend_Ok _ _ _ Hpo)). rewrite Hb, String.eqb_refl.
    assert (Hf : (sp <- get_path self ;; ret (FromPath sp)) s = Ok (FromPath p) s).
    { by rewrite (bind_Ok _ _ _ _ _ (get_path_cached _ _ _ _ Ho Hp)). }
    rewrite (bind_Ok _ _ _ _ _ Hf).
    unfold bind at 1. unfold gets at 1. rewrite Hopen.
    by rewrite (bind_Ok _ _ _ _ _ (with_terminal_Ok _ _ _ Ho Hctx)). }
  split; [exact Hget|].
  unfold find_children.
  rewrite (bind_Ok _ _ _ _ _ (deref_Ok _ _ _ Ho)). rewrite Haf.
  assert (Ho' : heap s' !! self = Some o) by exact Ho.
  assert (Hupd : (h <- get_archive_file self ;; update self (with_archive_file h)) s
                 = Ok tt s').
  { rewrite (bind_Ok _ _ _ _ _ Hget). rewrite (update_Ok _ _ _ _ Ho').
    f_equal. unfold set_obj. simpl.
    assert (E : with_archive_file None o = o) by (destruct o; simpl in *; by subst).
    rewrite E. rewrite list_insert_id by exact Ho. by destruct s. }
  rewrite (bind_Ok _ _ _ _ _ Hupd).
  rewrite (bind_Ok _ _ _ _ _ (deref_Ok _ _ _ Ho')). by rewrite Haf.
Qed.

Lemma decompression_error_reported_witness :
  let s := vault None [] in
  let s0 := mkState (ex_world "/elsewhere" None vault_archive) (heap s) (dicts s)
                    (term s) [] [] [] in
  let s' := with_stdout [Printed "Decompression error: not a 7z file"] s0 in
  get_archive_file 1 s0 = Ok None s' /\ find_children 1 s0 = Ok tt s'.
Proof.
  exact (decompression_error_reported
           (mkState (ex_world "/elsewhere" None vault_archive) (heap (vault None []))
                    (dicts (vault None [])) (term (vault None [])) [] [] [])
           1 0 _ _ "/data/archive.7z" "not a 7z file"
           eq_refl eq_refl eq_refl eq_refl eq_refl eq_refl eq_refl eq_refl eq_refl eq_refl).
Defined.

(* ================================================================== *)
(** * Reading a file of an archive: [v_open] *)
(* ================================================================== *)

(** The bytes are cached: [v_open] serves them without the archive. *)
Lemma v_open_cached (s : state) (self : loc) (o : PathObj) (path0 : string) (data : bytes) :
  heap s !! self = Some o -> class o = Py7zrArchivePath -> context o = true ->
  Dict.get path0 (child_data o) = Some data ->
  v_open self path0 false false s = Ok (BytesIO data) s /\
  v_open self path0 false true s
  = match utf8_decode (world s) data with
    | Some t => Ok (StringIO t) s
    | None => Raise UnicodeDecodeError s
    end /\
  forall text,
    v_open self path0 true text s
    = Ok (TempPath (mkstemp_name (world s) (length (tmpfs s)) (snd (splitext path0))))
         (with_tempfile (mkstemp_name (world s) (length (tmpfs s)) (snd (splitext path0)))
                        data s).
Proof.
  intros Ho Hcls Hctx Hdata.
  assert (Hm : Dict.mem path0 (child_data o) = true) by (unfold Dict.mem; by rewrite Hdata).
  assert (Hpre : forall temp text,
            v_open self path0 temp text s
            = (data <- match Dict.get path0 (child_data o) with
                       | Some d => ret d
                       | None => raise (KeyError path0)
                       end ;;
               if temp then
                 w <- gets world ;;
                 fs <- gets tmpfs ;;
                 let file := mkstemp_name w (length fs) (snd (splitext path0)) in
                 modify (with_tmpfs (Dict.set file [] fs)) ;;;
                 with_terminal self ;;;
                 add_tempfile file ;;;
                 modify (fun s => with_tmpfs (Dict.set file data (tmpfs s)) s) ;;;
                 ret (TempPath file)
               else if text then
                 w <- gets world ;;
                 match utf8_decode w data with
                 | Some t => ret (StringIO t)
                 | None => raise UnicodeDecodeError
                 end
               else ret (BytesIO data)) s).
  { intros temp text. unfold v_open.
    rewrite (bind_Ok _ _ _ _ _ (deref_Ok _ _ _ Ho)). rewrite Hcls.
    cbv [isinstance_Py7zrArchivePath]. unfold Py7zrArchivePath_v_open.
    rewrite (bind_Ok _ _ _ _ _ (deref_Ok _ _ _ Ho)). rewrite Hm. cbv [negb].
    unfold ret at 1. unfold bind at 1.
    by rewrite (bind_Ok _ _ _ _ _ (deref_Ok _ _ _ Ho)). }
  split; [|split].
  - rewrite Hpre, Hdata. reflexivity.
  - rewrite Hpre, Hdata. unfold ret at 1. unfold bind at 1.
    cbv [bind gets]. by destruct (utf8_decode (world s) data).
  - intros text. rewrite Hpre, Hdata. unfold ret at 1. unfold bind at 1.
    cbv [bind gets modify with_terminal get_context deref add_tempfile ret].
    simpl. rewrite Ho. simpl. rewrite Hctx. simpl.
    reflexivity.
Qed.

(** The first read of an entry fetches its bytes from the archive, under
    the entry's path relative to the anchor, and caches them. *)
Lemma v_open_first (s : state) (self : loc) (o : PathObj) (h : SevenZipFile)
    (path0 p a rel : string) (data : bytes) (temp text : bool) :
  heap s !! self = Some o -> class o = Py7zrArchivePath ->
  path o = Some p -> anchor o = Some a -> archive_file o = Some h ->
  Dict.get path0 (child_data o) = None ->
  relpath (cwd (world s)) (join p path0) a = Some rel ->
  Dict.get (as_posix rel) (contents h) = Some data ->
  v_open self path0 temp text s
  = v_open self path0 temp text
      (set_obj self (with_child_data (Dict.set path0 data (child_data o)) o) s).
Proof.
  intros Ho Hcls Hp Ha Hh Hnone Hrel Hdata.
  assert (Hlt : self < length (heap s)) by (eapply lookup_lt_Some; eauto).
  assert (Hc : isinstance_ArchivePath (class o) = true) by (by rewrite Hcls).
  set (o1 := with_child_data _ o). set (s1 := set_obj self o1 s).
  assert (Ho1 : heap s1 !! self = Some o1) by (by apply heap_set_obj_eq).
  assert (Hm1 : Dict.mem path0 (child_data o1) = true).
  { unfold o1, Dict.mem. simpl. by rewrite Dict_get_set_eq. }
  unfold v_open.
  rewrite (bind_Ok _ _ _ _ _ (deref_Ok _ _ _ Ho)).
  rewrite (bind_Ok _ _ _ _ _ (deref_Ok _ _ _ Ho1)).
  replace (class o1) with (class o) by reflexivity. rewrite Hcls.
  cbv [isinstance_Py7zrArchivePath]. unfold Py7zrArchivePath_v_open.
  rewrite (bind_Ok _ _ _ _ _ (deref_Ok _ _ _ Ho)).
  rewrite (bind_Ok _ _ _ _ _ (deref_Ok _ _ _ Ho1)).
  rewrite Hm1. unfold Dict.mem. rewrite Hnone. cbv [negb].
  assert (Hfetch :
    (sp <- get_path self ;;
     a0 <- get_anchor self ;;
     w <- gets world ;;
     rel0 <- match relpath (cwd w) (join sp path0) a0 with
             | Some r => ret r
             | None => raise ValueError
             end ;;
     h0 <- not_None (archive_file o) ;;
     data0 <- SevenZipFile_read h0 (as_posix rel0) ;;
     update self (fun o' => with_child_data (Dict.set path0 data0 (child_data o')) o')) s
    = Ok tt s1).
  { rewrite (bind_Ok _ _ _ _ _ (get_path_cached _ _ _ _ Ho Hp)).
    rewrite (bind_Ok _ _ _ _ _ (get_anchor_cached _ _ _ _ Ho Hc Ha)).
    unfold gets at 1. unfold bind at 1. rewrite Hrel.
    unfold ret at 1. unfold bind at 1. rewrite Hh.
    unfold not_None at 1. unfold ret at 1. unfold bind at 1.
    unfold SevenZipFile_read. rewrite Hdata. unfold ret at 1. unfold bind at 1.
    by rewrite (update_Ok _ _ _ _ Ho). }
  rewrite (bind_Ok _ _ _ _ _ Hfetch).
  unfold ret at 2. unfold bind at 3. reflexivity.
Qed.

(** Reading a file entry of an archive as a temporary file and as a byte
    stream gives the same bytes, those the archive stores under the
    entry's path relative to the anchor, in whichever order the two reads
    happen; the temporary file is queued for cleanup with the terminal. *)
Theorem v_open_temp_equals_stream (s : state) (self : loc) (o : PathObj)
    (h : SevenZipFile) (path0 p a rel : string) (data : bytes) :
  heap s !! self = Some o -> class o = Py7zrArchivePath -> context o = true ->
  path o = Some p -> anchor o = Some a -> archive_file o = Some h ->
  Dict.get path0 (child_data o) = None ->
  relpath (cwd (world s)) (join p path0) a = Some rel ->
  Dict.get (as_posix rel) (contents h) = Some data ->
  let s1 := set_obj self (with_child_data (Dict.set path0 data (child_data o)) o) s in
  let f := mkstemp_name (world s) (length (tmpfs s)) (snd (splitext path0)) in
  let s2 := with_tempfile f data s1 in
  v_open self path0 false false s = Ok (BytesIO data) s1 /\
  v_open self path0 true false s = Ok (TempPath f) s2 /\
  Dict.get f (tmpfs s2) = Some data /\
  In f (tempfiles (term s2)) /\
  v_open self path0 true false s1 = Ok (TempPath f) s2 /\
  v_open self path0 false false s2 = Ok (BytesIO data) s2.
Proof.
  intros Ho Hcls Hctx Hp Ha Hh Hnone Hrel Hdata s1 f s2.
  assert (Hlt : self < length (heap s)) by (eapply lookup_lt_Some; eauto).
  set (o1 := with_child_data (Dict.set path0 data (child_data o)) o).
  assert (Ho1 : heap s1 !! self = Some o1) by (by apply heap_set_obj_eq).
  assert (Hd1 : Dict.get path0 (child_data o1) = Some data).
  { unfold o1. simpl. by rewrite Dict_get_set_eq. }
  destruct (v_open_cached s1 self o1 path0 data Ho1 Hcls Hctx Hd1) as (Hb & _ & Ht).
  assert (Ho2 : heap s2 !! self = Some o1) by exact Ho1.
  destruct (v_open_cached s2 self o1 path0 data Ho2 Hcls Hctx Hd1) as (Hb2 & _ & _).
  split; [|split; [|split; [|split; [|split]]]].
  - rewrite (v_open_first s self o h path0 p a rel data false false) by assumption.
    exact Hb.
  - rewrite (v_open_first s self o h path0 p a rel data true false) by assumption.
    exact (Ht false).
  - unfold s2, with_tempfile. simpl. by rewrite Dict_get_set_eq.
  - unfold s2, with_tempfile. simpl. apply in_or_app. right. by left.
  - exact (Ht false).
  - exact Hb2.
Qed.

Lemma v_open_temp_equals_stream_witness :
  let docs := mkPathObj Py7zrArchivePath "docs" (Some 1) "py7zr" "7z"
                (Some "/data/archive.7z/docs") true (Some 2)
                false (Some "/data/archive.7z") [] (Some vault_archive) in
  let s := set_obj 2 docs inside_vault in
  let s1 := set_obj 2 (with_child_data [("notes.txt", notes_bytes)] docs) s in
  let s2 := with_tempfile "/tmp/tmp.txt" notes_bytes s1 in
  v_open 2 "notes.txt" false false s = Ok (BytesIO notes_bytes) s1 /\
  v_open 2 "notes.txt" true false s = Ok (TempPath "/tmp/tmp.txt") s2 /\
  Dict.get "/tmp/tmp.txt" (tmpfs s2) = Some notes_bytes /\
  In "/tmp/tmp.txt" (tempfiles (term s2)) /\
  v_open 2 "notes.txt" true false s1 = Ok (TempPath "/tmp/tmp.txt") s2 /\
  v_open 2 "notes.txt" false false s2 = Ok (BytesIO notes_bytes) s2.
Proof.
  exact (v_open_temp_equals_stream
           (set_obj 2 (mkPathObj Py7zrArchivePath "docs" (Some 1) "py7zr" "7z"
                         (Some "/data/archive.7z/docs") true (Some 2)
                         false (Some "/data/archive.7z") [] (Some vault_archive))
                    inside_vault)
           2 _ vault_archive "notes.txt" "/data/archive.7z/docs" "/data/archive.7z"
           "docs/notes.txt" notes_bytes
           eq_refl eq_refl eq_refl eq_refl eq_refl eq_refl eq_refl eq_refl eq_refl).
Defined.

(* ================================================================== *)
(** * Which entries of the archive a node lists: [filter_children] *)
(* ================================================================== *)

Lemma Dict_mem_set {V} (x k : string) (v : V) (d : Dict.t V) :
  Dict.mem x (Dict.set k v d) = (x =? k) || Dict.mem x d.
Proof.
  destruct (String.eqb_spec x k) as [->|Hne]; simpl.
  - unfold Dict.mem. by rewrite Dict_get_set_eq.
  - by apply Dict_mem_set_ne.
Qed.

(** The loop of [filter_children] on a node whose path and anchor are
    cached: a fold over the entries that leaves the state alone. *)
Lemma filter_children_loop_fold (s : state) (self : loc) (o : PathObj) (p a : string)
    (r : dref) (d : Dict.t loc) (files0 : list FileInfo) (acc : Dict.t FileInfo) :
  heap s !! self = Some o -> isinstance_ArchivePath (class o) = true ->
  path o = Some p -> anchor o = Some a ->
  children o = Some r -> dicts s !! r = Some d ->
  filter_children_loop self files0 acc s
  = Ok (fold_left (fun acc f =>
                     if belongs p a d f then Dict.set (basename (filename f)) f acc else acc)
                  files0 acc) s.
Proof.
  intros Ho Hc Hp Ha Hch Hd. revert acc.
  induction files0 as [|f files0 IH]; intros acc; simpl; [reflexivity|].
  rewrite (bind_Ok _ _ _ _ _ (get_path_cached _ _ _ _ Ho Hp)).
  rewrite (bind_Ok _ _ _ _ _ (get_anchor_cached _ _ _ _ Ho Hc Ha)).
  unfold belongs.
  destruct (normpath p =? normpath (dirname (join a (filename f)))); simpl; [|apply IH].
  rewrite (bind_Ok _ _ _ _ _ (get_children_ref_Ok _ _ _ _ Ho Hch)).
  rewrite (bind_Ok _ _ _ _ _ (read_dict_Ok _ _ _ Hd)).
  destruct (Dict.mem (basename (filename f)) d); simpl; apply IH.
Qed.

Lemma fold_belongs_mem (p a : string) (d : Dict.t loc) (files0 : list FileInfo)
    (acc : Dict.t FileInfo) (n : string) :
  Dict.mem n (fold_left (fun acc f =>
                if belongs p a d f then Dict.set (basename (filename f)) f acc else acc)
              files0 acc) = true
  <-> Dict.mem n acc = true \/
      exists f, In f files0 /\ basename (filename f) = n /\ belongs p a d f = true.
Proof.
  revert acc. induction files0 as [|f files0 IH]; intros acc; simpl.
  - split; [auto | intros [H | (f & [] & _)]; exact H].
  - rewrite IH. destruct (belongs p a d f) eqn:Hb.
    + rewrite Dict_mem_set. split.
      * intros [H | (f' & Hin & Hn & Hb')].
        -- apply orb_true_iff in H as [H | H]; [|by left].
           apply String.eqb_eq in H. right. exists f. auto.
        -- right. exists f'. auto.
      * intros [H | (f' & [<- | Hin] & Hn & Hb')].
        -- left. rewrite H. apply orb_true_r.
        -- left. rewrite <- Hn, String.eqb_refl. reflexivity.
        -- right. exists f'. auto.
    + split.
      * intros [H | (f' & Hin & Hn & Hb')]; [by left|]. right. exists f'. auto.
      * intros [H | (f' & [<- | Hin] & Hn & Hb')]; [by left | congruence |].
        right. exists f'. auto.
Qed.

(** [filter_children] on a node whose path and anchor are cached: it
    returns without changing anything, and a name is selected exactly
    when some entry of the archive has it as basename, lies directly in
    the node's directory (the normalized dirname of the anchor joined
    with the entry's internal path is the node's normalized path) and is
    not yet a child of the node. *)
Theorem filter_children_selects (s : state) (self : loc) (o : PathObj) (p a : string)
    (r : dref) (d : Dict.t loc) (files0 : list FileInfo) :
  heap s !! self = Some o -> isinstance_ArchivePath (class o) = true ->
  path o = Some p -> anchor o = Some a ->
  children o = Some r -> dicts s !! r = Some d ->
  exists sel,
    filter_children self files0 s = Ok sel s /\
    forall n,
      Dict.mem n sel = true
      <-> exists f, In f files0 /\ basename (filename f) = n /\
            normpath p = normpath (dirname (join a (filename f))) /\
            Dict.mem n d = false.
Proof.
  intros Ho Hc Hp Ha Hch Hd. eexists. split.
  - unfold filter_children. by eapply filter_children_loop_fold.
  - intros n. rewrite fold_belongs_mem. split.
    + intros [H | (f & Hin & Hn & Hb)]; [discriminate|].
      exists f. unfold belongs in Hb. apply andb_true_iff in Hb as [H1 H2].
      apply String.eqb_eq in H1. apply negb_true_iff in H2. rewrite Hn in H2. auto.
    + intros (f & Hin & Hn & H1 & H2). right. exists f.
      unfold belongs. rewrite Hn, H2. apply String.eqb_eq in H1. rewrite H1. auto.
Qed.

Lemma filter_children_selects_witness :
  exists sel,
    filter_children 2 (files vault_archive) inside_vault = Ok sel inside_vault /\
    forall n,
      Dict.mem n sel = true
      <-> exists f, In f (files vault_archive) /\ basename (filename f) = n /\
            normpath "/data/archive.7z/docs"
            = normpath (dirname (join "/data/archive.7z" (filename f))) /\
            Dict.mem n ([] : Dict.t loc) = false.
Proof.
  exact (filter_children_selects inside_vault 2 _ "/data/archive.7z/docs" "/data/archive.7z"
           2 [] (files vault_archive) eq_refl eq_refl eq_refl eq_refl eq_refl eq_refl).
Defined.

(* ================================================================== *)
(** * The terminal's type table and [add_path] *)
(* ================================================================== *)

Lemma fold_pick_none ext (m : Dict.t (Class * list string)) (t : string) :
  (forall cand, In cand m -> existsb (String.eqb ext) (snd (snd cand)) = false) ->
  fold_left (pick_type ext) m t = t.
Proof.
  revert t. induction m as [|cand m IH]; intros t H; simpl; [reflexivity|].
  unfold pick_type at 2. rewrite (H cand (or_introl eq_refl)).
  apply IH. intros c Hc. apply H. by right.
Qed.

(** [get_path_type] reads the terminal's table and changes nothing: a
    name whose extension no type lists gets the default (of directories
    or of files), and otherwise the type that lists the extension last in
    the table. *)
Theorem get_path_type_last_match (s : state) (path0 : string) (is_dir : bool)
    (default_type default_dir_type : string) :
  let mapping := if is_dir then dir_map (term s) else file_map (term s) in
  let ext := snd (splitext path0) in
  exists t,
    get_path_type path0 is_dir default_type default_dir_type s = Ok t s /\
    ((forall cand, In cand mapping -> existsb (String.eqb ext) (snd (snd cand)) = false) ->
     t = if is_dir then default_dir_type else default_type) /\
    (forall before k c exts after_,
       mapping = before ++ (k, (c, exts)) :: after_ ->
       In ext exts ->
       (forall cand, In cand after_ -> existsb (String.eqb ext) (snd (snd cand)) = false) ->
       t = k).
Proof.
  intros mapping ext. eexists. split; [reflexivity|]. split.
  - intros H. by apply fold_pick_none.
  - intros before k c exts after_ Hm Hin Hafter.
    change (fold_left (pick_type ext) mapping
              (if is_dir then default_dir_type else default_type) = k).
    rewrite Hm, fold_left_app. simpl.
    rewrite fold_pick_none by exact Hafter.
    unfold pick_type. simpl.
    assert (E : existsb (String.eqb ext) exts = true).
    { apply existsb_exists. exists ext. split; [exact Hin | apply String.eqb_refl]. }
    by rewrite E.
Qed.

Example get_path_type_main :
  get_path_type "clip.mp4" false "text" "dir" (fresh bare_world []) = Ok "video" (fresh bare_world []) /\
  get_path_type "README" false "text" "dir" (fresh bare_world []) = Ok "text" (fresh bare_world []) /\
  get_path_type "backup.7z" true "text" "dir" (fresh bare_world []) = Ok "7z" (fresh bare_world []) /\
  get_path_type "/home/u/src" true "text" "dir" (fresh bare_world []) = Ok "dir" (fresh bare_world []).
Proof. repeat split. Qed.

(** [add_path(..., parent=True)] with a backend other than the
    filesystem is refused: it emits an [UnsupportedOperationWarning] and
    adds, constructs and reparents nothing. *)
Theorem add_path_parent_unsupported (s : state) (name0 : string) (is_dir : bool)
    (path_type0 : option string) (default_type default_dir_type backend0 : string)
    (dest0 : option loc) (init_kwargs : option bool) :
  backend0 <> "fs" ->
  add_path name0 is_dir path_type0 default_type default_dir_type true backend0 dest0
           init_kwargs s
  = Ok tt (with_stdout
             (stdout s ++
              [Warned "UnsupportedOperationWarning"
                 "Adding parent paths outside of the filesystem is unsupported at this time."])
             s).
Proof.
  intros Hb. apply String.eqb_neq in Hb. unfold add_path.
  unfold gets at 1. unfold bind at 1.
  assert (Hpt : exists t, match path_type0 with
                          | Some p => ret p
                          | None => get_path_type name0 is_dir default_type default_dir_type
                          end s = Ok t s).
  { destruct path_type0; eexists; reflexivity. }
  destruct Hpt as [t Ht]. rewrite (bind_Ok _ _ _ _ _ Ht).
  rewrite Hb. reflexivity.
Qed.

Lemma add_path_parent_unsupported_witness :
  add_path ".." true None "text" "dir" true "py7zr" None None inside_vault
  = Ok tt (with_stdout
             [Warned "UnsupportedOperationWarning"
                "Adding parent paths outside of the filesystem is unsupported at this time."]
             inside_vault).
Proof.
  apply (add_path_parent_unsupported inside_vault ".." true None "text" "dir" "py7zr" None None).
  discriminate.
Defined.

(* ================================================================== *)
(** * The path cached by the constructors *)
(* ================================================================== *)

#[global] Instance paths_cached_preorder : PreOrder paths_cached.
Proof.
  split.
  - intros s l o p Ho Hp. eauto.
  - intros s1 s2 s3 H12 H23 l o p Ho Hp.
    destruct (H12 l o p Ho Hp) as (o' & Ho' & Hp'). eauto.
Qed.

Lemma same_heap_paths_cached s s' : heap s' = heap s -> paths_cached s s'.
Proof. intros E l o p Ho Hp. rewrite E. eauto. Qed.

Lemma only_warns_paths_cached s s' : only_warns s s' -> paths_cached s s'.
Proof. intros (ws & -> & _). by apply same_heap_paths_cached. Qed.

(** An update that leaves the [path] attribute alone. *)
Lemma keeps_update_paths_cached l f :
  (forall o, path (f o) = path o) -> keeps paths_cached (update l f).
Proof.
  intros Hf. apply keeps_update; [apply _|].
  intros s o Ho l' o' p Ho' Hp.
  destruct (decide (l = l')) as [E|Hne].
  - subst l'. assert (E : Some o = Some o') by exact (eq_trans (eq_sym Ho) Ho').
    injection E as <-.
    exists (f o). split.
    + apply heap_set_obj_eq. eapply lookup_lt_Some; eauto.
    + by rewrite Hf.
  - exists o'. split; [by rewrite heap_set_obj_ne | done].
Qed.

Lemma keeps_get_path_paths_cached self : keeps paths_cached (get_path self).
Proof.
  eapply keeps_weaken; [apply only_warns_paths_cached|].
  exact (keeps_get_path_rec_only_warns _ self).
Qed.

Lemma keeps_get_anchor_paths_cached self : keeps paths_cached (get_anchor self).
Proof.
  eapply keeps_weaken; [apply only_warns_paths_cached|].
  exact (keeps_get_anchor_rec_only_warns _ self).
Qed.

Lemma keeps_first_value_paths_cached self : keeps paths_cached (first_value self).
Proof.
  eapply keeps_weaken; [apply only_warns_paths_cached|].
  exact (keeps_first_value_only_warns self).
Qed.

Lemma keeps_new_dict_paths_cached d : keeps paths_cached (new_dict d).
Proof. intros s. by apply same_heap_paths_cached. Qed.

Lemma keeps_write_dict_paths_cached r d : keeps paths_cached (write_dict r d).
Proof. intros s. by apply same_heap_paths_cached. Qed.

Lemma keeps_new_paths_cached c : keeps paths_cached (new c).
Proof.
  intros s l o p Ho Hp. exists o. split; [|done]. simpl.
  apply lookup_app_l_Some. exact Ho.
Qed.

(** Finishing the goals [keeps_tac] leaves, for [paths_cached]. *)
Ltac keeps_paths :=
  keeps_tac; intros;
  lazymatch goal with
  | |- keeps _ (update _ _) => apply keeps_update_paths_cached; reflexivity
  | |- keeps _ (get_path _) => apply keeps_get_path_paths_cached
  | |- keeps _ (get_anchor _) => apply keeps_get_anchor_paths_cached
  | |- keeps _ (first_value _) => apply keeps_first_value_paths_cached
  | |- keeps _ (new_dict _) => apply keeps_new_dict_paths_cached
  | |- keeps _ (write_dict _ _) => apply keeps_write_dict_paths_cached
  | |- keeps _ (new _) => apply keeps_new_paths_cached
  end.

Lemma keeps_set_context_paths_cached self ctx : keeps paths_cached (set_context self ctx).
Proof. unfold set_context, DirPath_set_context, Path_set_context. keeps_paths. Qed.

(** Using [keeps] on a computation that returned. *)
Lemma keeps_Ok {A} (R : state -> state -> Prop) (m : M A) s a s' :
  keeps R m -> m s = Ok a s' -> R s s'.
Proof. intros H E. specialize (H s). by rewrite E in H. Qed.

(** [Path.__init__] leaves the node with a cached path. *)
Lemma Path_init_path self name0 parent0 backend0 path_type0 context0 s s' :
  Path_init self name0 parent0 backend0 path_type0 context0 s = Ok tt s' ->
  exists o p, heap s' !! self = Some o /\ path o = Some p.
Proof.
  unfold Path_init. intros H.
  do 4 (apply bind_Ok_inv in H as (? & ? & _ & H)).
  apply bind_Ok_inv in H as (w & ? & _ & H).
  apply bind_Ok_inv in H as (? & ? & _ & H).
  apply bind_Ok_inv in H as (p & s5 & _ & H).
  apply bind_Ok_inv in H as (? & s6 & Hupd & H).
  apply update_inv in Hupd as (o5 & Ho5 & ->).
  assert (Hrest : keeps paths_cached
            (update self (with_context context0) ;;; set_context self context0)).
  { keeps_tac; intros;
      lazymatch goal with
      | |- keeps _ (update _ _) => apply keeps_update_paths_cached; reflexivity
      | |- keeps _ (set_context _ _) => apply keeps_set_context_paths_cached
      end. }
  apply (keeps_Ok _ _ _ _ _ Hrest) in H.
  destruct (H self (with_path (Some p) o5) p) as (o' & Ho' & Hp'); [|reflexivity|eauto].
  apply heap_set_obj_eq. eapply lookup_lt_Some; eauto.
Qed.

(** A cached path survives a computation that keeps cached paths. *)
Lemma cached_after {A} (m : M A) (self : loc) s a s' :
  keeps paths_cached m -> m s = Ok a s' ->
  (exists o p, heap s !! self = Some o /\ path o = Some p) ->
  exists o p, heap s' !! self = Some o /\ path o = Some p.
Proof.
  intros Hk Hm (o & p & Ho & Hp).
  destruct (keeps_Ok _ _ _ _ _ Hk Hm self o p Ho Hp) as (o' & Ho' & Hp'). eauto.
Qed.

Lemma DirPath_init_path self name0 parent0 backend0 path_type0 children0 context0 s s' :
  DirPath_init self name0 parent0 backend0 path_type0 children0 context0 s = Ok tt s' ->
  exists o p, heap s' !! self = Some o /\ path o = Some p.
Proof.
  unfold DirPath_init. intros H.
  apply bind_Ok_inv in H as (? & ? & _ & H).
  apply bind_Ok_inv in H as ([] & s2 & Hinit & H).
  apply Path_init_path in Hinit.
  eapply cached_after; [|exact H|exact Hinit].
  keeps_paths.
Qed.

Lemma VirtualDirPath_init_path self name0 parent0 backend0 path_type0 s s' :
  VirtualDirPath_init self name0 parent0 backend0 path_type0 s = Ok tt s' ->
  exists o p, heap s' !! self = Some o /\ path o = Some p.
Proof.
  unfold VirtualDirPath_init. intros H.
  apply bind_Ok_inv in H as (? & ? & _ & H).
  apply bind_Ok_inv in H as (? & ? & _ & H).
  by apply Path_init_path in H.
Qed.

Lemma ArchivePath_init_path self name0 parent0 path_type0 is_anchor0 s s' :
  ArchivePath_init self name0 parent0 path_type0 is_anchor0 s = Ok tt s' ->
  exists o p, heap s' !! self = Some o /\ path o = Some p.
Proof.
  unfold ArchivePath_init. intros H.
  apply bind_Ok_inv in H as ([] & s2 & Hinit & H).
  apply VirtualDirPath_init_path in Hinit.
  eapply cached_after; [|exact H|exact Hinit].
  keeps_paths.
Qed.

Lemma Py7zrArchivePath_init_path self name0 parent0 path_type0 is_anchor0 s s' :
  Py7zrArchivePath_init self name0 parent0 path_type0 is_anchor0 s = Ok tt s' ->
  exists o p, heap s' !! self = Some o /\ path o = Some p.
Proof.
  unfold Py7zrArchivePath_init. intros H.
  apply bind_Ok_inv in H as ([] & s2 & Hinit & H).
  apply ArchivePath_init_path in Hinit.
  eapply cached_after; [|exact H|exact Hinit].
  keeps_paths.
Qed.

(** Every class hands out its instances with the path cached. *)
Lemma construct_path c kw s l s' :
  construct c kw s = Ok l s' ->
  exists o p, heap s' !! l = Some o /\ path o = Some p.
Proof.
  unfold construct. intros H.
  destruct c;
    match type of H with
    | (if ?b then _ else _) _ = _ => destruct b; [|discriminate]
    end;
    apply bind_Ok_inv in H as (self & s1 & _ & H);
    apply bind_Ok_inv in H as ([] & s2 & Hinit & H);
    injection H as <- <-;
    first [ by apply Path_init_path in Hinit
          | by apply DirPath_init_path in Hinit
          | by apply VirtualDirPath_init_path in Hinit
          | by apply ArchivePath_init_path in Hinit
          | by apply Py7zrArchivePath_init_path in Hinit ].
Qed.

Lemma keeps_mutate_paths_cached m : keeps paths_cached (mutate m).
Proof.
  destruct m; simpl;
    unfold __setitem__, DirPath_absorb, Path_absorb;
    unfold set_name, set_parent, set_type,
      get_children, get_children_ref, get_name, get_parent, get_type;
    keeps_paths.
Qed.

Lemma run_mutations_paths_cached ms s : paths_cached s (run_mutations ms s).
Proof.
  revert s. induction ms as [|m ms IH]; intros s; simpl; [reflexivity|].
  etrans; [apply (keeps_mutate_paths_cached m s) | apply IH].
Qed.

(** The path of a node is computed and cached while the node is
    constructed, by whichever class: from then on [get_path()] returns
    that string and changes nothing, also after any sequence of
    [set_name], [set_parent], [set_type] and [D[key] = value] (which
    includes the absorbing [D['.'] = x] and the reparenting
    [D['..'] = x]) on this or any other node. *)
Theorem constructed_path_is_stable (c : Class) (kw : kwargs) (s s1 : state) (l : loc) :
  construct c kw s = Ok l s1 ->
  exists p,
    get_path l s1 = Ok p s1 /\
    forall ms, get_path l (run_mutations ms s1) = Ok p (run_mutations ms s1).
Proof.
  intros H. apply construct_path in H as (o & p & Ho & Hp).
  exists p. split; [by eapply get_path_cached|].
  intros ms.
  destruct (run_mutations_paths_cached ms s1 l o p Ho Hp) as (o' & Ho' & Hp').
  by eapply get_path_cached.
Qed.

Lemma constructed_path_is_stable_witness :
  let kw := mkKwargs "notes.txt" (Some 2) "py7zr" "text" None None in
  let s1 := after (construct TextFile kw) inside_vault in
  exists p,
    get_path 3 s1 = Ok p s1 /\
    forall ms, get_path 3 (run_mutations ms s1) = Ok p (run_mutations ms s1).
Proof.
  refine (constructed_path_is_stable TextFile
            (mkKwargs "notes.txt" (Some 2) "py7zr" "text" None None) inside_vault _ 3 _).
  vm_compute. reflexivity.
Defined.

(* ================================================================== *)
(** * What the constructors leave in the store *)
(* ================================================================== *)

Lemma only_warns_heap s s' : only_warns s s' -> heap s' = heap s /\ dicts s' = dicts s.
Proof. intros (ws & -> & _). auto. Qed.

Lemma get_path_Ok_heap self s p s' :
  get_path self s = Ok p s' -> heap s' = heap s /\ dicts s' = dicts s.
Proof.
  intros H. apply only_warns_heap.
  exact (keeps_Ok _ _ _ _ _ (keeps_get_path_rec_only_warns _ self) H).
Qed.

Lemma get_anchor_rec_Ok_heap fuel self s a s' :
  get_anchor_rec fuel self s = Ok a s' -> heap s' = heap s /\ dicts s' = dicts s.
Proof.
  intros H. apply only_warns_heap.
  exact (keeps_Ok _ _ _ _ _ (keeps_get_anchor_rec_only_warns fuel self) H).
Qed.

Lemma with_context_id o : with_context (context o) o = o.
Proof. by destruct o. Qed.

(** An update, seen on the heap alone. *)
Lemma update_heap l f u s s' o :
  update l f s = Ok u s' -> heap s !! l = Some o ->
  heap s' = <[l := f o]> (heap s) /\ dicts s' = dicts s.
Proof.
  intros H Ho. apply update_inv in H as (o' & Ho' & ->).
  assert (E : Some o' = Some o) by exact (eq_trans (eq_sym Ho') Ho).
  injection E as ->. auto.
Qed.

(** [set_context] touches the [context] attribute of the node only. *)
Lemma set_context_heap self ctx s s' o :
  set_context self ctx s = Ok tt s' -> heap s !! self = Some o ->
  exists c', heap s' = <[self := with_context c' o]> (heap s) /\ dicts s' = dicts s.
Proof.
  intros H Ho.
  assert (Hid : heap s = <[self := with_context (context o) o]> (heap s)).
  { rewrite with_context_id. symmetry. by apply list_insert_id. }
  assert (Hupd : forall c' s0, update self (with_context c') s = Ok tt s0 ->
            exists c'', heap s0 = <[self := with_context c'' o]> (heap s) /\
                        dicts s0 = dicts s).
  { intros c' s0 Hu. exists c'. by eapply update_heap. }
  unfold set_context in H.
  apply bind_Ok_inv in H as (o1 & s1 & Hd & H).
  apply deref_inv in Hd as [_ ->].
  destruct (isinstance_DirPath (class o1)).
  - unfold DirPath_set_context in H.
    apply bind_Ok_inv in H as (o2 & s1 & Hd & H).
    apply deref_inv in Hd as [_ ->].
    destruct (negb ctx && negb (context o2)).
    + destruct (parent o2).
      * apply bind_Ok_inv in H as (po & s1 & Hd & H).
        apply deref_inv in Hd as [_ ->]. eauto.
      * apply bind_Ok_inv in H as (r & s1 & Hd & H).
        apply not_None_inv in Hd as [_ ->].
        apply bind_Ok_inv in H as (d & s1 & Hd & H).
        apply read_dict_inv in Hd as [_ ->].
        destruct d.
        -- injection H as <-. exists (context o). auto.
        -- apply bind_Ok_inv in H as (v & s1 & Hv & H).
           pose proof (only_warns_heap _ _
                         (keeps_Ok _ _ _ _ _ (keeps_first_value_only_warns self) Hv))
             as [Eh Ed].
           apply bind_Ok_inv in H as (c & s2 & Hd & H).
           apply not_None_inv in Hd as [_ ->].
           apply bind_Ok_inv in H as (co & s2 & Hd & H).
           apply deref_inv in Hd as [_ ->].
           assert (Ho1 : heap s1 !! self = Some o) by (by rewrite Eh).
           destruct (update_heap _ _ _ _ _ _ H Ho1) as [E1 E2].
           exists (context co). rewrite E1, E2, Eh, Ed. auto.
    + destruct (negb (context o2)); [eauto|].
      destruct ctx; [|discriminate]. injection H as <-. exists (context o). auto.
  - unfold Path_set_context in H.
    apply bind_Ok_inv in H as (o2 & s1 & Hd & H).
    apply deref_inv in Hd as [_ ->].
    destruct (negb ctx && negb (context o2)).
    + destruct (parent o2).
      * apply bind_Ok_inv in H as (po & s1 & Hd & H).
        apply deref_inv in Hd as [_ ->]. eauto.
      * injection H as <-. exists (context o). auto.
    + destruct (negb (context o2)); [eauto|].
      destruct ctx; [|discriminate]. injection H as <-. exists (context o). auto.
Qed.
Lemma insert_heap_lookup (h : list PathObj) (self : loc) (o o' : PathObj) :
  h !! self = Some o -> <[self := o']> h !! self = Some o'.
Proof. intros H. apply list_lookup_insert_eq. by apply lookup_lt_Some in H. Qed.

(** [Path.__init__] fills in the name, parent, backend, type and cached
    path of the node, and nothing else of the store. *)
Lemma Path_init_heap self name0 parent0 backend0 path_type0 ctx s s' o :
  Path_init self name0 parent0 backend0 path_type0 ctx s = Ok tt s' ->
  heap s !! self = Some o ->
  exists p c',
    heap s' = <[self := mkPathObj (class o) (basename name0) parent0 backend0
                          path_type0 (Some p) c' (children o) (is_anchor o)
                          (anchor o) (child_data o) (archive_file o)]> (heap s) /\
    dicts s' = dicts s.
Proof.
  intros H Ho. unfold Path_init in H.
  apply bind_Ok_inv in H as ([] & s1 & H1 & H).
  destruct (update_heap _ _ _ _ _ _ H1 Ho) as [E1 D1].
  assert (Ho1 : heap s1 !! self = Some (with_name (basename name0) o))
    by (rewrite E1; by eapply insert_heap_lookup).
  apply bind_Ok_inv in H as ([] & s2 & H2 & H).
  destruct (update_heap _ _ _ _ _ _ H2 Ho1) as [E2 D2].
  assert (Ho2 : heap s2 !! self = Some (with_parent parent0 (with_name (basename name0) o)))
    by (rewrite E2; by eapply insert_heap_lookup).
  apply bind_Ok_inv in H as ([] & s3 & H3 & H).
  destruct (update_heap _ _ _ _ _ _ H3 Ho2) as [E3 D3].
  match type of E3 with _ = <[_ := ?x]> _ =>
    assert (Ho3 : heap s3 !! self = Some x) by (rewrite E3; by eapply insert_heap_lookup) end.
  apply bind_Ok_inv in H as ([] & s4 & H4 & H).
  destruct (update_heap _ _ _ _ _ _ H4 Ho3) as [E4 D4].
  match type of E4 with _ = <[_ := ?x]> _ =>
    assert (Ho4 : heap s4 !! self = Some x) by (rewrite E4; by eapply insert_heap_lookup) end.
  apply bind_Ok_inv in H as (w & s4' & Hw & H). injection Hw as <- <-.
  apply bind_Ok_inv in H as ([] & s5 & H5 & H).
  destruct (update_heap _ _ _ _ _ _ H5 Ho4) as [E5 D5].
  match type of E5 with _ = <[_ := ?x]> _ =>
    assert (Ho5 : heap s5 !! self = Some x) by (rewrite E5; by eapply insert_heap_lookup) end.
  apply bind_Ok_inv in H as (p & s6 & H6 & H).
  destruct (get_path_Ok_heap _ _ _ _ H6) as [E6 D6].
  rewrite <- E6 in Ho5.
  apply bind_Ok_inv in H as ([] & s7 & H7 & H).
  destruct (update_heap _ _ _ _ _ _ H7 Ho5) as [E7 D7].
  match type of E7 with _ = <[_ := ?x]> _ =>
    assert (Ho7 : heap s7 !! self = Some x) by (rewrite E7; by eapply insert_heap_lookup) end.
  apply bind_Ok_inv in H as ([] & s8 & H8 & H).
  destruct (update_heap _ _ _ _ _ _ H8 Ho7) as [E8 D8].
  match type of E8 with _ = <[_ := ?x]> _ =>
    assert (Ho8 : heap s8 !! self = Some x) by (rewrite E8; by eapply insert_heap_lookup) end.
  destruct (set_context_heap _ _ _ _ _ H Ho8) as (c' & E9 & D9).
  exists p, c'. split; [|congruence].
  rewrite E9, E8, E7, E6, E5, E4, E3, E2, E1.
  rewrite !list_insert_insert_eq. reflexivity.
Qed.
Lemma new_dict_heap d r s s' : new_dict d s = Ok r s' -> heap s' = heap s.
Proof. by intros [= <- <-]. Qed.

Lemma write_dict_heap r d u s s' : write_dict r d s = Ok u s' -> heap s' = heap s.
Proof. unfold write_dict, modify. intros H. injection H as _ <-. reflexivity. Qed.

Lemma for_each_heap {A} (l : list A) (body : A -> M unit) :
  (forall x s s', body x s = Ok tt s' -> heap s' = heap s) ->
  forall s s', for_each l body s = Ok tt s' -> heap s' = heap s.
Proof.
  intros Hb. induction l as [|x l IH]; intros s s' H.
  - by injection H as <-.
  - simpl in H. apply bind_Ok_inv in H as ([] & s1 & H1 & H).
    rewrite (IH _ _ H). eauto.
Qed.

(** The first lines of [DirPath.__init__] bind [self.children]. *)
Lemma DirPath_children_heap self (children0 : children_arg) s s' o :
  match children0 with
  | ChildrenNone =>
      r <- new_dict [] ;; update self (with_children (Some r))
  | ChildrenList items =>
      r <- new_dict [] ;;
      update self (with_children (Some r)) ;;;
      for_each items (fun item =>
        n <- get_name item ;;
        d <- read_dict r ;;
        write_dict r (Dict.set n item d))
  | ChildrenDict r =>
      update self (with_children (Some r))
  | ChildrenPath child =>
      n <- get_name child ;;
      r <- new_dict [(n, child)] ;;
      update self (with_children (Some r))
  end s = Ok tt s' ->
  heap s !! self = Some o ->
  exists r, heap s' = <[self := with_children (Some r) o]> (heap s).
Proof.
  intros H Ho. destruct children0 as [|items|r|child].
  - apply bind_Ok_inv in H as (r & s1 & H1 & H).
    apply new_dict_heap in H1. rewrite <- H1 in Ho |- *.
    exists r. by eapply update_heap.
  - apply bind_Ok_inv in H as (r & s1 & H1 & H).
    apply new_dict_heap in H1. rewrite <- H1 in Ho |- *.
    apply bind_Ok_inv in H as ([] & s2 & H2 & H).
    exists r. destruct (update_heap _ _ _ _ _ _ H2 Ho) as [<- _].
    revert H. apply for_each_heap. clear. intros x s s' H.
    apply bind_Ok_inv in H as (n & s1 & H1 & H).
    unfold get_name in H1. apply bind_Ok_inv in H1 as (o & s2 & Hd & H1).
    apply deref_inv in Hd as [_ ->]. injection H1 as _ <-.
    apply bind_Ok_inv in H as (d & s1 & Hd & H).
    apply read_dict_inv in Hd as [_ ->]. by eapply write_dict_heap.
  - exists r. by eapply update_heap.
  - apply bind_Ok_inv in H as (n & s1 & H1 & H).
    unfold get_name in H1. apply bind_Ok_inv in H1 as (o1 & s2 & Hd & H1).
    apply deref_inv in Hd as [_ ->]. injection H1 as _ <-.
    apply bind_Ok_inv in H as (r & s1 & H1 & H).
    apply new_dict_heap in H1. rewrite <- H1 in Ho |- *.
    exists r. by eapply update_heap.
Qed.

(** [DirPath.__init__]: what [Path.__init__] does, with the children bound
    and, for a [..] that has children, the name taken from the path. *)
Lemma DirPath_init_heap self name0 parent0 backend0 path_type0 children0 ctx s s' o :
  DirPath_init self name0 parent0 backend0 path_type0 children0 ctx s = Ok tt s' ->
  heap s !! self = Some o ->
  exists nm p c' r,
    heap s' = <[self := mkPathObj (class o) nm parent0 backend0
                          path_type0 (Some p) c' (Some r) (is_anchor o)
                          (anchor o) (child_data o) (archive_file o)]> (heap s).
Proof.
  intros H Ho. unfold DirPath_init in H.
  apply bind_Ok_inv in H as ([] & s1 & H1 & H).
  destruct (DirPath_children_heap _ _ _ _ _ H1 Ho) as (r & E1).
  assert (Ho1 : heap s1 !! self = Some (with_children (Some r) o))
    by (rewrite E1; by eapply insert_heap_lookup).
  apply bind_Ok_inv in H as ([] & s2 & H2 & H).
  destruct (Path_init_heap _ _ _ _ _ _ _ _ _ H2 Ho1) as (p & c' & E2 & _).
  simpl in E2. rewrite E1, list_insert_insert_eq in E2.
  match type of E2 with _ = <[_ := ?x]> _ =>
    assert (Ho2 : heap s2 !! self = Some x) by (rewrite E2; by eapply insert_heap_lookup) end.
  apply bind_Ok_inv in H as (o2 & s2' & Hd & H). apply deref_inv in Hd as [_ ->].
  apply bind_Ok_inv in H as (r2 & s2' & Hd & H). apply not_None_inv in Hd as [_ ->].
  apply bind_Ok_inv in H as (d & s2' & Hd & H). apply read_dict_inv in Hd as [_ ->].
  destruct ((name o2 =? "..") && _).
  - apply bind_Ok_inv in H as (p2 & s3 & H3 & H).
    destruct (get_path_Ok_heap _ _ _ _ H3) as [E3 _].
    rewrite <- E3 in Ho2.
    destruct (update_heap _ _ _ _ _ _ H Ho2) as [E4 _].
    rewrite E4, E3, E2, list_insert_insert_eq. simpl. eauto.
  - injection H as <-. rewrite E2. eauto.
Qed.

(** [VirtualDirPath.__init__] *)
Lemma VirtualDirPath_init_heap self name0 parent0 backend0 path_type0 s s' o :
  VirtualDirPath_init self name0 parent0 backend0 path_type0 s = Ok tt s' ->
  heap s !! self = Some o ->
  exists p c' r,
    heap s' = <[self := mkPathObj (class o) (basename name0) parent0 backend0
                          path_type0 (Some p) c' (Some r) (is_anchor o)
                          (anchor o) (child_data o) (archive_file o)]> (heap s).
Proof.
  intros H Ho. unfold VirtualDirPath_init in H.
  apply bind_Ok_inv in H as (r & s1 & H1 & H).
  apply new_dict_heap in H1. rewrite <- H1 in Ho |- *.
  apply bind_Ok_inv in H as ([] & s2 & H2 & H).
  destruct (update_heap _ _ _ _ _ _ H2 Ho) as [E2 _].
  assert (Ho2 : heap s2 !! self = Some (with_children (Some r) o))
    by (rewrite E2; by eapply insert_heap_lookup).
  destruct (Path_init_heap _ _ _ _ _ _ _ _ _ H Ho2) as (p & c' & E3 & _).
  simpl in E3. rewrite E2, list_insert_insert_eq in E3. eauto.
Qed.
(** [ArchivePath.__init__]: an anchor caches its own path as its anchor, any
    other node caches what [get_anchor] finds while its own anchor is still
    [None]. *)
Lemma ArchivePath_init_heap self name0 parent0 path_type0 is_anchor0 s s' o :
  ArchivePath_init self name0 parent0 path_type0 is_anchor0 s = Ok tt s' ->
  heap s !! self = Some o ->
  isinstance_ArchivePath (class o) = true ->
  exists p c' r a,
    heap s' = <[self := mkPathObj (class o) (basename name0) parent0 "py7zr"
                          path_type0 (Some p) c' (Some r) is_anchor0
                          (Some a) [] (archive_file o)]> (heap s) /\
    if is_anchor0 then a = p
    else exists s4 s5,
      heap s4 = <[self := mkPathObj (class o) (basename name0) parent0 "py7zr"
                          path_type0 (Some p) c' (Some r) false
                          None (child_data o) (archive_file o)]> (heap s) /\
      get_anchor self s4 = Ok a s5.
Proof.
  intros H Ho Hc. unfold ArchivePath_init in H.
  apply bind_Ok_inv in H as ([] & s1 & H1 & H).
  destruct (VirtualDirPath_init_heap _ _ _ _ _ _ _ _ H1 Ho) as (p & c' & r & E1).
  match type of E1 with _ = <[_ := ?x]> _ =>
    assert (Ho1 : heap s1 !! self = Some x) by (rewrite E1; by eapply insert_heap_lookup) end.
  apply bind_Ok_inv in H as ([] & s2 & H2 & H).
  destruct (update_heap _ _ _ _ _ _ H2 Ho1) as [E2 _].
  unfold with_is_anchor in E2; simpl in E2.
  match type of E2 with _ = <[_ := ?x]> _ =>
    assert (Ho2 : heap s2 !! self = Some x) by (rewrite E2; by eapply insert_heap_lookup) end.
  rewrite E1, list_insert_insert_eq in E2.
  apply bind_Ok_inv in H as ([] & s3 & H3 & H).
  exists p, c', r.
  destruct is_anchor0.
  - apply bind_Ok_inv in H3 as (p' & s2' & Hp & H3).
    rewrite (get_path_cached _ _ p _ Ho2 eq_refl) in Hp. injection Hp as <- <-.
    destruct (update_heap _ _ _ _ _ _ H3 Ho2) as [E3 _].
    unfold with_anchor in E3; simpl in E3.
    match type of E3 with _ = <[_ := ?x]> _ =>
      assert (Ho3 : heap s3 !! self = Some x) by (rewrite E3; by eapply insert_heap_lookup) end.
    rewrite E2, list_insert_insert_eq in E3.
    apply bind_Ok_inv in H as (a & s4 & H4 & H).
    rewrite (get_anchor_cached _ _ p _ Ho3 Hc eq_refl) in H4. injection H4 as <- <-.
    apply bind_Ok_inv in H as ([] & s5 & H5 & H).
    destruct (update_heap _ _ _ _ _ _ H5 Ho3) as [E5 _].
    unfold with_anchor in E5; simpl in E5.
    match type of E5 with _ = <[_ := ?x]> _ =>
      assert (Ho5 : heap s5 !! self = Some x) by (rewrite E5; by eapply insert_heap_lookup) end.
    rewrite E3, list_insert_insert_eq in E5.
    destruct (update_heap _ _ _ _ _ _ H Ho5) as [E6 _].
    unfold with_child_data in E6; simpl in E6.
    rewrite E5, list_insert_insert_eq in E6.
    exists p. auto.
  - destruct (update_heap _ _ _ _ _ _ H3 Ho2) as [E3 _].
    unfold with_anchor in E3; simpl in E3.
    match type of E3 with _ = <[_ := ?x]> _ =>
      assert (Ho3 : heap s3 !! self = Some x) by (rewrite E3; by eapply insert_heap_lookup) end.
    rewrite E2, list_insert_insert_eq in E3.
    apply bind_Ok_inv in H as (a & s4 & H4 & H).
    destruct (get_anchor_rec_Ok_heap _ _ _ _ _ H4) as [E4 _].
    rewrite <- E4 in Ho3.
    apply bind_Ok_inv in H as ([] & s5 & H5 & H).
    destruct (update_heap _ _ _ _ _ _ H5 Ho3) as [E5 _].
    unfold with_anchor in E5; simpl in E5.
    match type of E5 with _ = <[_ := ?x]> _ =>
      assert (Ho5 : heap s5 !! self = Some x) by (rewrite E5; by eapply insert_heap_lookup) end.
    rewrite E4, E3, list_insert_insert_eq in E5.
    destruct (update_heap _ _ _ _ _ _ H Ho5) as [E6 _].
    unfold with_child_data in E6; simpl in E6.
    rewrite E5, list_insert_insert_eq in E6.
    exists a. split; [exact E6|]. exists s3, s4. auto.
Qed.

(** [Py7zrArchivePath.__init__] *)
Lemma Py7zrArchivePath_init_heap self name0 parent0 path_type0 is_anchor0 s s' o :
  Py7zrArchivePath_init self name0 parent0 path_type0 is_anchor0 s = Ok tt s' ->
  heap s !! self = Some o ->
  isinstance_ArchivePath (class o) = true ->
  exists p c' r a,
    heap s' = <[self := mkPathObj (class o) (basename name0) parent0 "py7zr"
                          path_type0 (Some p) c' (Some r) is_anchor0
                          (Some a) [] None]> (heap s) /\
    if is_anchor0 then a = p
    else exists s4 s5,
      heap s4 = <[self := mkPathObj (class o) (basename name0) parent0 "py7zr"
                          path_type0 (Some p) c' (Some r) false
                          None (child_data o) (archive_file o)]> (heap s) /\
      get_anchor self s4 = Ok a s5.
Proof.
  intros H Ho Hc. unfold Py7zrArchivePath_init in H.
  apply bind_Ok_inv in H as ([] & s1 & H1 & H).
  destruct (ArchivePath_init_heap _ _ _ _ _ _ _ _ H1 Ho Hc) as (p & c' & r & a & E1 & Ha).
  match type of E1 with _ = <[_ := ?x]> _ =>
    assert (Ho1 : heap s1 !! self = Some x) by (rewrite E1; by eapply insert_heap_lookup) end.
  destruct (update_heap _ _ _ _ _ _ H Ho1) as [E2 _].
  unfold with_archive_file in E2; simpl in E2.
  rewrite E1, list_insert_insert_eq in E2.
  exists p, c', r, a. auto.
Qed.

(** A node whose anchor is not cached yet and that is no anchor asks its
    parent. *)
Lemma get_anchor_asks_parent self s o a s' :
  get_anchor self s = Ok a s' ->
  heap s !! self = Some o ->
  isinstance_ArchivePath (class o) = true ->
  anchor o = None -> is_anchor o = false ->
  exists pl n, parent o = Some pl /\ recursion_limit = S n /\
               get_anchor_rec n pl s = Ok a s'.
Proof.
  intros H Ho Hc Ha Hi. destruct recursion_limit_S as [n Hn].
  unfold get_anchor in H. rewrite Hn in H.
  unfold get_anchor_rec in H; fold get_anchor_rec in H.
  rewrite (bind_Ok _ _ _ _ _ (deref_Ok _ _ _ Ho)), Hc, Ha in H. simpl in H.
  rewrite (bind_Ok _ _ _ _ _ (get_is_anchor_Ok _ _ _ Ho Hc)), Hi in H.
  rewrite (bind_Ok _ _ _ _ _ (get_parent_Ok _ _ _ Ho)) in H.
  destruct (parent o) as [pl|]; [|discriminate].
  exists pl, n. auto.
Qed.

(** A node that is its own parent never finds an anchor. *)
Lemma get_anchor_rec_loop n self s o a s' :
  heap s !! self = Some o ->
  isinstance_ArchivePath (class o) = true ->
  anchor o = None -> is_anchor o = false -> parent o = Some self ->
  get_anchor_rec n self s <> Ok a s'.
Proof.
  intros Ho Hc Ha Hi Hp. induction n as [|n IH]; [discriminate|].
  unfold get_anchor_rec; fold get_anchor_rec.
  rewrite (bind_Ok _ _ _ _ _ (deref_Ok _ _ _ Ho)), Hc, Ha. simpl.
  rewrite (bind_Ok _ _ _ _ _ (get_is_anchor_Ok _ _ _ Ho Hc)), Hi.
  rewrite (bind_Ok _ _ _ _ _ (get_parent_Ok _ _ _ Ho)), Hp. exact IH.
Qed.
Lemma insert_last (h : list PathObj) (x y : PathObj) :
  <[length h := x]> (h ++ [y]) = h ++ [x].
Proof.
  replace (length h) with (length h + 0) at 1 by lia.
  by rewrite insert_app_r.
Qed.

Lemma new_inv c l s s1 :
  new c s = Ok l s1 ->
  l = length (heap s) /\ heap s1 = heap s ++ [blank c] /\
  heap s1 !! l = Some (blank c).
Proof.
  unfold new. intros H. injection H as <- <-. simpl. split; [done|]. split; [done|].
  rewrite lookup_app_r by lia. by rewrite Nat.sub_diag.
Qed.

(** What a constructor adds to the store: one node, of the class asked for
    and with the parent given. *)
Lemma construct_heap c kw s l s' :
  construct c kw s = Ok l s' ->
  l = length (heap s) /\
  exists o', heap s' = heap s ++ [o'] /\ class o' = c /\ parent o' = kw_parent kw /\
    (isinstance_ArchivePath c = true ->
     exists a, anchor o' = Some a /\
       is_anchor o' = match kw_is_anchor kw with Some b => b | None => true end /\
       if is_anchor o' then path o' = Some a
       else exists o4 s4 s5,
         heap s4 = heap s ++ [o4] /\ class o4 = c /\ parent o4 = kw_parent kw /\
         anchor o4 = None /\ is_anchor o4 = false /\
         get_anchor l s4 = Ok a s5).
Proof.
  unfold construct. intros H.
  destruct c;
    match type of H with
    | (if ?b then _ else _) _ = _ => destruct b; [|discriminate]
    end;
    apply bind_Ok_inv in H as (self & s1 & Hn & H);
    apply new_inv in Hn as (-> & Eh & Ho);
    apply bind_Ok_inv in H as ([] & s2 & Hi & H);
    injection H as <- <-; (split; [reflexivity|]).
  all: try (destruct (Path_init_heap _ _ _ _ _ _ _ _ _ Hi Ho) as (p & c' & E & _);
            rewrite Eh, insert_last in E;
            eexists; split; [exact E|]; simpl; repeat split; discriminate).
  - destruct (DirPath_init_heap _ _ _ _ _ _ _ _ _ _ Hi Ho) as (nm & p & c' & r & E).
    rewrite Eh, insert_last in E.
    eexists; split; [exact E|]; simpl; repeat split; discriminate.
  - destruct (VirtualDirPath_init_heap _ _ _ _ _ _ _ _ Hi Ho) as (p & c' & r & E).
    rewrite Eh, insert_last in E.
    eexists; split; [exact E|]; simpl; repeat split; discriminate.
  - destruct (ArchivePath_init_heap _ _ _ _ _ _ _ _ Hi Ho eq_refl)
      as (p & c' & r & a & E & Ha).
    rewrite Eh, insert_last in E.
    eexists; split; [exact E|]; simpl; repeat split. intros _.
    exists a. repeat split.
    destruct (match kw_is_anchor kw with Some b => b | None => true end).
    + by rewrite Ha.
    + destruct Ha as (s4 & s5 & E4 & Hg). rewrite Eh, insert_last in E4.
      eexists _, s4, s5. split; [exact E4|]. simpl. auto.
  - destruct (Py7zrArchivePath_init_heap _ _ _ _ _ _ _ _ Hi Ho eq_refl)
      as (p & c' & r & a & E & Ha).
    rewrite Eh, insert_last in E.
    eexists; split; [exact E|]; simpl; repeat split. intros _.
    exists a. repeat split.
    destruct (match kw_is_anchor kw with Some b => b | None => true end).
    + by rewrite Ha.
    + destruct Ha as (s4 & s5 & E4 & Hg). rewrite Eh, insert_last in E4.
      eexists _, s4, s5. split; [exact E4|]. simpl. auto.
Qed.

(* ================================================================== *)
(** * The anchor of an archive node *)
(* ================================================================== *)

Lemma same_anchoring_anchored s s' :
  same_anchoring s s' -> anchored s -> anchored s'.
Proof.
  intros [Hlen Hsame] Ha l o' Ho' Hc'.
  assert (Hl : l < length (heap s)) by (rewrite <- Hlen; by eapply lookup_lt_Some).
  destruct (lookup_lt_is_Some_2 _ _ Hl) as [o Ho].
  destruct (Hsame _ _ Ho) as (o1 & Ho1 & Ec & Ep & Epath & Ei & Ean).
  assert (E : Some o1 = Some o') by exact (eq_trans (eq_sym Ho1) Ho').
  injection E as ->.
  rewrite Ec in Hc'. destruct (Ha _ _ Ho Hc') as (a & Haa & Hrest).
  exists a. rewrite Ean, Ei, Epath, Ep. split; [done|].
  destruct (is_anchor o); [done|].
  destruct Hrest as (pl & po & Hp & Hlt & Hpo & Hcp & Hap).
  destruct (Hsame _ _ Hpo) as (po' & Hpo' & Ec' & _ & _ & _ & Ean').
  exists pl, po'. rewrite Ec', Ean'. auto.
Qed.

Lemma same_heap_anchored s s' : heap s' = heap s -> anchored s -> anchored s'.
Proof. intros E Ha l o. rewrite E. apply Ha. Qed.

Lemma update_same_anchoring l f u s s' :
  (forall o, class (f o) = class o /\ parent (f o) = parent o /\ path (f o) = path o /\
             is_anchor (f o) = is_anchor o /\ anchor (f o) = anchor o) ->
  update l f s = Ok u s' -> same_anchoring s s'.
Proof.
  intros Hf H. apply update_inv in H as (o & Ho & ->). split.
  - simpl. by rewrite length_insert.
  - intros l' o' Ho'. simpl. destruct (decide (l' = l)) as [->|Hne].
    + assert (E : Some o = Some o') by exact (eq_trans (eq_sym Ho) Ho').
      injection E as ->. exists (f o'). split; [|apply Hf].
      apply list_lookup_insert_eq. by eapply lookup_lt_Some.
    + exists o'. rewrite list_lookup_insert_ne by done. auto 6.
Qed.

(** A constructor keeps the store anchored: the new node is older than
    nothing, so no node's parent changes under it. *)
Lemma construct_anchored c kw s l s' :
  anchored s -> construct c kw s = Ok l s' -> anchored s'.
Proof.
  intros Ha H.
  destruct (construct_heap _ _ _ _ _ H) as (-> & o' & Eh & Ec & Ep & Harch).
  intros l o Ho Hc. rewrite Eh in Ho.
  destruct (decide (l < length (heap s))) as [Hlt|Hge].
  - rewrite lookup_app_l in Ho by done.
    destruct (Ha _ _ Ho Hc) as (a & Haa & Hrest). exists a. split; [done|].
    destruct (is_anchor o); [done|].
    destruct Hrest as (pl & po & Hp & Hpl & Hpo & Hcp & Hap).
    exists pl, po. rewrite Eh, lookup_app_l by lia. auto.
  - assert (Hl : l = length (heap s)).
    { apply lookup_lt_Some in Ho. rewrite length_app in Ho. simpl in Ho. lia. }
    subst l. rewrite lookup_app_r, Nat.sub_diag in Ho by lia.
    injection Ho as <-. rewrite Ec in Hc.
    destruct (Harch Hc) as (a & Haa & Hi & Hrest). exists a. split; [done|].
    destruct (is_anchor o'); [done|].
    destruct Hrest as (o4 & s4 & s5 & E4 & Ec4 & Ep4 & Ha4 & Hi4 & Hg).
    assert (Ho4 : heap s4 !! length (heap s) = Some o4).
    { rewrite E4, lookup_app_r, Nat.sub_diag by lia. done. }
    assert (Hc4 : isinstance_ArchivePath (class o4) = true) by (by rewrite Ec4).
    destruct (get_anchor_asks_parent _ _ _ _ _ Hg Ho4 Hc4 Ha4 Hi4)
      as (pl & n & Hp & _ & Hrec).
    destruct (decide (pl = length (heap s))) as [->|Hne].
    { exfalso. by eapply get_anchor_rec_loop. }
    destruct n as [|n]; [discriminate|].
    unfold get_anchor_rec in Hrec; fold get_anchor_rec in Hrec.
    apply bind_Ok_inv in Hrec as (po & s4' & Hd & Hrec).
    apply deref_inv in Hd as [Hpo ->].
    assert (Hpl : pl < length (heap s)).
    { apply lookup_lt_Some in Hpo. rewrite E4, length_app in Hpo. simpl in Hpo. lia. }
    rewrite E4, lookup_app_l in Hpo by done.
    destruct (isinstance_ArchivePath (class po)) eqn:Hcp; [|discriminate].
    destruct (Ha _ _ Hpo Hcp) as (a' & Hap & _).
    simpl in Hrec. rewrite Hap in Hrec. injection Hrec as <- _.
    exists pl, po. rewrite Ep, <- Ep4, Eh, lookup_app_l by done. auto.
Qed.

Lemma do_step_anchored st s s' :
  regular_step st = true -> anchored s -> do_step st s = Ok tt s' -> anchored s'.
Proof.
  intros Hreg Ha H. destruct st as [c kw|D key v|D key|l n|l t]; simpl in H.
  - apply bind_Ok_inv in H as (l & s1 & H1 & H). injection H as <-.
    by eapply construct_anchored.
  - simpl in Hreg. apply andb_true_iff in Hreg as [H1 H2].
    apply negb_true_iff in H1, H2. unfold __setitem__ in H. rewrite H1, H2 in H.
    apply bind_Ok_inv in H as (r & s1 & Hr & H).
    apply get_children_ref_inv in Hr as (o & Ho & Hc & ->).
    apply bind_Ok_inv in H as (d & s1 & Hd & H).
    apply read_dict_inv in Hd as [_ ->].
    apply write_dict_heap in H. by eapply same_heap_anchored.
  - unfold __delitem__ in H.
    apply bind_Ok_inv in H as (r & s1 & Hr & H).
    apply get_children_ref_inv in Hr as (o & Ho & Hc & ->).
    apply bind_Ok_inv in H as (d & s1 & Hd & H).
    apply read_dict_inv in Hd as [_ ->].
    destruct (Dict.del key d); [|discriminate].
    apply write_dict_heap in H. by eapply same_heap_anchored.
  - eapply same_anchoring_anchored; [|exact Ha].
    eapply update_same_anchoring; [|exact H]. by intros [].
  - unfold set_type in H.
    apply bind_Ok_inv in H as (o & s1 & Hd & H).
    apply deref_inv in Hd as [_ ->].
    destruct (class o);
      first [ injection H as <-; exact Ha
            | eapply same_anchoring_anchored; [|exact Ha];
              eapply update_same_anchoring; [|exact H]; by intros [] ].
Qed.

Lemma build_anchored steps s s' :
  forallb regular_step steps = true -> anchored s ->
  for_each steps do_step s = Ok tt s' -> anchored s'.
Proof.
  revert s. induction steps as [|st steps IH]; intros s Hreg Ha H.
  - by injection H as <-.
  - simpl in Hreg. apply andb_true_iff in Hreg as [H1 H2].
    simpl in H. apply bind_Ok_inv in H as ([] & s1 & Hs & H).
    eapply IH; [done| |exact H]. by eapply do_step_anchored.
Qed.

Lemma anchored_nearest s :
  anchored s ->
  forall fuel l o, l < fuel -> heap s !! l = Some o ->
    isinstance_ArchivePath (class o) = true ->
    exists A oA a, nearest_anchor fuel (heap s) l = Some A /\
                   heap s !! A = Some oA /\ path oA = Some a /\ anchor o = Some a.
Proof.
  intros Ha. induction fuel as [|fuel IH]; intros l o Hl Ho Hc; [lia|].
  destruct (Ha _ _ Ho Hc) as (a & Haa & Hrest).
  unfold nearest_anchor; fold nearest_anchor. unfold loc in *.
  rewrite Ho, Hc. simpl negb. cbv iota.
  destruct (is_anchor o).
  - exists l, o, a. auto.
  - destruct Hrest as (pl & po & Hp & Hpl & Hpo & Hcp & Hap). rewrite Hp.
    destruct (IH pl po ltac:(lia) Hpo Hcp) as (A & oA & a' & HA & HoA & HpA & Ha').
    assert (E : Some a' = Some a) by exact (eq_trans (eq_sym Ha') Hap).
    injection E as ->. exists A, oA, a. auto.
Qed.

(** In a tree built from an empty store by instantiating classes,
    storing and deleting children under regular names, renaming and
    retyping, [get_anchor] on an archive node returns, without changing
    anything, the path of the nearest anchor at or above the node. *)
Theorem anchor_is_nearest_anchor_path (steps : list build_step) (s0 s : state)
    (l : loc) (o : PathObj) :
  heap s0 = [] ->
  forallb regular_step steps = true ->
  for_each steps do_step s0 = Ok tt s ->
  heap s !! l = Some o ->
  isinstance_ArchivePath (class o) = true ->
  exists A a, nearest_anchor (length (heap s)) (heap s) l = Some A /\
              get_anchor l s = Ok a s /\ get_path A s = Ok a s.
Proof.
  intros H0 Hreg Hrun Ho Hc.
  assert (Ha : anchored s).
  { eapply build_anchored; [exact Hreg| |exact Hrun].
    intros l' o' Ho'. by rewrite H0 in Ho'. }
  pose proof (lookup_lt_Some _ _ _ Ho) as Hl.
  destruct (anchored_nearest s Ha _ l o Hl Ho Hc) as (A & oA & a & HA & HoA & HpA & Haa).
  exists A, a. split; [exact HA|]. split.
  - by eapply get_anchor_cached.
  - by eapply get_path_cached.
Qed.

Lemma anchor_is_nearest_anchor_path_witness :
  let s := after (for_each small_tree do_step) (fresh bare_world []) in
  exists A a, nearest_anchor (length (heap s)) (heap s) 2 = Some A /\
              get_anchor 2 s = Ok a s /\ get_path A s = Ok a s.
Proof.
  intros s.
  assert (Ho : exists o, heap s !! 2 = Some o /\ isinstance_ArchivePath (class o) = true).
  { vm_compute. eauto. }
  destruct Ho as (o & Ho & Hc).
  apply (anchor_is_nearest_anchor_path small_tree (fresh bare_world []) s 2 o).
  - reflexivity.
  - reflexivity.
  - vm_compute. reflexivity.
  - exact Ho.
  - exact Hc.
Defined.

(* ================================================================== *)
(** * A directory made above a known one *)
(* ================================================================== *)

Lemma bind_assoc {A B C} (m : M A) (k1 : A -> M B) (k2 : B -> M C) s :
  bind (bind m k1) k2 s = bind m (fun a => bind (k1 a) k2) s.
Proof. unfold bind. by destruct (m s). Qed.

(** The first value of a directory whose first key is a regular name. *)
Lemma first_value_regular self o r k c rest s :
  heap s !! self = Some o -> children o = Some r ->
  dicts s !! r = Some ((k, c) :: rest) ->
  k <> "." -> k <> ".." ->
  first_value self s = Ok (Some c) s.
Proof.
  intros Ho Hr Hd Hk1 Hk2. unfold first_value.
  rewrite (bind_Ok _ _ _ _ _ (get_children_ref_Ok _ _ _ _ Ho Hr)).
  rewrite (bind_Ok _ _ _ _ _ (read_dict_Ok _ _ _ Hd)). simpl.
  unfold __getitem__. apply String.eqb_neq in Hk1, Hk2. rewrite Hk1, Hk2.
  rewrite (bind_Ok _ _ _ _ _ (get_children_ref_Ok _ _ _ _ Ho Hr)).
  rewrite (bind_Ok _ _ _ _ _ (read_dict_Ok _ _ _ Hd)). simpl.
  by rewrite String.eqb_refl.
Qed.

(** A directory with no parent and no cached path takes its path from its
    first child. *)
Lemma get_path_from_child self o r k c rest oc p s :
  heap s !! self = Some o -> isinstance_DirPath (class o) = true ->
  path o = None -> parent o = None -> children o = Some r ->
  dicts s !! r = Some ((k, c) :: rest) ->
  k <> "." -> k <> ".." ->
  heap s !! c = Some oc -> path oc = Some p ->
  get_path self s = Ok (dirname p) s.
Proof.
  intros Ho Hc Hp Hpar Hr Hd Hk1 Hk2 Hoc Hpc.
  destruct recursion_limit_SS as [n Hn]. unfold get_path. rewrite Hn.
  unfold get_path_rec; fold get_path_rec.
  rewrite (bind_Ok _ _ _ _ _ (deref_Ok _ _ _ Ho)), Hc.
  unfold DirPath_get_path.
  rewrite (bind_Ok _ _ _ _ _ (deref_Ok _ _ _ Ho)), Hp, Hpar, Hr. simpl not_None.
  unfold ret at 1. unfold bind at 1.
  rewrite (bind_Ok _ _ _ _ _ (read_dict_Ok _ _ _ Hd)).
  rewrite (bind_Ok _ _ _ _ _ (first_value_regular _ _ _ _ _ _ _ Ho Hr Hd Hk1 Hk2)).
  simpl not_None. unfold ret at 1. unfold bind at 1.
  by rewrite (bind_Ok _ _ _ _ _ (get_path_rec_cached n _ _ _ _ Hoc Hpc)).
Qed.

(** ... and its context, when it is given none. *)
Lemma set_context_from_child self o r k c rest oc s :
  heap s !! self = Some o -> isinstance_DirPath (class o) = true ->
  context o = false -> parent o = None -> children o = Some r ->
  dicts s !! r = Some ((k, c) :: rest) ->
  k <> "." -> k <> ".." ->
  heap s !! c = Some oc ->
  set_context self false s = Ok tt (set_obj self (with_context (context oc) o) s).
Proof.
  intros Ho Hc Hctx Hpar Hr Hd Hk1 Hk2 Hoc.
  unfold set_context.
  rewrite (bind_Ok _ _ _ _ _ (deref_Ok _ _ _ Ho)), Hc.
  unfold DirPath_set_context.
  rewrite (bind_Ok _ _ _ _ _ (deref_Ok _ _ _ Ho)), Hctx, Hpar, Hr. simpl.
  unfold ret at 1. unfold bind at 1.
  rewrite (bind_Ok _ _ _ _ _ (read_dict_Ok _ _ _ Hd)).
  rewrite (bind_Ok _ _ _ _ _ (first_value_regular _ _ _ _ _ _ _ Ho Hr Hd Hk1 Hk2)).
  simpl not_None. unfold ret at 1. unfold bind at 1.
  rewrite (bind_Ok _ _ _ _ _ (deref_Ok _ _ _ Hoc)).
  by apply update_Ok.
Qed.
Lemma bind_gets {A B} (f : state -> A) (k : A -> M B) s :
  bind (gets f) k s = k (f s) s.
Proof. reflexivity. Qed.

Lemma bind_ret {A B} (a : A) (k : A -> M B) s : bind (ret a) k s = k a s.
Proof. reflexivity. Qed.

Ltac objs :=
  cbn [with_name with_parent with_backend with_path_type with_path with_context
       with_children with_is_anchor with_anchor with_child_data with_archive_file
       class name parent backend path_type path context children is_anchor anchor
       child_data archive_file].

Lemma PathObj_ext (a b : PathObj) :
  class a = class b -> name a = name b -> parent a = parent b ->
  backend a = backend b -> path_type a = path_type b -> path a = path b ->
  context a = context b -> children a = children b -> is_anchor a = is_anchor b ->
  anchor a = anchor b -> child_data a = child_data b ->
  archive_file a = archive_file b -> a = b.
Proof. destruct a, b. simpl. by intros -> -> -> -> -> -> -> -> -> -> -> ->. Qed.

Ltac upd Hlt :=
  lazymatch goal with
  | |- bind (update ?l ?f) _ (set_obj ?l ?o ?s) = _ =>
      rewrite (bind_Ok _ _ _ _ _ (update_Ok l f o _ (heap_set_obj_eq l o s Hlt)));
      rewrite set_obj_set_obj; cbv beta; rewrite ?bind_assoc
  end.

(** [DirPath('..', children=d)]: the new directory holds [d] under [d]'s
    name, takes the directory part of [d]'s path as its path, the last
    component of that as its name, and [d]'s context. *)
Lemma DirPath_init_above self d o0 od p pt s :
  heap s !! self = Some o0 -> class o0 = DirPath ->
  heap s !! d = Some od -> self <> d ->
  path od = Some p -> name od <> "." -> name od <> ".." ->
  DirPath_init self ".." None "fs" pt (ChildrenPath d) false s
  = Ok tt (set_obj self
             (mkPathObj DirPath (basename (dirname p)) None "fs" pt (Some (dirname p))
                        (context od) (Some (length (dicts s))) (is_anchor o0)
                        (anchor o0) (child_data o0) (archive_file o0))
             (with_dicts (dicts s ++ [[(name od, d)]]) s)).
Proof.
  intros Ho Hc Hod Hne Hp Hk1 Hk2.
  pose proof (lookup_lt_Some _ _ _ Ho) as Hlt.
  set (s1 := with_dicts (dicts s ++ [[(name od, d)]]) s).
  assert (Ho1 : heap s1 !! self = Some o0) by exact Ho.
  assert (Hlt1 : self < length (heap s1)) by exact Hlt.
  assert (Hd1 : forall o', dicts (set_obj self o' s1) !! length (dicts s)
                           = Some [(name od, d)]).
  { intros o'. change (dicts (set_obj self o' s1)) with (dicts s ++ [[(name od, d)]]).
    by apply list_lookup_middle. }
  assert (Hod1 : forall o', heap (set_obj self o' s1) !! d = Some od).
  { intros o'. rewrite heap_set_obj_ne by done. exact Hod. }
  unfold DirPath_init. rewrite !bind_assoc.
  rewrite (bind_Ok _ _ _ _ _ (get_name_Ok _ _ _ Hod)). rewrite !bind_assoc.
  assert (E : new_dict [(name od, d)] s = Ok (length (dicts s)) s1) by reflexivity.
  rewrite (bind_Ok _ _ _ _ _ E). clear E.
  rewrite (bind_Ok _ _ _ _ _ (update_Ok _ _ _ _ Ho1)).
  unfold Path_init. rewrite !bind_assoc.
  do 4 upd Hlt1. rewrite bind_gets. cbv beta. rewrite ?bind_assoc. upd Hlt1.
  change (basename "..") with "..". objs.
  rewrite String.eqb_refl.
  lazymatch goal with
  | |- bind (get_path _) _ (set_obj _ ?o _) = _ =>
      assert (E : get_path self (set_obj self o s1) = Ok (dirname p) (set_obj self o s1));
      [ apply (get_path_from_child self o (length (dicts s)) (name od) d [] od p);
        [ apply heap_set_obj_eq, Hlt1 | objs; by rewrite Hc | reflexivity | reflexivity
        | reflexivity | apply Hd1 | exact Hk1 | exact Hk2 | apply Hod1 | exact Hp ]
      | rewrite (bind_Ok _ _ _ _ _ E); clear E; cbv beta; rewrite ?bind_assoc ]
  end.
  do 2 upd Hlt1.
  objs.
  lazymatch goal with
  | |- bind (set_context _ _) _ (set_obj _ ?o _) = _ =>
      assert (E : set_context self false (set_obj self o s1)
                  = Ok tt (set_obj self (with_context (context od) o) (set_obj self o s1)));
      [ apply (set_context_from_child self o (length (dicts s)) (name od) d [] od);
        [ apply heap_set_obj_eq, Hlt1 | objs; by rewrite Hc | reflexivity | reflexivity
        | reflexivity | apply Hd1 | exact Hk1 | exact Hk2 | apply Hod1 ]
      | rewrite (bind_Ok _ _ _ _ _ E); clear E; cbv beta; rewrite ?bind_assoc ]
  end.
  rewrite set_obj_set_obj.
  objs.
  rewrite (bind_Ok _ _ _ _ _ (deref_Ok _ _ _ (heap_set_obj_eq _ _ _ Hlt1))).
  objs. cbn [not_None]. rewrite bind_ret.
  rewrite (bind_Ok _ _ _ _ _ (read_dict_Ok _ _ _ (Hd1 _))).
  rewrite String.eqb_refl. cbn [andb negb].
  lazymatch goal with
  | |- bind (get_path _) _ (set_obj _ ?o _) = _ =>
      rewrite (bind_Ok _ _ _ _ _ (get_path_cached self o (dirname p) _
                 (heap_set_obj_eq _ _ _ Hlt1) eq_refl))
  end.
  rewrite (update_Ok _ _ _ _ (heap_set_obj_eq _ _ _ Hlt1)).
  rewrite set_obj_set_obj. do 2 f_equal. apply PathObj_ext; objs; rewrite ?Hc; reflexivity.
Qed.
Lemma mapped_class_Ok {mapping : Dict.t (Class * list string)} {pt c exts} s :
  Dict.get pt mapping = Some (c, exts) -> mapped_class mapping pt s = Ok c s.
Proof. unfold mapped_class. by intros ->. Qed.

(** The constructor call of [add_path(parent=True)]. *)
Lemma construct_above d od p pt s :
  heap s !! d = Some od -> path od = Some p -> name od <> "." -> name od <> ".." ->
  construct DirPath (mkKwargs ".." None "fs" pt (Some d) None) s
  = Ok (length (heap s))
       (set_obj (length (heap s))
          (mkPathObj DirPath (basename (dirname p)) None "fs" pt (Some (dirname p))
                     (context od) (Some (length (dicts s))) false None [] None)
          (with_dicts (dicts s ++ [[(name od, d)]])
             (with_heap (heap s ++ [blank DirPath]) s))).
Proof.
  intros Hod Hp Hk1 Hk2. pose proof (lookup_lt_Some _ _ _ Hod) as Hlt.
  unfold construct. cbn [kw_is_anchor kw_children kw_name kw_parent kw_backend kw_path_type].
  assert (E : new DirPath s
              = Ok (length (heap s)) (with_heap (heap s ++ [blank DirPath]) s))
    by reflexivity.
  rewrite (bind_Ok _ _ _ _ _ E). clear E.
  set (s0 := with_heap (heap s ++ [blank DirPath]) s).
  assert (H0 : heap s0 !! length (heap s) = Some (blank DirPath))
    by (by apply list_lookup_middle).
  assert (Hod0 : heap s0 !! d = Some od) by (simpl; by rewrite lookup_app_l).
  assert (Hne : length (heap s) <> d) by (unfold loc in *; lia).
  rewrite (bind_Ok _ _ _ _ _
             (DirPath_init_above (length (heap s)) d (blank DirPath) od p pt s0
                H0 eq_refl Hod0 Hne Hp Hk1 Hk2)).
  reflexivity.
Qed.

(** [add_path('..', parent=True)], as [cd ..] calls it on a directory with
    no parent: the new directory becomes the parent, is found at
    [dest['..']], has the directory part of [dest]'s path as its path and
    the last component of that as its name, and holds [dest], alone, under
    [dest]'s name.  [dest] needs a cached path and a name other than [.]
    and [..], and the terminal's table has to map the type of [..] to
    [DirPath]. *)
Theorem add_path_parent_above (s : state) (dest0 : option loc) (d : loc) (od : PathObj)
    (p pt : string) (exts : list string) (path_type0 : option string)
    (default_type default_dir_type : string) :
  d = match dest0 with Some x => x | None => current (term s) end ->
  heap s !! d = Some od -> path od = Some p ->
  name od <> "." -> name od <> ".." ->
  match path_type0 with
  | Some t => ret t
  | None => get_path_type ".." true default_type default_dir_type
  end s = Ok pt s ->
  Dict.get pt (dir_map (term s)) = Some (DirPath, exts) ->
  exists s',
    add_path ".." true path_type0 default_type default_dir_type true "fs" dest0 None s
    = Ok tt s' /\
    let l := length (heap s) in
    __getitem__ d ".." s' = Ok (Some l) s' /\
    get_path l s' = Ok (dirname p) s' /\
    get_name l s' = Ok (basename (dirname p)) s' /\
    get_parent l s' = Ok None s' /\
    __getitem__ l (name od) s' = Ok (Some d) s' /\
    __len__ l s' = Ok 1 s' /\
    get_path d s' = Ok p s'.
Proof.
  intros Hd Hod Hp Hk1 Hk2 Hpt Hmap.
  pose proof (lookup_lt_Some _ _ _ Hod) as Hlt.
  set (l := length (heap s)).
  set (ol := mkPathObj DirPath (basename (dirname p)) None "fs" pt (Some (dirname p))
                       (context od) (Some (length (dicts s))) false None [] None).
  set (s1 := set_obj l ol (with_dicts (dicts s ++ [[(name od, d)]])
                             (with_heap (heap s ++ [blank DirPath]) s))).
  set (s' := set_obj d (with_parent (Some l) od) s1).
  assert (Hd1 : heap s1 !! d = Some od).
  { unfold s1. rewrite heap_set_obj_ne by (unfold loc, l in *; lia).
    simpl. by rewrite lookup_app_l. }
  assert (Hd' : heap s' !! d = Some (with_parent (Some l) od)).
  { apply heap_set_obj_eq. by eapply lookup_lt_Some. }
  assert (Hl' : heap s' !! l = Some ol).
  { unfold s'. rewrite heap_set_obj_ne by (unfold loc, l in *; lia).
    apply heap_set_obj_eq. simpl. rewrite length_app. simpl. unfold loc, l in *. lia. }
  assert (Hr' : dicts s' !! length (dicts s) = Some [(name od, d)])
    by (by apply list_lookup_middle).
  exists s'. split.
  - unfold add_path. rewrite bind_gets. cbv beta.
    rewrite (bind_Ok _ _ _ _ _ Hpt). cbn [andb String.eqb Ascii.eqb Bool.eqb].
    rewrite (bind_Ok _ _ _ _ _ (mapped_class_Ok _ Hmap)).
    rewrite <- Hd.
    rewrite (bind_Ok _ _ _ _ _ (construct_above d od p pt _ Hod Hp Hk1 Hk2)).
    unfold __setitem__. cbn [String.eqb Ascii.eqb Bool.eqb]. unfold set_parent.
    by apply update_Ok.
  - 
    intros l0. subst l0.
    repeat split.
    + unfold __getitem__. cbn [String.eqb Ascii.eqb Bool.eqb].
      by rewrite (get_parent_Ok _ _ _ Hd').
    + by apply (get_path_cached _ _ _ _ Hl').
    + by rewrite (get_name_Ok _ _ _ Hl').
    + by rewrite (get_parent_Ok _ _ _ Hl').
    + unfold __getitem__. apply String.eqb_neq in Hk1, Hk2. rewrite Hk1, Hk2.
      rewrite (bind_Ok _ _ _ _ _ (get_children_ref_Ok _ _ _ _ Hl' eq_refl)).
      rewrite (bind_Ok _ _ _ _ _ (read_dict_Ok _ _ _ Hr')).
      simpl. by rewrite String.eqb_refl.
    + unfold __len__.
      rewrite (bind_Ok _ _ _ _ _ (get_children_ref_Ok _ _ _ _ Hl' eq_refl)).
      by rewrite (bind_Ok _ _ _ _ _ (read_dict_Ok _ _ _ Hr')).
    + by apply (get_path_cached _ _ _ _ Hd').
Qed.

Lemma add_path_parent_above_witness :
  let s := after (start_node "/home/user") (fresh bare_world []) in
  exists s',
    add_path ".." true None "text" "dir" true "fs" None None s = Ok tt s' /\
    let l := length (heap s) in
    __getitem__ 0 ".." s' = Ok (Some l) s' /\
    get_path l s' = Ok (dirname "/home/user") s' /\
    get_name l s' = Ok (basename (dirname "/home/user")) s' /\
    get_parent l s' = Ok None s' /\
    __getitem__ l "user" s' = Ok (Some 0) s' /\
    __len__ l s' = Ok 1 s' /\
    get_path 0 s' = Ok "/home/user" s'.
Proof.
  intros s.
  apply (add_path_parent_above s None 0
           (mkPathObj DirPath "user" None "fs" "dir" (Some "/home/user") true (Some 0)
                      false None [] None)
           "/home/user" "dir" [""] None "text" "dir").
  - reflexivity.
  - vm_compute. reflexivity.
  - reflexivity.
  - discriminate.
  - discriminate.
  - vm_compute. reflexivity.
  - reflexivity.
Defined.

(* ================================================================== *)
(** * Listing an archive: [find_children] *)
(* ================================================================== *)

Lemma rfind1_basename (c : ascii) (s : string) :
  rfind1 c (str_drop (rfind1 c s) s) = 0.
Proof.
  induction s as [|a r IH]; [reflexivity|].
  cbn [rfind1]. destruct (rfind1 c r) as [|k] eqn:E.
  - destruct (Ascii.eqb a c) eqn:Ea.
    + cbn [str_drop]. destruct r; [reflexivity|]. exact E.
    + cbn [str_drop rfind1]. by rewrite E, Ea.
  - cbn [str_drop]. exact IH.
Qed.

(** [os.path.basename] of a basename is that basename. *)
Lemma basename_idem (p : string) : basename (basename p) = basename p.
Proof.
  unfold basename at 1. cbv zeta. unfold basename at 1. cbv zeta.
  rewrite rfind1_basename. unfold basename. by destruct (str_drop _ p).
Qed.

#[global] Instance dicts_kept_preorder : PreOrder dicts_kept.
Proof.
  split.
  - intros s r d H. exact H.
  - intros s1 s2 s3 H12 H23 r d H. eauto.
Qed.

Lemma same_dicts_kept s s' : dicts s' = dicts s -> dicts_kept s s'.
Proof. intros E r d. by rewrite E. Qed.

Lemma only_warns_dicts_kept s s' : only_warns s s' -> dicts_kept s s'.
Proof. intros (ws & -> & _). by apply same_dicts_kept. Qed.

Lemma keeps_update_dicts_kept l f : keeps dicts_kept (update l f).
Proof. apply keeps_update; [apply _|]. intros s o _. by apply same_dicts_kept. Qed.

Lemma keeps_new_dict_dicts_kept d : keeps dicts_kept (new_dict d).
Proof. intros s r d' H. simpl. by apply lookup_app_l_Some. Qed.

Lemma keeps_new_dicts_kept c : keeps dicts_kept (new c).
Proof. intros s. by apply same_dicts_kept. Qed.

Ltac keeps_dicts :=
  keeps_tac; intros;
  lazymatch goal with
  | |- keeps _ (update _ _) => apply keeps_update_dicts_kept
  | |- keeps _ (get_path _) =>
      eapply keeps_weaken; [apply only_warns_dicts_kept|];
      apply keeps_get_path_rec_only_warns
  | |- keeps _ (get_anchor _) =>
      eapply keeps_weaken; [apply only_warns_dicts_kept|];
      apply keeps_get_anchor_rec_only_warns
  | |- keeps _ (first_value _) =>
      eapply keeps_weaken; [apply only_warns_dicts_kept|];
      apply keeps_first_value_only_warns
  | |- keeps _ (new_dict _) => apply keeps_new_dict_dicts_kept
  | |- keeps _ (new _) => apply keeps_new_dicts_kept
  end.

Lemma keeps_set_context_dicts_kept self ctx : keeps dicts_kept (set_context self ctx).
Proof. unfold set_context, DirPath_set_context, Path_set_context. keeps_dicts. Qed.

Lemma keeps_Path_init_dicts_kept self name0 parent0 backend0 path_type0 ctx :
  keeps dicts_kept (Path_init self name0 parent0 backend0 path_type0 ctx).
Proof.
  unfold Path_init. keeps_tac; intros;
    lazymatch goal with
    | |- keeps _ (set_context _ _) => apply keeps_set_context_dicts_kept
    | _ => keeps_dicts
    end.
Qed.
Lemma keeps_construct_dicts_kept c kw : keeps dicts_kept (construct c kw).
Proof.
  unfold construct. cbv zeta.
  destruct c;
    match goal with
    | |- keeps _ (if ?b then _ else _) => destruct b; [|apply keeps_raise; apply _]
    end;
    (apply keeps_bind; [apply _ | apply keeps_new_dicts_kept | intros self]);
    (apply keeps_bind; [apply _ | | intros; apply keeps_ret; apply _]).
  all: try apply keeps_Path_init_dicts_kept.
  - unfold DirPath_init, get_name. destruct (kw_children kw); cbv beta iota;
      (apply keeps_bind; [apply _ | keeps_dicts | intros]);
      (apply keeps_bind; [apply _ | apply keeps_Path_init_dicts_kept | intros]);
      keeps_dicts.
  - unfold VirtualDirPath_init.
    apply keeps_bind; [apply _ | keeps_dicts | intros].
    apply keeps_bind; [apply _ | keeps_dicts | intros].
    apply keeps_Path_init_dicts_kept.
  - unfold ArchivePath_init, VirtualDirPath_init.
    apply keeps_bind; [apply _ | | intros; keeps_dicts].
    apply keeps_bind; [apply _ | keeps_dicts | intros].
    apply keeps_bind; [apply _ | keeps_dicts | intros].
    apply keeps_Path_init_dicts_kept.
  - unfold Py7zrArchivePath_init, ArchivePath_init, VirtualDirPath_init.
    apply keeps_bind; [apply _ | | intros; keeps_dicts].
    apply keeps_bind; [apply _ | | intros; keeps_dicts].
    apply keeps_bind; [apply _ | keeps_dicts | intros].
    apply keeps_bind; [apply _ | keeps_dicts | intros].
    apply keeps_Path_init_dicts_kept.
Qed.

(** Only the two archive classes take the keyword [is_anchor]. *)
Lemma construct_is_anchor_class c kw b s l s' :
  construct c kw s = Ok l s' -> kw_is_anchor kw = Some b ->
  isinstance_ArchivePath c = true.
Proof.
  unfold construct. intros H Hb. rewrite Hb in H.
  destruct c; try reflexivity; simpl in H; discriminate.
Qed.

Lemma with_terminal_inv self u s s' : with_terminal self s = Ok u s' -> s' = s.
Proof.
  unfold with_terminal. intros H.
  apply bind_Ok_inv in H as (c & s1 & Hc & H).
  unfold get_context in Hc. apply bind_Ok_inv in Hc as (o & s2 & Hd & Hc).
  apply deref_inv in Hd as [_ ->]. injection Hc as _ <-.
  destruct c; [by injection H as <- | discriminate].
Qed.

(** [add_path] for an entry of an archive: one new node, whose parent is
    [dest], stored in [dest] under the entry's basename. *)
Lemma add_path_child_inv item is_dir path_type0 dt ddt dest init o r d1 s1 s2 :
  add_path item is_dir path_type0 dt ddt false "py7zr" (Some dest) init s1 = Ok tt s2 ->
  heap s1 !! dest = Some o -> children o = Some r -> dicts s1 !! r = Some d1 ->
  basename item <> "." -> basename item <> ".." ->
  exists o', heap s2 = heap s1 ++ [o'] /\ parent o' = Some dest /\
    (forall b, init = Some b ->
               isinstance_ArchivePath (class o') = true /\ is_anchor o' = b) /\
    dicts s2 !! r = Some (Dict.set (basename item) (length (heap s1)) d1).
Proof.
  intros H Ho Hr Hd Hk1 Hk2. unfold add_path in H.
  rewrite bind_gets in H. cbv beta in H.
  apply bind_Ok_inv in H as (pt & s1' & Hpt & H).
  assert (s1' = s1) as ->.
  { destruct path_type0; [by injection Hpt as _ <-|].
    unfold get_path_type in Hpt. rewrite bind_gets in Hpt. by injection Hpt as _ <-. }
  cbn [andb] in H.
  change ("py7zr" =? "fs") with false in H. cbv iota in H.
  apply bind_Ok_inv in H as (c & s1' & Hc & H).
  assert (s1' = s1) as ->.
  { unfold mapped_class in Hc. destruct (Dict.get pt _); [|discriminate].
    by injection Hc as _ <-. }
  apply bind_Ok_inv in H as (l & s3 & Hcon & H).
  destruct (construct_heap _ _ _ _ _ Hcon) as (-> & o' & Eh & Ec & Ep & Harch).
  pose proof (keeps_Ok _ _ _ _ _ (keeps_construct_dicts_kept _ _) Hcon) as Hk.
  assert (Ho3 : heap s3 !! dest = Some o) by (rewrite Eh; by apply lookup_app_l_Some).
  unfold __setitem__ in H. apply String.eqb_neq in Hk1, Hk2. rewrite Hk1, Hk2 in H.
  rewrite (bind_Ok _ _ _ _ _ (get_children_ref_Ok _ _ _ _ Ho3 Hr)) in H.
  rewrite (bind_Ok _ _ _ _ _ (read_dict_Ok _ _ _ (Hk _ _ Hd))) in H.
  unfold write_dict, modify in H. injection H as <-.
  exists o'. split; [exact Eh|]. split; [exact Ep|]. split.
  - intros b Hb. simpl in Harch.
    pose proof (construct_is_anchor_class _ _ b _ _ _ Hcon Hb) as Hcls.
    rewrite Ec. split; [exact Hcls|].
    destruct (Harch Hcls) as (a & _ & Hi & _). by rewrite Hi, Hb.
  - simpl. apply list_lookup_insert_eq.
    apply (Hk r d1) in Hd. by apply lookup_lt_Some in Hd.
Qed.
(** One round of the loop of [find_children]. *)
Lemma register_child_inv self sel item o r d1 s1 s2 :
  register_child self sel item s1 = Ok tt s2 ->
  heap s1 !! self = Some o -> children o = Some r -> dicts s1 !! r = Some d1 ->
  basename item = item -> item <> "." -> item <> ".." ->
  exists o' info, heap s2 = heap s1 ++ [o'] /\ parent o' = Some self /\
    Dict.get item sel = Some info /\
    (folder info = None ->
     isinstance_ArchivePath (class o') = true /\ is_anchor o' = false) /\
    dicts s2 !! r = Some (Dict.set item (length (heap s1)) d1).
Proof.
  intros H Ho Hr Hd Hb Hk1 Hk2. unfold register_child in H.
  destruct (Dict.get item sel) as [info|]; [|discriminate].
  assert (Hb1 : basename item <> ".") by (by rewrite Hb).
  assert (Hb2 : basename item <> "..") by (by rewrite Hb).
  destruct (folder info) as [n|] eqn:Hf;
    apply bind_Ok_inv in H as ([] & s1' & Ht & H);
    apply with_terminal_inv in Ht as ->;
    destruct (add_path_child_inv _ _ _ _ _ _ _ _ _ _ _ _ H Ho Hr Hd Hb1 Hb2)
      as (o' & Eh & Ep & Hinit & Ed);
    rewrite Hb in Ed; exists o', info; repeat split; try done.
  all: first [congruence | by apply (Hinit false)].
Qed.

(** The loop of [find_children]: each name is stored, in turn, with a node
    made for it. *)
Lemma register_children_inv self sel o r ks :
  forall s1 s2 d1,
    for_each ks (register_child self sel) s1 = Ok tt s2 ->
    heap s1 !! self = Some o -> children o = Some r -> dicts s1 !! r = Some d1 ->
    (forall k, In k ks -> basename k = k /\ k <> "." /\ k <> "..") ->
    exists news d2, heap s2 = heap s1 ++ news /\ dicts s2 !! r = Some d2 /\
      (forall n, Dict.mem n d2 = true <-> Dict.mem n d1 = true \/ In n ks) /\
      (forall n, ~ In n ks -> Dict.get n d2 = Dict.get n d1) /\
      (forall n v, In n ks -> Dict.get n d2 = Some v ->
         length (heap s1) <= v /\
         exists ov info, heap s2 !! v = Some ov /\ parent ov = Some self /\
           Dict.get n sel = Some info /\
           (folder info = None ->
            isinstance_ArchivePath (class ov) = true /\ is_anchor ov = false)).
Proof.
  induction ks as [|k ks IH]; intros s1 s2 d1 H Ho Hr Hd Hreg.
  - injection H as <-. exists [], d1. rewrite app_nil_r.
    repeat split; try done; try tauto. intros [?|[]]; done.
  - simpl in H. apply bind_Ok_inv in H as ([] & s1' & Hstep & H).
    destruct (Hreg k (or_introl eq_refl)) as (Hb & Hk1 & Hk2).
    destruct (register_child_inv _ _ _ _ _ _ _ _ Hstep Ho Hr Hd Hb Hk1 Hk2)
      as (o' & info & Eh & Ep & Hinfo & Hfold & Ed).
    assert (Ho' : heap s1' !! self = Some o) by (rewrite Eh; by apply lookup_app_l_Some).
    destruct (IH _ _ _ H Ho' Hr Ed (fun k' Hin => Hreg k' (or_intror Hin)))
      as (news & d2 & Eh2 & Ed2 & Hmem & Hget & Hnew).
    exists (o' :: news), d2. split; [|split; [exact Ed2|split; [|split]]].
    + rewrite Eh2, Eh, <- app_assoc. reflexivity.
    + intros n. rewrite Hmem, Dict_mem_set. split.
      * intros [Hn|Hn]; [|right; by right].
        apply orb_true_iff in Hn as [Hn|Hn]; [|by left].
        apply String.eqb_eq in Hn. right. by left.
      * intros [Hn|[<-|Hn]]; [| |by right].
        -- left. rewrite Hn. apply orb_true_r.
        -- left. by rewrite String.eqb_refl.
    + intros n Hn. rewrite Hget by (intros Hin; apply Hn; by right).
      apply Dict_get_set_ne. intros ->. apply Hn. by left.
    + intros n v Hin Hv.
      destruct (in_dec String.string_dec n ks) as [Hin'|Hnin].
      * destruct (Hnew n v Hin' Hv) as (Hle & Hrest). split; [|exact Hrest].
        rewrite Eh, length_app in Hle. simpl in Hle. lia.
      * destruct Hin as [<-|Hin]; [|done].
        rewrite (Hget k Hnin), Dict_get_set_eq in Hv. injection Hv as <-.
        split; [lia|]. exists o', info. repeat split; try done; try by apply Hfold.
        rewrite Eh2, Eh, <- app_assoc. by apply list_lookup_middle.
Qed.
(** [find_children] on a node that holds the archive's handle and has its
    path and anchor cached: the loop over what [filter_children] selects. *)
Lemma find_children_held s self o h p a r d :
  heap s !! self = Some o -> isinstance_ArchivePath (class o) = true ->
  path o = Some p -> anchor o = Some a -> archive_file o = Some h ->
  children o = Some r -> dicts s !! r = Some d ->
  filter_children self (files h) s
  = Ok (fold_left (fun acc f =>
                     if belongs p a d f then Dict.set (basename (filename f)) f acc else acc)
                  (files h) []) s /\
  find_children self s
  = for_each
      (Dict.keys (fold_left (fun acc f =>
                     if belongs p a d f then Dict.set (basename (filename f)) f acc else acc)
                  (files h) []))
      (register_child self
         (fold_left (fun acc f =>
                     if belongs p a d f then Dict.set (basename (filename f)) f acc else acc)
                  (files h) [])) s.
Proof.
  intros Ho Hc Hp Ha Hh Hr Hd.
  assert (Hf := filter_children_loop_fold s self o p a r d (files h) [] Ho Hc Hp Ha Hr Hd).
  split; [exact Hf|].
  unfold find_children.
  rewrite (bind_Ok _ _ _ _ _ (deref_Ok _ _ _ Ho)), Hh. rewrite bind_ret.
  rewrite (bind_Ok _ _ _ _ _ (deref_Ok _ _ _ Ho)), Hh.
  unfold filter_children. by rewrite (bind_Ok _ _ _ _ _ Hf).
Qed.

(** What [filter_children] selects is a set of basenames of entries. *)
Lemma selected_names p a d (files0 : list FileInfo) k :
  (forall f, In f files0 ->
             basename (filename f) <> "." /\ basename (filename f) <> "..") ->
  In k (Dict.keys (fold_left (fun acc f =>
                     if belongs p a d f then Dict.set (basename (filename f)) f acc else acc)
                  files0 [])) ->
  (basename k = k /\ k <> "." /\ k <> "..") /\
  exists f, In f files0 /\ basename (filename f) = k /\ belongs p a d f = true.
Proof.
  intros Hreg Hin. apply Dict_mem_keys, fold_belongs_mem in Hin.
  destruct Hin as [Hin | (f & Hf & <- & Hb)]; [discriminate|].
  split; [|eauto]. split; [apply basename_idem | by apply Hreg].
Qed.

Lemma fold_none {A B} (P : B -> bool) (g : B -> A -> A) (l : list B) (acc : A) :
  (forall f, In f l -> P f = false) ->
  fold_left (fun acc f => if P f then g f acc else acc) l acc = acc.
Proof.
  revert acc. induction l as [|f l IH]; intros acc H; [reflexivity|].
  simpl. rewrite (H f (or_introl eq_refl)). apply IH. intros f' Hf'. apply H. by right.
Qed.

(** [find_children] on a node that holds the archive's handle and has its
    path and anchor cached, in an archive none of whose entries has the
    basename [.] or [..].  When it returns, the node itself is as it was
    and its children are the old ones, all kept, and one more for each
    name [filter_children] selected: a name is a child exactly if it was
    one or is the basename of an entry lying directly in the node's
    directory; the child made for a selected name is a new node whose
    parent is this node and, where the entry is a folder (it has no data
    stream), an archive node that is no anchor. *)
Theorem find_children_registers (s s' : state) (self : loc) (o : PathObj)
    (h : SevenZipFile) (p a : string) (r : dref) (d : Dict.t loc) :
  heap s !! self = Some o -> isinstance_ArchivePath (class o) = true ->
  path o = Some p -> anchor o = Some a -> archive_file o = Some h ->
  children o = Some r -> dicts s !! r = Some d ->
  (forall f, In f (files h) ->
             basename (filename f) <> "." /\ basename (filename f) <> "..") ->
  find_children self s = Ok tt s' ->
  exists sel d',
    filter_children self (files h) s = Ok sel s /\
    heap s' !! self = Some o /\ dicts s' !! r = Some d' /\
    (forall n, Dict.mem n d' = true
       <-> Dict.mem n d = true \/
           exists f, In f (files h) /\ basename (filename f) = n /\
                     normpath p = normpath (dirname (join a (filename f)))) /\
    (forall n v, Dict.get n d = Some v -> Dict.get n d' = Some v) /\
    (forall n info, Dict.get n sel = Some info ->
       exists v ov, Dict.get n d' = Some v /\ length (heap s) <= v /\
         heap s' !! v = Some ov /\ parent ov = Some self /\
         (folder info = None ->
          isinstance_ArchivePath (class ov) = true /\ is_anchor ov = false)).
Proof.
  intros Ho Hc Hp Ha Hh Hr Hd Hreg Hrun.
  destruct (find_children_held s self o h p a r d Ho Hc Hp Ha Hh Hr Hd) as [Hf Hloop].
  rewrite Hloop in Hrun. clear Hloop.
  match type of Hf with _ = Ok ?x _ => set (sel := x) in * end.
  destruct (register_children_inv self sel o r (Dict.keys sel) s s' d Hrun Ho Hr Hd
              (fun k Hk => proj1 (selected_names p a d (files h) k Hreg Hk)))
    as (news & d' & Eh & Ed & Hmem & Hget & Hnew).
  exists sel, d'. split; [exact Hf|]. split; [rewrite Eh; by apply lookup_app_l_Some|].
  split; [exact Ed|]. split; [|split].
  - intros n. rewrite Hmem. split.
    + intros [Hn|Hn]; [by left|]. right.
      destruct (selected_names p a d (files h) n Hreg Hn) as (_ & f & Hin & Hb & Hbel).
      exists f. unfold belongs in Hbel. apply andb_true_iff in Hbel as [H1 _].
      by apply String.eqb_eq in H1.
    + intros [Hn|(f & Hin & Hb & Hnorm)]; [by left|].
      destruct (Dict.mem n d) eqn:Hm; [by left|]. right.
      apply Dict_mem_keys, fold_belongs_mem. right. exists f.
      unfold belongs. rewrite Hb, Hm, Hnorm, String.eqb_refl. auto.
  - intros n v Hv. rewrite Hget; [exact Hv|]. intros Hin.
    destruct (selected_names p a d (files h) n Hreg Hin) as (_ & f & _ & Hb & Hbel).
    unfold belongs in Hbel. apply andb_true_iff in Hbel as [_ H2].
    apply negb_true_iff in H2. rewrite Hb in H2. unfold Dict.mem in H2. by rewrite Hv in H2.
  - intros n info Hinfo.
    assert (Hin : In n (Dict.keys sel)).
    { apply Dict_mem_keys. unfold Dict.mem. by rewrite Hinfo. }
    assert (Hm : Dict.mem n d' = true) by (apply Hmem; by right).
    unfold Dict.mem in Hm. destruct (Dict.get n d') as [v|] eqn:Hv; [|discriminate].
    destruct (Hnew n v Hin Hv) as (Hle & ov & info' & Hov & Hpar & Hinfo' & Hfold).
    assert (E : Some info' = Some info) by exact (eq_trans (eq_sym Hinfo') Hinfo).
    injection E as ->. exists v, ov. auto 6.
Qed.

Lemma find_children_registers_witness :
  let docs := mkPathObj Py7zrArchivePath "docs" (Some 1) "py7zr" "7z"
                (Some "/data/archive.7z/docs") true (Some 2)
                false (Some "/data/archive.7z") [] (Some vault_archive) in
  let s := set_obj 2 docs inside_vault in
  let s' := after (find_children 2) s in
  exists sel d',
    filter_children 2 (files vault_archive) s = Ok sel s /\
    heap s' !! 2 = Some docs /\ dicts s' !! 2 = Some d' /\
    (forall n, Dict.mem n d' = true
       <-> Dict.mem n ([] : Dict.t loc) = true \/
           exists f, In f (files vault_archive) /\ basename (filename f) = n /\
                     normpath "/data/archive.7z/docs"
                     = normpath (dirname (join "/data/archive.7z" (filename f)))) /\
    (forall n v, Dict.get n ([] : Dict.t loc) = Some v -> Dict.get n d' = Some v) /\
    (forall n info, Dict.get n sel = Some info ->
       exists v ov, Dict.get n d' = Some v /\ length (heap s) <= v /\
         heap s' !! v = Some ov /\ parent ov = Some 2 /\
         (folder info = None ->
          isinstance_ArchivePath (class ov) = true /\ is_anchor ov = false)).
Proof.
  intros docs s s'.
  apply (find_children_registers s s' 2 docs vault_archive
           "/data/archive.7z/docs" "/data/archive.7z" 2 []).
  - vm_compute. reflexivity.
  - vm_compute. reflexivity.
  - vm_compute. reflexivity.
  - vm_compute. reflexivity.
  - vm_compute. reflexivity.
  - vm_compute. reflexivity.
  - vm_compute. reflexivity.
  - intros f [<-|[<-|[]]]; split; discriminate.
  - vm_compute. reflexivity.
Defined.

(** Under the same conditions, a second [find_children] right after one
    that returned finds every entry of the node's directory registered: it
    returns too, and changes nothing. *)
Theorem find_children_twice (s s' : state) (self : loc) (o : PathObj)
    (h : SevenZipFile) (p a : string) (r : dref) (d : Dict.t loc) :
  heap s !! self = Some o -> isinstance_ArchivePath (class o) = true ->
  path o = Some p -> anchor o = Some a -> archive_file o = Some h ->
  children o = Some r -> dicts s !! r = Some d ->
  (forall f, In f (files h) ->
             basename (filename f) <> "." /\ basename (filename f) <> "..") ->
  find_children self s = Ok tt s' ->
  find_children self s' = Ok tt s'.
Proof.
  intros Ho Hc Hp Ha Hh Hr Hd Hreg Hrun.
  destruct (find_children_held s self o h p a r d Ho Hc Hp Ha Hh Hr Hd) as [Hf Hloop].
  rewrite Hloop in Hrun. clear Hloop.
  match type of Hf with _ = Ok ?x _ => set (sel := x) in * end.
  destruct (register_children_inv self sel o r (Dict.keys sel) s s' d Hrun Ho Hr Hd
              (fun k Hk => proj1 (selected_names p a d (files h) k Hreg Hk)))
    as (news & d' & Eh & Ed & Hmem & _ & _).
  assert (Ho' : heap s' !! self = Some o) by (rewrite Eh; by apply lookup_app_l_Some).
  destruct (find_children_held s' self o h p a r d' Ho' Hc Hp Ha Hh Hr Ed) as [_ ->].
  rewrite fold_none; [reflexivity|].
  intros f Hin. unfold belongs.
  destruct (normpath p =? normpath (dirname (join a (filename f)))) eqn:Hn; [|reflexivity].
  simpl. apply negb_false_iff. apply Hmem.
  destruct (Dict.mem (basename (filename f)) d) eqn:Hm; [by left|]. right.
  apply Dict_mem_keys, fold_belongs_mem. right. exists f.
  unfold belongs. by rewrite Hn, Hm.
Qed.

Lemma find_children_twice_witness :
  let docs := mkPathObj Py7zrArchivePath "docs" (Some 1) "py7zr" "7z"
                (Some "/data/archive.7z/docs") true (Some 2)
                false (Some "/data/archive.7z") [] (Some vault_archive) in
  let s := set_obj 2 docs inside_vault in
  let s' := after (find_children 2) s in
  find_children 2 s' = Ok tt s'.
Proof.
  intros docs s s'.
  apply (find_children_twice s s' 2 docs vault_archive
           "/data/archive.7z/docs" "/data/archive.7z" 2 []).
  - vm_compute. reflexivity.
  - vm_compute. reflexivity.
  - vm_compute. reflexivity.
  - vm_compute. reflexivity.
  - vm_compute. reflexivity.
  - vm_compute. reflexivity.
  - vm_compute. reflexivity.
  - intros f [<-|[<-|[]]]; split; discriminate.
  - vm_compute. reflexivity.
Defined.
